(** * Local execution engine of Argo Workflows: model and verification

    The development embeds the Docker adapter
    ([workflow/executor/local/docker_executor.go]) and the local controller
    ([LocalController], in the same package) and states the engine's
    contract over them.

    Layout:
    - Go values and the [wfv1] data model;
    - the Docker client as an environment, and the adapter
      ([buildEnvVars], [ExecuteContainer], [ExecuteScript]);
    - the orchestrator's template walk, with goroutine groups as merges of
      the children's event traces;
    - the run registry ([SubmitWorkflow], [GetWorkflow], [ListWorkflows])
      over a store with pointers;
    - the theorems. *)

From stdpp Require Import base option list strings gmap pretty.
From Stdlib Require Import Ascii ZArith Lia.


(** ** Go values *)

(** A non-nil Go [error], identified with the text of [err.Error()]. *)
Definition error := string.

(** [metav1.Time]; [None] is the zero value. *)
Definition Time := option Z.

(** How a Go call ends: it returns, it panics (which ends the process), it
    stays blocked for ever, or the model was given too little fuel to follow
    the recursion to its end. *)
Inductive outcome (A : Type) : Type :=
  | Return (a : A)
  | Panic (msg : string)
  | Blocked
  | OutOfFuel.
Arguments Return {A} a.
Arguments Panic {A} msg.
Arguments Blocked {A}.
Arguments OutOfFuel {A}.

Definition returns {A} (o : outcome A) : Prop := ∃ a, o = Return a.

(** [strings.ReplaceAll s old new] for one-character [old] and [new]: every
    occurrence of the character is replaced. *)
Fixpoint ReplaceAll (s : string) (old new : ascii) : string :=
  match s with
  | EmptyString => EmptyString
  | String a s' =>
      String (if Ascii.eqb a old then new else a) (ReplaceAll s' old new)
  end.

(** Whether a character occurs in a string. *)
Fixpoint occurs (c : ascii) (s : string) : bool :=
  match s with
  | EmptyString => false
  | String a s' => Ascii.eqb a c || occurs c s'
  end.

(** ** The [wfv1] data model

    The types are declared in the [wfv1] package, outside the sources at
    hand; each is modelled with the fields the engine reads or writes. *)

(** Modelled from the spec: an environment variable a template declares
    ([Name], [Value]). *)
Record EnvVar := { EnvName : string; EnvValue : string }.

(** Modelled from the spec: a volume mount of a container ([Name],
    [MountPath]). *)
Record VolumeMount := { vmName : string; vmMountPath : string }.

(** Modelled from the spec: the unit-of-work part of a container template
    (image, entrypoint command, arguments, working directory, environment
    variables). *)
Record Container := {
  cImage : string;
  cCommand : list string;
  cArgs : list string;
  cWorkingDir : string;
  cEnv : list EnvVar;
  cVolumeMounts : list VolumeMount }.

(** Modelled from the spec: the unit-of-work part of a script template,
    with the interpreter command and the inline source. *)
Record ScriptTemplate := {
  sImage : string;
  sCommand : list string;
  sWorkingDir : string;
  sEnv : list EnvVar;
  sSource : string }.

(** Modelled from the spec: a named reference to a template from a step
    group. *)
Record WorkflowStep := { stepName : string; stepTemplate : string }.

(** Modelled from the spec: a group of steps that run side by side. *)
Record ParallelSteps := { Steps : list WorkflowStep }.

(** Modelled from the spec: a named reference to a template from a task
    graph, with the dependencies it declares. *)
Record DAGTask := {
  taskName : string;
  taskTemplate : string;
  taskDependencies : list string }.

(** Modelled from the spec: a task graph, an unordered set of tasks. *)
Record DAGTemplate := { Tasks : list DAGTask }.

(** Modelled from the spec: a template is a unit of work (container or
    script) or a composite (step list or task graph); the four optional
    members are Go pointers or slices that may be nil. *)
Record Template := {
  tName : string;
  tContainer : option Container;
  tScript : option ScriptTemplate;
  tSteps : option (list ParallelSteps);
  tDAG : option DAGTemplate }.

(** Modelled from the spec: the phases of a node. *)
Inductive NodePhase :=
  | NodePending | NodeRunning | NodeSucceeded | NodeFailed | NodeError.

(** Modelled from the spec: the kind of a node. *)
Inductive NodeType := NodeTypePod | NodeTypeSteps | NodeTypeDAG.

(** Modelled from the spec: a named output of a node; the captured output of
    a unit is the one named [logs]. *)
Record OutputParameter := { pName : string; pValue : option string }.

Record Outputs := { oParameters : list OutputParameter }.

(** Modelled from the spec: the status of one executed node. *)
Record NodeStatus := {
  nID : string;
  nName : string;
  nDisplayName : string;
  nType : NodeType;
  nPhase : NodePhase;
  nStartedAt : Time;
  nFinishedAt : Time;
  nMessage : string;
  nOutputs : option Outputs;
  nHostNodeName : string }.

Global Instance NodePhase_eq_dec : EqDecision NodePhase.
Proof. solve_decision. Defined.

Definition with_result (ns : NodeStatus) (ph : NodePhase) (msg : string)
    : NodeStatus :=
  {| nID := nID ns; nName := nName ns; nDisplayName := nDisplayName ns;
     nType := nType ns; nPhase := ph; nStartedAt := nStartedAt ns;
     nFinishedAt := nFinishedAt ns; nMessage := msg;
     nOutputs := nOutputs ns; nHostNodeName := nHostNodeName ns |}.

Definition with_FinishedAt (ns : NodeStatus) (t : Time) : NodeStatus :=
  {| nID := nID ns; nName := nName ns; nDisplayName := nDisplayName ns;
     nType := nType ns; nPhase := nPhase ns; nStartedAt := nStartedAt ns;
     nFinishedAt := t; nMessage := nMessage ns;
     nOutputs := nOutputs ns; nHostNodeName := nHostNodeName ns |}.

Definition with_Outputs (ns : NodeStatus) (o : option Outputs) : NodeStatus :=
  {| nID := nID ns; nName := nName ns; nDisplayName := nDisplayName ns;
     nType := nType ns; nPhase := nPhase ns; nStartedAt := nStartedAt ns;
     nFinishedAt := nFinishedAt ns; nMessage := nMessage ns;
     nOutputs := o; nHostNodeName := nHostNodeName ns |}.

(** Modelled from the spec: the phases of a run; [WorkflowUnknown] is the
    empty phase of a document that carries none. *)
Inductive WorkflowPhase :=
  | WorkflowUnknown   (* the empty string *)
  | WorkflowPending | WorkflowRunning | WorkflowSucceeded | WorkflowFailed
  | WorkflowError.

(** Modelled from the spec: the mutable status of a run. A Go map is a
    reference: the status holds a pointer into the store of node maps, or
    nil. *)
Record WorkflowStatus := {
  wsPhase : WorkflowPhase;
  wsStartedAt : Time;
  wsFinishedAt : Time;
  wsMessage : string;
  wsNodes : option nat }.

(** Modelled from the spec: the immutable template set and the entry
    point. *)
Record WorkflowSpec := { Entrypoint : string; Templates : list Template }.

(** Modelled from the spec: a run, identified by its name. *)
Record Workflow := {
  wfName : string;
  wfSpec : WorkflowSpec;
  wfStatus : WorkflowStatus }.

(** ** The Docker client *)

Record Mount := { mType : string; mSource : string; mTarget : string }.

Record ContainerConfig := {
  Image : string;
  Cmd : list string;
  Env : list string;
  WorkingDir : string;
  AttachStdout : bool;
  AttachStderr : bool;
  Tty : bool }.

Record HostConfig := { AutoRemove : bool; Mounts : list Mount }.

(** What the two channels of [ContainerWait] deliver to the [select]: a
    value on the error channel (nil or not), a status with its exit code, or
    nothing at all. *)
Inductive WaitResult :=
  | WaitErr (err : option error)
  | WaitStatus (StatusCode : Z)
  | WaitNever.

(** The calls the adapter makes on the Docker client, in the order made. *)
Inductive call :=
  | CallCreate (name : string) (cfg : ContainerConfig) (host : HostConfig)
  | CallStart (id : string)
  | CallWait (id : string)
  | CallLogs (id : string)
  | CallRemove (id : string) (force : bool).

(** The environment of the adapter: the answers of the Docker daemon and
    the readings of the clock. *)
Record DockerExecutor := {
  ContainerCreate : ContainerConfig → HostConfig → string → string + error;
  ContainerStart : string → option error;
  ContainerWait : string → WaitResult;
  ContainerLogs : string → string + error;
  ContainerRemove : string → bool → option error;
  NowStarted : string → Time;
  NowFinished : string → Time }.

(** Computations that leave a trace: the events so far and how the call
    ended. The adapter's events are its calls on the Docker client. *)
Definition Exec (E A : Type) : Type := list E * outcome A.

Global Instance Exec_ret {E} : MRet (Exec E) := λ A a, ([], Return a).

Global Instance Exec_bind {E} : MBind (Exec E) := λ A B f m,
  match m.2 with
  | Return a => (m.1 ++ (f a).1, (f a).2)
  | Panic msg => (m.1, Panic msg)
  | Blocked => (m.1, Blocked)
  | OutOfFuel => (m.1, OutOfFuel)
  end.

Definition emit {E A} (e : E) (answer : A) : Exec E A := ([e], Return answer).

Definition panic {E A} (msg : string) : Exec E A := ([], Panic msg).

Definition block {E A} : Exec E A := ([], Blocked).

(** ** The adapter *)

Section Adapter.

(** [wf.NodeID], declared in the [wfv1] package, is taken as it comes. *)
Variable NodeID : Workflow → string → string.

Variable de : DockerExecutor.

Definition fmtEnv (env : EnvVar) : string :=
  EnvName env +:+ "=" +:+ EnvValue env.

Definition appendEnv (envVars : list string) (envs : list EnvVar)
    : list string :=
  foldl (λ acc env, acc ++ [fmtEnv env]) envVars envs.

Definition buildEnvVars (tmpl : Template) (wf : Workflow) (nodeName : string)
    : list string :=
  let envVars := [ "ARGO_WORKFLOW_NAME=" +:+ wfName wf;
                   "ARGO_NODE_NAME=" +:+ nodeName;
                   "ARGO_TEMPLATE_NAME=" +:+ tName tmpl ] in
  let envVars :=
    match tContainer tmpl with
    | Some c => appendEnv envVars (cEnv c)
    | None => envVars
    end in
  let envVars :=
    match tScript tmpl with
    | Some s => appendEnv envVars (sEnv s)
    | None => envVars
    end in
  envVars.

Definition containerNameOf (wf : Workflow) (nodeName : string) : string :=
  ReplaceAll ("argo-" +:+ wfName wf +:+ "-" +:+ nodeName) "."%char "-"%char.

Definition logsOutputs (logs : string) : Outputs :=
  {| oParameters := [ {| pName := "logs"; pValue := Some logs |} ] |}.

Definition initialNodeStatus (wf : Workflow) (nodeName containerName : string)
    (now : Time) : NodeStatus :=
  {| nID := NodeID wf nodeName; nName := nodeName; nDisplayName := nodeName;
     nType := NodeTypePod; nPhase := NodeRunning; nStartedAt := now;
     nFinishedAt := None; nMessage := EmptyString; nOutputs := None;
     nHostNodeName := containerName |}.

(** The container configuration and the host configuration that
    [ExecuteContainer] builds. *)
Definition containerConfigOf (tmpl : Template) (c : Container) (wf : Workflow)
    (nodeName : string) : ContainerConfig :=
  {| Image := cImage c;
     Cmd := if bool_decide (0 < length (cArgs c))%nat
            then cCommand c ++ cArgs c else cCommand c;
     Env := buildEnvVars tmpl wf nodeName;
     WorkingDir := cWorkingDir c;
     AttachStdout := true; AttachStderr := true; Tty := false |}.

Definition hostConfigOf (c : Container) (wf : Workflow) : HostConfig :=
  {| AutoRemove := false;
     Mounts :=
       if bool_decide (0 < length (cVolumeMounts c))%nat
       then foldl (λ mounts vm, mounts ++
              [ {| mType := "bind";
                   mSource := "/tmp/argo-local/" +:+ wfName wf
                              +:+ "/" +:+ vmName vm;
                   mTarget := vmMountPath vm |} ]) [] (cVolumeMounts c)
       else [] |}.

Definition ExecuteContainer (nodeName : string) (tmpl : Template)
    (wf : Workflow) : Exec call (option NodeStatus * option error) :=
  match tContainer tmpl with
  | None =>
      mret (None, Some ("template " +:+ tName tmpl
                        +:+ " does not have a container spec"))
  | Some c =>
      let containerConfig := containerConfigOf tmpl c wf nodeName in
      let hostConfig := hostConfigOf c wf in
      let containerName := containerNameOf wf nodeName in
      resp ← emit (CallCreate containerName containerConfig hostConfig)
                  (ContainerCreate de containerConfig hostConfig containerName);
      match resp with
      | inr err => mret (None, Some ("failed to create container: " +:+ err))
      | inl ID =>
          started ← emit (CallStart ID) (ContainerStart de ID);
          match started with
          | Some err => mret (None, Some ("failed to start container: " +:+ err))
          | None =>
              let nodeStatus :=
                initialNodeStatus wf nodeName containerName (NowStarted de ID) in
              let cleanup (nodeStatus : NodeStatus) :=
                _ ← emit (CallRemove ID true) (ContainerRemove de ID true);
                mret (Some nodeStatus, None) in
              waited ← emit (CallWait ID) (ContainerWait de ID);
              match waited with
              | WaitNever => block
              | WaitErr (Some err) =>
                  mret (Some (with_result nodeStatus NodeError err), Some err)
              | WaitErr None => cleanup nodeStatus
              | WaitStatus StatusCode =>
                  let nodeStatus := with_FinishedAt nodeStatus (NowFinished de ID) in
                  let nodeStatus :=
                    if bool_decide (StatusCode = 0%Z)
                    then with_result nodeStatus NodeSucceeded (nMessage nodeStatus)
                    else with_result nodeStatus NodeFailed
                           ("container exited with code " +:+ pretty StatusCode) in
                  logs ← emit (CallLogs ID) (ContainerLogs de ID);
                  let nodeStatus :=
                    match logs with
                    | inr _ => nodeStatus
                    | inl logs => with_Outputs nodeStatus (Some (logsOutputs logs))
                    end in
                  cleanup nodeStatus
              end
          end
      end
  end.

(** The configuration that [ExecuteScript] builds; [Command0] is
    [tmpl.Script.Command[0]]. *)
Definition scriptConfigOf (tmpl : Template) (s : ScriptTemplate) (wf : Workflow)
    (nodeName : string) (Command0 : string) : ContainerConfig :=
  {| Image := sImage s;
     Cmd := (if bool_decide (1 < length (sCommand s))%nat
             then [Command0] ++ drop 1 (sCommand s) else [Command0])
            ++ ["-c"; sSource s];
     Env := buildEnvVars tmpl wf nodeName;
     WorkingDir := sWorkingDir s;
     AttachStdout := true; AttachStderr := true; Tty := false |}.

Definition scriptHostConfig : HostConfig := {| AutoRemove := false; Mounts := [] |}.

Definition ExecuteScript (nodeName : string) (tmpl : Template)
    (wf : Workflow) : Exec call (option NodeStatus * option error) :=
  match tScript tmpl with
  | None =>
      mret (None, Some ("template " +:+ tName tmpl
                        +:+ " does not have a script spec"))
  | Some s =>
      match sCommand s !! 0%nat with
      | None => panic "runtime error: index out of range [0] with length 0"
      | Some Command0 =>
          let containerConfig := scriptConfigOf tmpl s wf nodeName Command0 in
          let hostConfig := scriptHostConfig in
          let containerName := containerNameOf wf nodeName in
          resp ← emit (CallCreate containerName containerConfig hostConfig)
                      (ContainerCreate de containerConfig hostConfig containerName);
          match resp with
          | inr err => mret (None, Some ("failed to create container: " +:+ err))
          | inl ID =>
              started ← emit (CallStart ID) (ContainerStart de ID);
              match started with
              | Some err =>
                  mret (None, Some ("failed to start container: " +:+ err))
              | None =>
                  let nodeStatus :=
                    initialNodeStatus wf nodeName containerName (NowStarted de ID) in
                  let cleanup (nodeStatus : NodeStatus) :=
                    _ ← emit (CallRemove ID true) (ContainerRemove de ID true);
                    mret (Some nodeStatus, None) in
                  waited ← emit (CallWait ID) (ContainerWait de ID);
                  match waited with
                  | WaitNever => block
                  | WaitErr (Some err) =>
                      mret (Some (with_result nodeStatus NodeError err), Some err)
                  | WaitErr None => cleanup nodeStatus
                  | WaitStatus StatusCode =>
                      let nodeStatus :=
                        with_FinishedAt nodeStatus (NowFinished de ID) in
                      let nodeStatus :=
                        if bool_decide (StatusCode = 0%Z)
                        then with_result nodeStatus NodeSucceeded (nMessage nodeStatus)
                        else with_result nodeStatus NodeFailed
                               ("script exited with code " +:+ pretty StatusCode) in
                      logs ← emit (CallLogs ID) (ContainerLogs de ID);
                      let nodeStatus :=
                        match logs with
                        | inr _ => nodeStatus
                        | inl logs =>
                            with_Outputs nodeStatus (Some (logsOutputs logs))
                        end in
                      cleanup nodeStatus
                  end
              end
          end
      end
  end.

End Adapter.

(** ** The orchestrator *)

(** The goroutines a composite template starts: step [j] of group [i] of a
    step list, or task [j] of a task graph. *)
Inductive gid :=
  | StepG (i j : nat)
  | TaskG (j : nat).

Global Instance gid_eq_dec : EqDecision gid.
Proof. solve_decision. Defined.

(** What a walk does, as seen from outside: it enters [executeTemplate], calls
    the Docker client, writes a node status into the run's map, and, inside
    a goroutine [g] ([EvGo g]), sends on the group's error channel, signals
    the wait group, or panics. *)
Inductive event :=
  | EvExec (nodeName tmplName : string)
  | EvCall (c : call)
  | EvWrite (ID : string) (nodeStatus : NodeStatus)
  | EvSend (err : error)
  | EvDone
  | EvCrash (msg : string)
  | EvGo (g : gid) (e : event).

(** A scheduler interleaves the goroutines of a group: each choice names the
    goroutine that makes the next step (a choice that names none, or one that
    has finished, is passed over); when the choices run out, the goroutines
    left run one after the other. *)
Fixpoint merge {A} (choices : list nat) (ts : list (list A)) : list A :=
  match choices with
  | [] => concat ts
  | c :: choices =>
      match ts !! c with
      | Some (e :: t) => e :: merge choices (<[c := t]> ts)
      | _ => merge choices ts
      end
  end.

(** The trace up to and including the first event that satisfies [stop]. *)
Fixpoint upto {A} (stop : A → bool) (l : list A) : list A :=
  match l with
  | [] => []
  | e :: l => if stop e then [e] else e :: upto stop l
  end.

Definition crash_of (e : event) : option string :=
  match e with EvGo _ (EvCrash msg) => Some msg | _ => None end.

Definition sent_of (e : event) : option error :=
  match e with EvGo _ (EvSend err) => Some err | _ => None end.

(** A goroutine of a group: [defer wg.Done()], then the body, whose error
    (if any) is sent on the channel. A panic runs the deferred call and then
    ends the process. *)
Definition goroutine (body : Exec event (option error)) : Exec event unit :=
  match body.2 with
  | Return (Some err) => (body.1 ++ [EvSend err; EvDone], Return ())
  | Return None => (body.1 ++ [EvDone], Return ())
  | Panic msg => (body.1 ++ [EvDone; EvCrash msg], Panic msg)
  | Blocked => (body.1, Blocked)
  | OutOfFuel => (body.1, OutOfFuel)
  end.

(** How a group of goroutines ends as a whole, from how each one ends. *)
Fixpoint joined {A} (os : list (outcome A)) : outcome unit :=
  match os with
  | [] => Return ()
  | o :: os =>
      match o, joined os with
      | Panic msg, _ => Panic msg
      | _, Panic msg => Panic msg
      | OutOfFuel, _ => OutOfFuel
      | _, OutOfFuel => OutOfFuel
      | Blocked, _ => Blocked
      | _, Blocked => Blocked
      | Return _, Return _ => Return ()
      end
  end.

(** Start the goroutines [gs], [wg.Wait()], [close(errChan)]: the result is
    the content of the channel, in the order sent. When a goroutine panics
    the process ends with the first panic; when one never returns, neither
    does the wait. *)
Definition runGroup (tag : nat → gid) (choices : list nat)
    (gs : list (Exec event unit)) : Exec event (list error) :=
  let merged := merge choices (imap (λ j g, EvGo (tag j) <$> g.1) gs) in
  match joined (snd <$> gs) with
  | Return _ => (merged, Return (omap sent_of merged))
  | Panic msg =>
      let tr := upto (λ e, bool_decide (is_Some (crash_of e))) merged in
      (tr, Panic (default msg (last tr ≫= crash_of)))
  | Blocked => (merged, Blocked)
  | OutOfFuel => (merged, OutOfFuel)
  end.

Definition findTemplate (wf : Workflow) (name : string) : option Template :=
  List.find (λ t, bool_decide (tName t = name)) (Templates (wfSpec wf)).

Section Orchestrator.

Variable NodeID : Workflow → string → string.
Variable de : DockerExecutor.

(** The scheduler: for the group [i] started at node [nodeName], the choices
    it makes. *)
Variable sched : string → nat → list nat.

Definition liftCalls {A} (m : Exec call A) : Exec event A := (EvCall <$> m.1, m.2).

Definition failedOrError (ph : NodePhase) : bool :=
  bool_decide (ph = NodeFailed) || bool_decide (ph = NodeError).

Definition executeContainerTemplate (wf : Workflow) (nodeName : string)
    (tmpl : Template) : Exec event (option error) :=
  r ← liftCalls (ExecuteContainer NodeID de nodeName tmpl wf);
  match r with
  | (_, Some err) => mret (Some err)
  | (None, None) => panic "invalid memory address or nil pointer dereference"
  | (Some nodeStatus, None) =>
      _ ← emit (EvWrite (nID nodeStatus) nodeStatus) ();
      if failedOrError (nPhase nodeStatus)
      then mret (Some ("container execution failed: " +:+ nMessage nodeStatus))
      else mret None
  end.

Definition executeScriptTemplate (wf : Workflow) (nodeName : string)
    (tmpl : Template) : Exec event (option error) :=
  r ← liftCalls (ExecuteScript NodeID de nodeName tmpl wf);
  match r with
  | (_, Some err) => mret (Some err)
  | (None, None) => panic "invalid memory address or nil pointer dereference"
  | (Some nodeStatus, None) =>
      _ ← emit (EvWrite (nID nodeStatus) nodeStatus) ();
      if failedOrError (nPhase nodeStatus)
      then mret (Some ("script execution failed: " +:+ nMessage nodeStatus))
      else mret None
  end.

Section Composite.

(** The recursive call [lc.executeTemplate]. *)
Variable executeTemplate : string → Template → Exec event (option error).

(** The body of the goroutine started for step [s] of group [i]. *)
Definition stepBody (wf : Workflow) (nodeName : string) (i : nat)
    (s : WorkflowStep) : Exec event (option error) :=
  let stepNodeName := nodeName +:+ "[" +:+ pretty i +:+ "]." +:+ stepName s in
  match findTemplate wf (stepTemplate s) with
  | None => mret (Some ("template '" +:+ stepTemplate s
                        +:+ "' not found for step '" +:+ stepName s +:+ "'"))
  | Some stepTmpl => executeTemplate stepNodeName stepTmpl
  end.

Definition stepGoroutine (wf : Workflow) (nodeName : string) (i : nat)
    (s : WorkflowStep) : Exec event unit :=
  goroutine (stepBody wf nodeName i s).

(** One round of the loop over the groups: the steps of [stepGroup] run as
    goroutines and are waited for. *)
Definition runStepGroup (wf : Workflow) (nodeName : string) (i : nat)
    (stepGroup : ParallelSteps) : Exec event (list error) :=
  runGroup (StepG i) (sched nodeName i)
    (stepGoroutine wf nodeName i <$> Steps stepGroup).

Fixpoint stepsFrom (wf : Workflow) (nodeName : string) (i : nat)
    (groups : list ParallelSteps) : Exec event (option error) :=
  match groups with
  | [] => mret None
  | stepGroup :: groups =>
      errChan ← runStepGroup wf nodeName i stepGroup;
      match errChan with
      | err :: _ => mret (Some err)
      | [] => stepsFrom wf nodeName (S i) groups
      end
  end.

Definition executeStepsTemplate (wf : Workflow) (nodeName : string)
    (groups : list ParallelSteps) : Exec event (option error) :=
  stepsFrom wf nodeName 0 groups.

(** The body of the goroutine started for task [t]. *)
Definition taskBody (wf : Workflow) (nodeName : string) (t : DAGTask)
    : Exec event (option error) :=
  let taskNodeName := nodeName +:+ "." +:+ taskName t in
  match findTemplate wf (taskTemplate t) with
  | None => mret (Some ("template '" +:+ taskTemplate t
                        +:+ "' not found for task '" +:+ taskName t +:+ "'"))
  | Some taskTmpl => executeTemplate taskNodeName taskTmpl
  end.

Definition taskGoroutine (wf : Workflow) (nodeName : string) (t : DAGTask)
    : Exec event unit :=
  goroutine (taskBody wf nodeName t).

Definition runTasks (wf : Workflow) (nodeName : string) (dag : DAGTemplate)
    : Exec event (list error) :=
  runGroup TaskG (sched nodeName 0) (taskGoroutine wf nodeName <$> Tasks dag).

Definition executeDAGTemplate (wf : Workflow) (nodeName : string)
    (dag : DAGTemplate) : Exec event (option error) :=
  errChan ← runTasks wf nodeName dag;
  match errChan with
  | err :: _ => mret (Some err)
  | [] => mret None
  end.

End Composite.

(** [executeTemplate]: the recursion follows template names and need not
    end, so it is cut off by [fuel]. *)
Fixpoint executeTemplate (fuel : nat) (wf : Workflow) (nodeName : string)
    (tmpl : Template) : Exec event (option error) :=
  match fuel with
  | O => ([], OutOfFuel)
  | S fuel =>
      _ ← emit (EvExec nodeName (tName tmpl)) ();
      match tContainer tmpl, tScript tmpl, tSteps tmpl, tDAG tmpl with
      | Some _, _, _, _ => executeContainerTemplate wf nodeName tmpl
      | None, Some _, _, _ => executeScriptTemplate wf nodeName tmpl
      | None, None, Some groups, _ =>
          executeStepsTemplate (executeTemplate fuel wf) wf nodeName groups
      | None, None, None, Some dag =>
          executeDAGTemplate (executeTemplate fuel wf) wf nodeName dag
      | None, None, None, None =>
          mret (Some ("unsupported template type for template " +:+ tName tmpl))
      end
  end.

End Orchestrator.

(** ** The run registry *)

(** [WorkflowExecution.Status] is [&wf.Status]: the status of a run is read
    and written through its workflow object. *)
Record WorkflowExecution := { weWorkflow : Workflow }.

(** The controller and what its pointers point to: [workflows] maps a run
    name to a pointer to its [WorkflowExecution]; [executions] and
    [nodeMaps] are the objects and the Go maps pointed to (a pointer is an
    index); [spawned] holds the walks started with [go] that have not run
    yet, by their [wfExec] argument. *)
Record LocalController := {
  workflows : gmap string nat;
  executions : list WorkflowExecution;
  nodeMaps : list (gmap string NodeStatus);
  spawned : list nat }.

Definition with_status (f : WorkflowStatus → WorkflowStatus)
    (wfExec : WorkflowExecution) : WorkflowExecution :=
  {| weWorkflow :=
       {| wfName := wfName (weWorkflow wfExec);
          wfSpec := wfSpec (weWorkflow wfExec);
          wfStatus := f (wfStatus (weWorkflow wfExec)) |} |}.

Definition set_Phase (ph : WorkflowPhase) (st : WorkflowStatus) : WorkflowStatus :=
  {| wsPhase := ph; wsStartedAt := wsStartedAt st;
     wsFinishedAt := wsFinishedAt st; wsMessage := wsMessage st;
     wsNodes := wsNodes st |}.

Definition set_StartedAt (t : Time) (st : WorkflowStatus) : WorkflowStatus :=
  {| wsPhase := wsPhase st; wsStartedAt := t;
     wsFinishedAt := wsFinishedAt st; wsMessage := wsMessage st;
     wsNodes := wsNodes st |}.

Definition set_FinishedAt (t : Time) (st : WorkflowStatus) : WorkflowStatus :=
  {| wsPhase := wsPhase st; wsStartedAt := wsStartedAt st;
     wsFinishedAt := t; wsMessage := wsMessage st; wsNodes := wsNodes st |}.

Definition set_Message (msg : string) (st : WorkflowStatus) : WorkflowStatus :=
  {| wsPhase := wsPhase st; wsStartedAt := wsStartedAt st;
     wsFinishedAt := wsFinishedAt st; wsMessage := msg; wsNodes := wsNodes st |}.

Definition set_Nodes (r : option nat) (st : WorkflowStatus) : WorkflowStatus :=
  {| wsPhase := wsPhase st; wsStartedAt := wsStartedAt st;
     wsFinishedAt := wsFinishedAt st; wsMessage := wsMessage st; wsNodes := r |}.

Definition update_execution (lc : LocalController) (p : nat)
    (f : WorkflowStatus → WorkflowStatus) : LocalController :=
  {| workflows := workflows lc;
     executions := alter (with_status f) p (executions lc);
     nodeMaps := nodeMaps lc;
     spawned := spawned lc |}.

Definition statusOf (lc : LocalController) (p : nat) : option WorkflowStatus :=
  (wfStatus ∘ weWorkflow) <$> executions lc !! p.

Global Instance WorkflowPhase_eq_dec : EqDecision WorkflowPhase.
Proof. solve_decision. Defined.

(** [SubmitWorkflow]; [now] is the reading of [time.Now()]. The result is
    the returned error ([None] is nil). *)
Definition SubmitWorkflow (now : Time) (lc : LocalController) (wf : Workflow)
    : LocalController * option error :=
  let wf :=
    if bool_decide (wsPhase (wfStatus wf) = WorkflowUnknown)
    then {| wfName := wfName wf; wfSpec := wfSpec wf;
            wfStatus := set_StartedAt now (set_Phase WorkflowPending (wfStatus wf)) |}
    else wf in
  let wfExec := length (executions lc) in
  ({| workflows := <[wfName wf := wfExec]> (workflows lc);
      executions := executions lc ++ [ {| weWorkflow := wf |} ];
      nodeMaps := nodeMaps lc;
      spawned := spawned lc ++ [wfExec] |},
   None).

Definition markWorkflowFailed (now : Time) (lc : LocalController) (wfExec : nat)
    (message : string) : LocalController :=
  update_execution lc wfExec
    (λ st, set_FinishedAt now (set_Message message (set_Phase WorkflowFailed st))).

(** [wfExec.Status.Nodes[ID] = nodeStatus]; [None] is the panic of an
    assignment to an entry of a nil map. *)
Definition writeNodeStatus (lc : LocalController) (wfExec : nat)
    (ID : string) (nodeStatus : NodeStatus) : option LocalController :=
  st ← statusOf lc wfExec;
  r ← wsNodes st;
  Some {| workflows := workflows lc; executions := executions lc;
          nodeMaps := alter (<[ID := nodeStatus]>) r (nodeMaps lc);
          spawned := spawned lc |}.

(** The effect of a walk's events on the store: only the writes to the node
    map, by whichever goroutine, change it. *)
Fixpoint applyEvent (lc : LocalController) (wfExec : nat) (e : event)
    : option LocalController :=
  match e with
  | EvWrite ID nodeStatus => writeNodeStatus lc wfExec ID nodeStatus
  | EvGo _ e => applyEvent lc wfExec e
  | _ => Some lc
  end.

Fixpoint applyEvents (lc : LocalController) (wfExec : nat) (tr : list event)
    : option LocalController :=
  match tr with
  | [] => Some lc
  | e :: tr => lc ← applyEvent lc wfExec e; applyEvents lc wfExec tr
  end.

(** The start of [executeWorkflow]: the phase becomes Running and the node
    map is made if it is nil. *)
Definition walkStart (lc : LocalController) (wfExec : nat) : LocalController :=
  let lc := update_execution lc wfExec (set_Phase WorkflowRunning) in
  match statusOf lc wfExec with
  | Some st =>
      match wsNodes st with
      | Some _ => lc
      | None =>
          let lc := update_execution lc wfExec
                      (set_Nodes (Some (length (nodeMaps lc)))) in
          {| workflows := workflows lc; executions := executions lc;
             nodeMaps := nodeMaps lc ++ [∅]; spawned := spawned lc |}
      end
  | None => lc
  end.

Section Walk.

Variable NodeID : Workflow → string → string.
Variable de : DockerExecutor.
Variable sched : string → nat → list nat.

(** [executeWorkflow], run from its start to its end; [now] is the reading
    of the clock when it ends. *)
Definition executeWorkflow (fuel : nat) (now : Time) (lc : LocalController)
    (wfExec : nat) : LocalController * outcome unit :=
  let lc := walkStart lc wfExec in
  match executions lc !! wfExec with
  | None => (lc, Panic "invalid memory address or nil pointer dereference")
  | Some we =>
      let wf := weWorkflow we in
      let entrypoint := Entrypoint (wfSpec wf) in
      if bool_decide (entrypoint = EmptyString)
      then (markWorkflowFailed now lc wfExec "No entrypoint specified", Return ())
      else
        match findTemplate wf entrypoint with
        | None =>
            (markWorkflowFailed now lc wfExec
               ("Entrypoint template '" +:+ entrypoint +:+ "' not found"),
             Return ())
        | Some entrypointTmpl =>
            let run := executeTemplate NodeID de sched fuel wf entrypoint
                         entrypointTmpl in
            match applyEvents lc wfExec run.1 with
            | None => (lc, Panic "assignment to entry in nil map")
            | Some lc =>
                match run.2 with
                | Return (Some err) =>
                    (markWorkflowFailed now lc wfExec err, Return ())
                | Return None =>
                    (update_execution lc wfExec
                       (λ st, set_FinishedAt now (set_Phase WorkflowSucceeded st)),
                     Return ())
                | Panic msg => (lc, Panic msg)
                | Blocked => (lc, Blocked)
                | OutOfFuel => (lc, OutOfFuel)
                end
            end
        end
  end.

End Walk.

(** Modelled from the spec: [Workflow.DeepCopy], generated code of the
    [wfv1] package that is not among the sources at hand. The copy is deep
    and independent: it shares nothing with the original, so a non-nil node
    map is copied into a new map. *)
Definition DeepCopy (maps : list (gmap string NodeStatus)) (wf : Workflow)
    : list (gmap string NodeStatus) * Workflow :=
  match wsNodes (wfStatus wf) with
  | None => (maps, wf)
  | Some r =>
      (maps ++ [default ∅ (maps !! r)],
       {| wfName := wfName wf; wfSpec := wfSpec wf;
          wfStatus := set_Nodes (Some (length maps)) (wfStatus wf) |})
  end.

(** The body shared by [GetWorkflow] and the loop of [ListWorkflows]:
    [wf := wfExec.Workflow.DeepCopy(); wf.Status = *wfExec.Status]. *)
Definition copyWithStatus (maps : list (gmap string NodeStatus))
    (wfExec : WorkflowExecution) : list (gmap string NodeStatus) * Workflow :=
  let '(maps, wf) := DeepCopy maps (weWorkflow wfExec) in
  (maps, {| wfName := wfName wf; wfSpec := wfSpec wf;
            wfStatus := wfStatus (weWorkflow wfExec) |}).

Definition GetWorkflow (lc : LocalController) (name : string)
    : LocalController * (option Workflow * option error) :=
  match workflows lc !! name ≫= (executions lc !!.) with
  | None => (lc, (None, Some ("workflow '" +:+ name +:+ "' not found")))
  | Some wfExec =>
      let '(maps, wf) := copyWithStatus (nodeMaps lc) wfExec in
      ({| workflows := workflows lc; executions := executions lc;
          nodeMaps := maps; spawned := spawned lc |},
       (Some wf, None))
  end.

(** [ListWorkflows]; Go leaves the order of a map's keys open, the model
    takes the order of [map_to_list]. *)
Definition ListWorkflows (lc : LocalController)
    : LocalController * list Workflow :=
  let '(maps, wfs) :=
    foldl (λ '(maps, wfs) (entry : string * nat),
             match executions lc !! entry.2 with
             | None => (maps, wfs)
             | Some wfExec =>
                 let '(maps, wf) := copyWithStatus maps wfExec in
                 (maps, wfs ++ [wf])
             end)
          (nodeMaps lc, []) (map_to_list (workflows lc)) in
  ({| workflows := workflows lc; executions := executions lc;
      nodeMaps := maps; spawned := spawned lc |}, wfs).

(** What a reader finds behind the node map of a workflow value it holds. *)
Definition nodesOf (lc : LocalController) (wf : Workflow)
    : option (gmap string NodeStatus) :=
  wsNodes (wfStatus wf) ≫= (nodeMaps lc !!.).

(** ** Notions used in the statements *)

(** The three identifiers every unit of work is given. *)
Definition injectedEnv (tmpl : Template) (wf : Workflow) (nodeName : string)
    : list string :=
  [ "ARGO_WORKFLOW_NAME=" +:+ wfName wf;
    "ARGO_NODE_NAME=" +:+ nodeName;
    "ARGO_TEMPLATE_NAME=" +:+ tName tmpl ].

(** The variables a template declares, in document order. *)
Definition declaredEnv (tmpl : Template) : list EnvVar :=
  from_option cEnv [] (tContainer tmpl) ++ from_option sEnv [] (tScript tmpl).

(** The same environment with other answers to [ContainerRemove]. *)
Definition withRemove (de : DockerExecutor) (rm : string → bool → option error)
    : DockerExecutor :=
  {| ContainerCreate := ContainerCreate de; ContainerStart := ContainerStart de;
     ContainerWait := ContainerWait de; ContainerLogs := ContainerLogs de;
     ContainerRemove := rm; NowStarted := NowStarted de;
     NowFinished := NowFinished de |}.

Definition isRemove (c : call) : bool :=
  match c with CallRemove _ _ => true | _ => false end.

Definition isWrite (e : event) : bool :=
  match e with EvWrite _ _ => true | _ => false end.

(** The events of goroutine [g] in a trace, in order. *)
Definition inner (g : gid) (e : event) : option event :=
  match e with
  | EvGo g' e' => if decide (g' = g) then Some e' else None
  | _ => None
  end.

Definition by_goroutine (g : gid) (tr : list event) : list event :=
  omap (inner g) tr.

Definition goroutineOf (e : event) : option gid :=
  match e with EvGo g _ => Some g | _ => None end.

(** The traces of the goroutines of a group, each event marked with its
    goroutine. *)
Definition tagged (tag : nat → gid) (children : list (list event))
    : list (list event) :=
  imap (λ j t, EvGo (tag j) <$> t) children.


(** The names under which a walk creates runtime units, in trace order. *)
Fixpoint createdName (e : event) : option string :=
  match e with
  | EvCall (CallCreate name _ _) => Some name
  | EvGo _ e => createdName e
  | _ => None
  end.

(** The nodes for which a walk enters [executeTemplate], in trace order. *)
Fixpoint enteredNode (e : event) : option string :=
  match e with
  | EvExec nodeName _ => Some nodeName
  | EvGo _ e => enteredNode e
  | _ => None
  end.

(** ** Sample runs *)

Module Sample.

Definition NodeID (wf : Workflow) (nodeName : string) : string :=
  wfName wf +:+ "/" +:+ nodeName.

(** A daemon that creates and starts every unit, whose waits end as [wait]
    says, and that fails to remove. *)
Definition daemon (wait : string → WaitResult) : DockerExecutor :=
  {| ContainerCreate := λ _ _ name, inl ("id-" +:+ name);
     ContainerStart := λ _, None;
     ContainerWait := wait;
     ContainerLogs := λ _, inl "hello";
     ContainerRemove := λ _ _, Some "removal failed";
     NowStarted := λ _, Some 1%Z;
     NowFinished := λ _, Some 2%Z |}.

Definition echo : Template :=
  {| tName := "echo";
     tContainer := Some {| cImage := "alpine"; cCommand := ["echo"];
                           cArgs := ["hello"]; cWorkingDir := EmptyString;
                           cEnv := [ {| EnvName := "ARGO_NODE_NAME";
                                        EnvValue := "mine" |} ];
                           cVolumeMounts := [] |};
     tScript := None; tSteps := None; tDAG := None |}.

Definition script (Command : list string) : Template :=
  {| tName := "script"; tContainer := None;
     tScript := Some {| sImage := "python"; sCommand := Command;
                        sWorkingDir := EmptyString; sEnv := []; sSource := "print(1)" |};
     tSteps := None; tDAG := None |}.

Definition emptyStatus : WorkflowStatus :=
  {| wsPhase := WorkflowUnknown; wsStartedAt := None; wsFinishedAt := None;
     wsMessage := EmptyString; wsNodes := None |}.

Definition workflow (name entrypoint : string) (templates : list Template)
    : Workflow :=
  {| wfName := name;
     wfSpec := {| Entrypoint := entrypoint; Templates := templates |};
     wfStatus := emptyStatus |}.

Definition single : Workflow := workflow "wf" "echo" [echo].

Definition dagOf (name : string) (tasks : list (string * string)) : Template :=
  {| tName := name; tContainer := None; tScript := None; tSteps := None;
     tDAG := Some {| Tasks :=
       (λ t, {| taskName := t.1; taskTemplate := t.2;
                taskDependencies := [] |}) <$> tasks |} |}.

Definition stepsOf (name : string) (groups : list (list (string * string)))
    : Template :=
  {| tName := name; tContainer := None; tScript := None; tDAG := None;
     tSteps := Some ((λ g, {| Steps :=
       (λ s, {| stepName := s.1; stepTemplate := s.2 |}) <$> g |}) <$> groups) |}.

(** A task graph with a nested task graph: the inner task is the node
    [main.a.b], the second outer task is the node [main.a-b]. *)
Definition nested : Workflow :=
  workflow "wf" "main"
    [ dagOf "main" [("a", "inner"); ("a-b", "echo")];
      dagOf "inner" [("b", "echo")];
      echo ].

Definition inOrder : string → nat → list nat := λ _ _, [].

Definition empty : LocalController :=
  {| workflows := ∅; executions := []; nodeMaps := []; spawned := [] |}.

(** A second document under the name of [single], with another template. *)
Definition single' : Workflow :=
  workflow "wf" "script" [script ["python"]].

(** A document that arrives with a phase already set. *)
Definition finished : Workflow :=
  {| wfName := "done"; wfSpec := wfSpec single;
     wfStatus := set_Phase WorkflowSucceeded emptyStatus |}.

(** A step list of two groups: [a] and [b] side by side, then [c]. *)
Definition twoGroups : list ParallelSteps :=
  [ {| Steps := [ {| stepName := "a"; stepTemplate := "echo" |};
                  {| stepName := "b"; stepTemplate := "script" |} ] |};
    {| Steps := [ {| stepName := "c"; stepTemplate := "echo" |} ] |} ].

Definition staged : Workflow :=
  workflow "wf" "main"
    [ {| tName := "main"; tContainer := None; tScript := None;
         tSteps := Some twoGroups; tDAG := None |};
      echo; script ["python"] ].



(** The unit of the script ends with exit code 2, every other unit with
    exit code 0. *)
Definition scriptFails : string → WaitResult :=
  λ ID, if bool_decide (ID = "id-argo-wf-main[0]-b")
        then WaitStatus 2
        else if bool_decide (ID = "id-argo-wf-main-x")
             then WaitStatus 2 else WaitStatus 0.

(** A scheduler that alternates between the first two goroutines. *)
Definition alternate : string → nat → list nat :=
  λ _ _, [0; 1; 0; 1; 1; 0; 1; 0; 0; 1].

(** The rank of the templates of [staged] and of [graph]: the composite
    [main] above the units of work. *)
Definition rank : string → nat := λ name, if bool_decide (name = "main") then 1 else 0.

(** A scheduler that gives the first goroutine of a group eight steps before
    any other. *)
Definition firstFirst : string → nat → list nat := λ _ _, replicate 8 0.

Definition helloStatus : NodeStatus :=
  {| nID := "wf/echo"; nName := "echo"; nDisplayName := "echo";
     nType := NodeTypePod; nPhase := NodeSucceeded; nStartedAt := Some 1%Z;
     nFinishedAt := Some 2%Z; nMessage := EmptyString; nOutputs := None;
     nHostNodeName := "argo-wf-echo" |}.

End Sample.

(** ** The HTTP server *)

(** A request as the handlers read it: the method, the path of the URL,
    and what [io.ReadAll] makes of the body. *)
Record Request := {
  reqMethod : string;
  reqPath : string;
  reqBody : string + error }.

(** What a handler writes: the text of [http.Error], or the value handed
    to the JSON encoder (the list under ["items"], one workflow or null,
    the health report). The encoder is taken to succeed: the branches that
    log its failure (and, for the two reads, answer 500
    ["Internal server error"]) are left out. *)
Inductive Payload :=
  | Text (msg : string)
  | Items (workflows : list Workflow)
  | Item (workflow : option Workflow)
  | Healthy.

Record Response := { respCode : nat; respBody : Payload }.

Definition httpError (msg : string) (code : nat) : Response :=
  {| respCode := code; respBody := Text msg |}.

(** A workflow document as the decoder fills it in: the value, and the node
    map that comes with it, if any (the pointer in the value is set when
    the map enters the store). *)
Record Document := {
  docWorkflow : Workflow;
  docNodes : option (gmap string NodeStatus) }.

(** [var workflow wfv1.Workflow]. *)
Definition zeroDocument : Document :=
  {| docWorkflow :=
       {| wfName := EmptyString;
          wfSpec := {| Entrypoint := EmptyString; Templates := [] |};
          wfStatus := {| wsPhase := WorkflowUnknown; wsStartedAt := None;
                         wsFinishedAt := None; wsMessage := EmptyString;
                         wsNodes := None |} |};
     docNodes := None |}.

(** [s[n:]]; [None] is the panic of a slice out of range. *)
Fixpoint sliceFrom (n : nat) (s : string) : option string :=
  match n, s with
  | O, _ => Some s
  | S n, String _ s => sliceFrom n s
  | S _, EmptyString => None
  end.

Definition detailPrefix : string := "/api/v1/workflows/".

(** The document's node map becomes a map of the store, and the value
    points to it. *)
Definition storeDocument (lc : LocalController) (doc : Document)
    : LocalController * Workflow :=
  let wf := docWorkflow doc in
  match docNodes doc with
  | None =>
      (lc, {| wfName := wfName wf; wfSpec := wfSpec wf;
              wfStatus := set_Nodes None (wfStatus wf) |})
  | Some nodes =>
      ({| workflows := workflows lc; executions := executions lc;
          nodeMaps := nodeMaps lc ++ [nodes]; spawned := spawned lc |},
       {| wfName := wfName wf; wfSpec := wfSpec wf;
          wfStatus := set_Nodes (Some (length (nodeMaps lc))) (wfStatus wf) |})
  end.

Section Server.

(** [json.Unmarshal] and [yaml.Unmarshal] into the document at hand: the
    document as they leave it, and the error. *)
Variable jsonUnmarshal : string → Document → Document * option error.
Variable yamlUnmarshal : string → Document → Document * option error.

(** The walks started with [go] run beside the handlers. [meanwhile] is
    what they have done to the store between the return of
    [SubmitWorkflow] and the moment the handler hands its answer to the
    encoder. *)
Variable meanwhile : LocalController → LocalController.

Definition listWorkflows (lc : LocalController) : LocalController * Response :=
  let '(lc, workflows) := ListWorkflows lc in
  (lc, {| respCode := 200; respBody := Items workflows |}).

Definition getWorkflow (lc : LocalController) (name : string)
    : LocalController * Response :=
  let '(lc, (workflow, err)) := GetWorkflow lc name in
  match err with
  | Some err => (lc, httpError err 404)
  | None => (lc, {| respCode := 200; respBody := Item workflow |})
  end.

(** [submitWorkflow]; [now] is the reading of the clock in
    [SubmitWorkflow]. [workflow.Name] is the promoted
    [workflow.ObjectMeta.Name], so when the name is empty the inner test of
    [ObjectMeta.Name] cannot succeed and the request is refused. The
    variable [workflow] is the very object that [SubmitWorkflow] registers
    and whose walk it starts: the answer is that object as the encoder
    finds it, after the started walks have done what [meanwhile] says. *)
Definition submitWorkflow (now : Time) (lc : LocalController) (r : Request)
    : LocalController * Response :=
  match reqBody r with
  | inr _ => (lc, httpError "Failed to read request body" 400)
  | inl body =>
      let '(workflow, err) := jsonUnmarshal body zeroDocument in
      let '(workflow, err) :=
        match err with
        | None => (workflow, None)
        | Some _ => yamlUnmarshal body workflow
        end in
      match err with
      | Some err => (lc, httpError ("Failed to parse workflow: " +:+ err) 400)
      | None =>
          if bool_decide (wfName (docWorkflow workflow) = EmptyString)
          then (lc, httpError "Workflow name is required" 400)
          else if bool_decide
                    (Entrypoint (wfSpec (docWorkflow workflow)) = EmptyString)
          then (lc, httpError "Workflow entrypoint is required" 400)
          else
            let '(lc', wf) := storeDocument lc workflow in
            let wfExec := length (executions lc') in
            let '(lc', err) := SubmitWorkflow now lc' wf in
            match err with
            | Some err =>
                (lc', httpError ("Failed to submit workflow: " +:+ err) 500)
            | None =>
                let lc' := meanwhile lc' in
                (lc', {| respCode := 201;
                         respBody :=
                           Item (weWorkflow <$> executions lc' !! wfExec) |})
            end
      end
  end.

Definition handleWorkflows (now : Time) (lc : LocalController) (r : Request)
    : LocalController * Response :=
  if bool_decide (reqMethod r = "GET") then listWorkflows lc
  else if bool_decide (reqMethod r = "POST") then submitWorkflow now lc r
  else (lc, httpError "Method not allowed" 405).

Definition handleWorkflowDetail (lc : LocalController) (r : Request)
    : outcome (LocalController * Response) :=
  match sliceFrom (String.length detailPrefix) (reqPath r) with
  | None => Panic "runtime error: slice bounds out of range"
  | Some name =>
      if bool_decide (name = EmptyString)
      then Return (lc, httpError "Workflow name required" 400)
      else if bool_decide (reqMethod r = "GET")
      then Return (getWorkflow lc name)
      else Return (lc, httpError "Method not allowed" 405)
  end.

Definition handleHealth (lc : LocalController) (r : Request)
    : LocalController * Response :=
  (lc, {| respCode := 200; respBody := Healthy |}).

(** The document that the two decoders leave, JSON first and YAML when
    JSON fails, and the error of the second when both fail. *)
Definition decoded (body : string) : Document * option error :=
  match jsonUnmarshal body zeroDocument with
  | (doc, None) => (doc, None)
  | (doc, Some _) => yamlUnmarshal body doc
  end.

End Server.

(** ** Further notions used in the statements *)

(** The same environment with other answers to [ContainerLogs]. *)
Definition withLogs (de : DockerExecutor) (lg : string → string + error)
    : DockerExecutor :=
  {| ContainerCreate := ContainerCreate de; ContainerStart := ContainerStart de;
     ContainerWait := ContainerWait de; ContainerLogs := lg;
     ContainerRemove := ContainerRemove de; NowStarted := NowStarted de;
     NowFinished := NowFinished de |}.

(** A result of the adapter with the captured output left out. *)
Definition withoutOutputs (o : outcome (option NodeStatus * option error))
    : outcome (option NodeStatus * option error) :=
  match o with
  | Return (ns, err) => Return ((λ ns, with_Outputs ns None) <$> ns, err)
  | _ => o
  end.

(** The five calls of a unit that runs to an exit code. *)
Definition unitCalls (name : string) (cfg : ContainerConfig) (host : HostConfig)
    (ID : string) : list call :=
  [ CallCreate name cfg host; CallStart ID; CallWait ID; CallLogs ID;
    CallRemove ID true ].

(** What every status the adapter returns for a node has in common. *)
Definition statusOfNode (NodeID : Workflow → string → string) (wf : Workflow)
    (nodeName : string) (ns : NodeStatus) : Prop :=
  nID ns = NodeID wf nodeName ∧ nName ns = nodeName
  ∧ nDisplayName ns = nodeName ∧ nType ns = NodeTypePod
  ∧ nHostNodeName ns = containerNameOf wf nodeName.

(** The writes of a walk, each as the pair of key and status. *)
Fixpoint writeOf (e : event) : option (string * NodeStatus) :=
  match e with
  | EvWrite ID ns => Some (ID, ns)
  | EvGo _ e => writeOf e
  | _ => None
  end.

(** The calls of a walk on the Docker client. *)
Fixpoint callOf (e : event) : option call :=
  match e with
  | EvCall c => Some c
  | EvGo _ e => callOf e
  | _ => None
  end.

(** What every call of a walk on the Docker client has in common: a unit is
    created under the name of a node of the run, with the identifiers of
    the run, of that node and of a template in front of its environment,
    both output streams attached, no terminal, and not removed by the daemon
    on exit; and every removal is forced. *)
Definition unitCall (wf : Workflow) (c : call) : Prop :=
  match c with
  | CallCreate name cfg host =>
      ∃ n tmpl, name = containerNameOf wf n
        ∧ take 3 (Env cfg) = injectedEnv tmpl wf n
        ∧ AutoRemove host = false
        ∧ AttachStdout cfg = true ∧ AttachStderr cfg = true ∧ Tty cfg = false
  | CallRemove _ force => force = true
  | _ => True
  end.

(** The node name that [executeStepsTemplate] gives step [s] of group [i]
    under [nodeName], and the one that [executeDAGTemplate] gives task
    [t]. *)
Definition stepNodeName (nodeName : string) (i : nat) (s : WorkflowStep)
    : string :=
  nodeName +:+ "[" +:+ pretty i +:+ "]." +:+ stepName s.

Definition taskNodeName (nodeName : string) (t : DAGTask) : string :=
  nodeName +:+ "." +:+ taskName t.




(** A node map after a sequence of writes, the later write to a key
    replacing the earlier. *)
Definition applyWrites (ws : list (string * NodeStatus))
    (m : gmap string NodeStatus) : gmap string NodeStatus :=
  foldl (λ m (w : string * NodeStatus), <[w.1 := w.2]> m) m ws.

(** The store with the map at [r] changed by [f]. *)
Definition alterNodes (lc : LocalController) (r : nat)
    (f : gmap string NodeStatus → gmap string NodeStatus) : LocalController :=
  {| workflows := workflows lc; executions := executions lc;
     nodeMaps := alter f r (nodeMaps lc); spawned := spawned lc |}.

(** What walks may have done to a store: they write the phase, the finish
    time, the message and the nodes of runs, and node maps; the registry,
    the walks to start, and the name, the templates and the start time of
    every run stay as they are. *)
Definition walked (lc lc' : LocalController) : Prop :=
  workflows lc' = workflows lc
  ∧ spawned lc' = spawned lc
  ∧ length (executions lc') = length (executions lc)
  ∧ ∀ p wfExec, executions lc !! p = Some wfExec →
      ∃ wfExec', executions lc' !! p = Some wfExec'
        ∧ wfName (weWorkflow wfExec') = wfName (weWorkflow wfExec)
        ∧ wfSpec (weWorkflow wfExec') = wfSpec (weWorkflow wfExec)
        ∧ wsStartedAt (wfStatus (weWorkflow wfExec'))
          = wsStartedAt (wfStatus (weWorkflow wfExec)).

(** Every run is filed under its own name, and every pointer of the
    registry and of the started walks leads to a run. *)
Definition registryOk (lc : LocalController) : Prop :=
  (∀ name p, workflows lc !! name = Some p →
     ∃ wfExec, executions lc !! p = Some wfExec
       ∧ wfName (weWorkflow wfExec) = name)
  ∧ (∀ p, p ∈ spawned lc → p < length (executions lc)).

(** Every node map of a run is a map of the store, and no two runs share
    one. *)
Definition nodeMapsOk (lc : LocalController) : Prop :=
  (∀ p st r, statusOf lc p = Some st → wsNodes st = Some r →
     r < length (nodeMaps lc))
  ∧ (∀ p q st st' r, statusOf lc p = Some st → statusOf lc q = Some st' →
       wsNodes st = Some r → wsNodes st' = Some r → p = q).

(** Every node status of every map is filed under its own identifier. *)
Definition keyedById (lc : LocalController) : Prop :=
  ∀ r m ID ns, nodeMaps lc !! r = Some m → m !! ID = Some ns → nID ns = ID.

Module Demo.


(** A step list that, in its first group, refers to itself. *)
Definition loop : Workflow :=
  Sample.workflow "wf" "main"
    [ Sample.stepsOf "main" [[("again", "main")]] ].

(** A decoder of JSON that knows one document. *)
Definition decode (body : string) (doc : Document) : Document * option error :=
  if bool_decide (body = "single")
  then ({| docWorkflow := Sample.single; docNodes := None |}, None)
  else (doc, Some "invalid character").

(** The walk of the first run is over when the answer is encoded: every
    unit has ended with the exit code 0. *)
Definition walkOver (lc : LocalController) : LocalController :=
  (executeWorkflow Sample.NodeID (Sample.daemon (λ _, WaitStatus 0))
     Sample.inOrder 1 (Some 3%Z) lc 0).1.

Definition post (body : string) : Request :=
  {| reqMethod := "POST"; reqPath := "/api/v1/workflows"; reqBody := inl body |}.

Definition get (path : string) : Request :=
  {| reqMethod := "GET"; reqPath := path; reqBody := inl EmptyString |}.

End Demo.

(** * Theorems *)

(** ** The adapter *)

Section AdapterFacts.

Variable NodeID : Workflow → string → string.
Variable de : DockerExecutor.

Lemma appendEnv_app (envVars : list string) (envs : list EnvVar) :
  appendEnv envVars envs = envVars ++ (fmtEnv <$> envs).
Proof.
  revert envVars. induction envs as [|env envs IH]; intros envVars; simpl.
  - by rewrite app_nil_r.
  - unfold appendEnv in *. simpl. rewrite IH. by rewrite <- app_assoc.
Qed.

Lemma buildEnvVars_app (tmpl : Template) (wf : Workflow) (nodeName : string) :
  buildEnvVars tmpl wf nodeName
  = injectedEnv tmpl wf nodeName ++ (fmtEnv <$> declaredEnv tmpl).
Proof.
  unfold buildEnvVars, declaredEnv, injectedEnv.
  destruct (tContainer tmpl) as [c|], (tScript tmpl) as [s|]; simpl;
    rewrite ?appendEnv_app, ?fmap_app, ?app_nil_r; simpl;
    by rewrite <- ?app_assoc.
Qed.

End AdapterFacts.

(** C8. The environment of a unit of work is the three injected identifiers
    (run name, node name, template name) followed by the variables the
    template declares, in document order. Whatever the template declares,
    also under the name of an injected identifier, the first three entries
    are the injected ones with their values, and every declared variable is
    a further entry behind them: none replaces an injected entry. *)
Theorem buildEnvVars_injected_then_declared
    (tmpl : Template) (wf : Workflow) (nodeName : string) :
  buildEnvVars tmpl wf nodeName
    = [ "ARGO_WORKFLOW_NAME=" +:+ wfName wf;
        "ARGO_NODE_NAME=" +:+ nodeName;
        "ARGO_TEMPLATE_NAME=" +:+ tName tmpl ]
      ++ ((λ env, EnvName env +:+ "=" +:+ EnvValue env) <$> declaredEnv tmpl)
  ∧ take 3 (buildEnvVars tmpl wf nodeName) = injectedEnv tmpl wf nodeName
  ∧ length (buildEnvVars tmpl wf nodeName) = 3 + length (declaredEnv tmpl)
  ∧ ∀ i env, declaredEnv tmpl !! i = Some env →
      buildEnvVars tmpl wf nodeName !! (3 + i)
        = Some (EnvName env +:+ "=" +:+ EnvValue env).
Proof.
  rewrite buildEnvVars_app. split_and!.
  - done.
  - done.
  - rewrite length_app, length_fmap. done.
  - intros i env Hi. rewrite lookup_app_r by (simpl; lia).
    replace (3 + i - length (injectedEnv tmpl wf nodeName)) with i
      by (simpl; lia).
    by rewrite list_lookup_fmap, Hi.
Qed.

(** *** Names of runtime units *)

Lemma append_cons (a : ascii) (s1 s2 : string) :
  String a s1 +:+ s2 = String a (s1 +:+ s2).
Proof. reflexivity. Qed.

Lemma ReplaceAll_app (s1 s2 : string) (old new : ascii) :
  ReplaceAll (s1 +:+ s2) old new = ReplaceAll s1 old new +:+ ReplaceAll s2 old new.
Proof.
  induction s1 as [|a s1 IH]; [done|].
  rewrite append_cons. simpl. by rewrite IH, append_cons.
Qed.

Lemma occurs_app (c : ascii) (s1 s2 : string) :
  occurs c (s1 +:+ s2) = occurs c s1 || occurs c s2.
Proof.
  induction s1 as [|a s1 IH]; [done|].
  rewrite append_cons. simpl. by rewrite IH, orb_assoc.
Qed.

Lemma occurs_ReplaceAll (s : string) (old new : ascii) :
  old ≠ new → occurs old (ReplaceAll s old new) = false.
Proof.
  intros Hne. induction s as [|a s IH]; [done|]. simpl.
  rewrite IH, orb_false_r. destruct (Ascii.eqb a old) eqn:Ha.
  - apply Ascii.eqb_neq. congruence.
  - done.
Qed.

Lemma containerNameOf_eq (wf : Workflow) (nodeName : string) :
  containerNameOf wf nodeName
  = "argo-" +:+ ReplaceAll (wfName wf) "." "-" +:+ "-"
    +:+ ReplaceAll nodeName "." "-".
Proof. unfold containerNameOf. by rewrite !ReplaceAll_app. Qed.

(** What the name of a unit is: [argo-<runName>-<nodeName>] in which every
    dot is replaced by a dash, a function of the run name and the node name
    alone; the name holds no dot; two nodes of a run get the same name
    exactly when their node names agree once dots are replaced by dashes;
    and both [ExecuteContainer] and [ExecuteScript] create their unit under
    this name. *)
Lemma containerName_dots_replaced
    (NodeID : Workflow → string → string) (de : DockerExecutor)
    (wf : Workflow) (nodeName : string) :
  containerNameOf wf nodeName
    = "argo-" +:+ ReplaceAll (wfName wf) "." "-" +:+ "-"
      +:+ ReplaceAll nodeName "." "-"
  ∧ occurs "." (containerNameOf wf nodeName) = false
  ∧ (∀ nodeName', containerNameOf wf nodeName = containerNameOf wf nodeName'
       ↔ ReplaceAll nodeName "." "-" = ReplaceAll nodeName' "." "-")
  ∧ (∀ tmpl c, tContainer tmpl = Some c →
       head (ExecuteContainer NodeID de nodeName tmpl wf).1
       = Some (CallCreate (containerNameOf wf nodeName)
                 (containerConfigOf tmpl c wf nodeName) (hostConfigOf c wf)))
  ∧ (∀ tmpl s Command0, tScript tmpl = Some s →
       sCommand s !! 0 = Some Command0 →
       head (ExecuteScript NodeID de nodeName tmpl wf).1
       = Some (CallCreate (containerNameOf wf nodeName)
                 (scriptConfigOf tmpl s wf nodeName Command0) scriptHostConfig)).
Proof.
  split_and!.
  - apply containerNameOf_eq.
  - unfold containerNameOf. by apply occurs_ReplaceAll.
  - intros nodeName'. rewrite !containerNameOf_eq. split.
    + intros H. by repeat apply (inj (String.app _)) in H.
    + by intros ->.
  - intros tmpl c Hc. unfold ExecuteContainer. rewrite Hc.
    by destruct (ContainerCreate de _ _ _).
  - intros tmpl s Command0 Hs H0. unfold ExecuteScript. rewrite Hs, H0.
    by destruct (ContainerCreate de _ _ _).
Qed.

(** Two distinct nodes of one run (the inner task [main.a.b] and the outer
    task [main.a-b] of a nested task graph) are created under one name, and
    the brackets of a step's node name are kept. *)
Lemma containerName_collision :
  "main.a.b" ≠ "main.a-b"
  ∧ containerNameOf Sample.nested "main.a.b"
    = containerNameOf Sample.nested "main.a-b"
  ∧ (let run := executeTemplate Sample.NodeID
                  (Sample.daemon (λ _, WaitStatus 0)) Sample.inOrder 3
                  Sample.nested "main" (Sample.dagOf "main"
                     [("a", "inner"); ("a-b", "echo")]) in
     omap enteredNode run.1 = ["main"; "main.a"; "main.a.b"; "main.a-b"]
     ∧ omap createdName run.1 = ["argo-wf-main-a-b"; "argo-wf-main-a-b"])
  ∧ containerNameOf Sample.single "main[0].hello" = "argo-wf-main[0]-hello".
Proof.
  split; [discriminate|]. split; [reflexivity|]. split; [|reflexivity].
  cbv zeta. split; vm_compute; reflexivity.
Qed.

Lemma occurs_ReplaceAll_other (c old new : ascii) (s : string) :
  c ≠ old → c ≠ new → occurs c (ReplaceAll s old new) = occurs c s.
Proof.
  intros Hold Hnew. induction s as [|a s IH]; [done|]. simpl. rewrite IH.
  destruct (Ascii.eqb a old) eqn:Ha; [|done].
  apply Ascii.eqb_eq in Ha as ->.
  assert (Ascii.eqb new c = false) as -> by (apply Ascii.eqb_neq; congruence).
  assert (Ascii.eqb old c = false) as -> by (apply Ascii.eqb_neq; congruence).
  done.
Qed.

(** C9, at the failing input. The name of a unit is made safe for Docker by
    replacing dots only. The orchestrator gives every step of a step list
    the node name [<parent>[<group>].<step>], so the unit of every step
    that is a container is created under a name that still holds the
    brackets [[] and []], which Docker's naming rules do not allow. *)
Theorem containerName_keeps_brackets
    (NodeID : Workflow → string → string) (de : DockerExecutor)
    (sched : string → nat → list nat) (wf : Workflow) (nodeName : string)
    (i : nat) (s : WorkflowStep) (tmpl : Template) (c : Container) :
  findTemplate wf (stepTemplate s) = Some tmpl →
  tContainer tmpl = Some c →
  let stepNodeName := nodeName +:+ "[" +:+ pretty i +:+ "]." +:+ stepName s in
  head (omap callOf
          (stepBody (executeTemplate NodeID de sched 1 wf) wf nodeName i s).1)
  = Some (CallCreate (containerNameOf wf stepNodeName)
            (containerConfigOf tmpl c wf stepNodeName) (hostConfigOf c wf))
  ∧ occurs "[" (containerNameOf wf stepNodeName) = true
  ∧ occurs "]" (containerNameOf wf stepNodeName) = true.
Proof.
  intros Hfind Hc. cbv zeta. split_and!.
  - unfold stepBody. rewrite Hfind. cbn [executeTemplate]. rewrite Hc.
    assert (head (ExecuteContainer NodeID de
                    (nodeName +:+ "[" +:+ pretty i +:+ "]." +:+ stepName s)
                    tmpl wf).1
            = Some (CallCreate
                      (containerNameOf wf
                         (nodeName +:+ "[" +:+ pretty i +:+ "]." +:+ stepName s))
                      (containerConfigOf tmpl c wf
                         (nodeName +:+ "[" +:+ pretty i +:+ "]." +:+ stepName s))
                      (hostConfigOf c wf))) as Hhead.
    { unfold ExecuteContainer. rewrite Hc.
      by destruct (ContainerCreate de _ _ _). }
    unfold executeContainerTemplate, liftCalls, mbind, Exec_bind.
    destruct (ExecuteContainer NodeID de _ tmpl wf) as [[|c0 calls] res];
      [done|]. cbn in Hhead. injection Hhead as ->.
    by destruct res as [[? ?]|?| |].
  - unfold containerNameOf. rewrite occurs_ReplaceAll_other by done.
    rewrite !occurs_app. cbn. by rewrite !orb_true_r.
  - unfold containerNameOf. rewrite occurs_ReplaceAll_other by done.
    rewrite !occurs_app. cbn. by rewrite !orb_true_r.
Qed.

(** Step [a] of the first group of the sample step list: its unit is
    created under [argo-wf-main[0]-a]. *)
Lemma containerName_keeps_brackets_witness :
  (omap callOf
       (stepBody
          (executeTemplate Sample.NodeID (Sample.daemon (λ _, WaitStatus 0))
             Sample.inOrder 1 Sample.staged)
          Sample.staged "main" 0
          {| stepName := "a"; stepTemplate := "echo" |}).1) !! 0
    = Some (CallCreate "argo-wf-main[0]-a"
              (containerConfigOf Sample.echo
                 {| cImage := "alpine"; cCommand := ["echo"];
                    cArgs := ["hello"]; cWorkingDir := EmptyString;
                    cEnv := [ {| EnvName := "ARGO_NODE_NAME";
                                 EnvValue := "mine" |} ];
                    cVolumeMounts := [] |} Sample.staged "main[0].a")
              (hostConfigOf
                 {| cImage := "alpine"; cCommand := ["echo"];
                    cArgs := ["hello"]; cWorkingDir := EmptyString;
                    cEnv := [ {| EnvName := "ARGO_NODE_NAME";
                                 EnvValue := "mine" |} ];
                    cVolumeMounts := [] |} Sample.staged))
  ∧ occurs "[" "argo-wf-main[0]-a" = true
  ∧ occurs "]" "argo-wf-main[0]-a" = true.
Proof.
  destruct (containerName_keeps_brackets Sample.NodeID
              (Sample.daemon (λ _, WaitStatus 0)) Sample.inOrder Sample.staged
              "main" 0 {| stepName := "a"; stepTemplate := "echo" |}
              Sample.echo
              {| cImage := "alpine"; cCommand := ["echo"]; cArgs := ["hello"];
                 cWorkingDir := EmptyString;
                 cEnv := [ {| EnvName := "ARGO_NODE_NAME"; EnvValue := "mine" |} ];
                 cVolumeMounts := [] |} eq_refl eq_refl)
    as (Hcreate & Hopen & Hclose).
  split; [|split; [exact Hopen|exact Hclose]].
  rewrite <- head_lookup. exact Hcreate.
Defined.

(** *** Result mapping and cleanup *)

Section AdapterRuns.

Variable NodeID : Workflow → string → string.
Variable de : DockerExecutor.
Variables (nodeName : string) (tmpl : Template) (wf : Workflow).

(** The status with which a unit that ended with [code] is reported. *)
Lemma ExecuteContainer_exited (c : Container) (ID : string) (code : Z) :
  tContainer tmpl = Some c →
  ContainerCreate de (containerConfigOf tmpl c wf nodeName) (hostConfigOf c wf)
    (containerNameOf wf nodeName) = inl ID →
  ContainerStart de ID = None →
  ContainerWait de ID = WaitStatus code →
  ∃ ns, ExecuteContainer NodeID de nodeName tmpl wf
        = ([ CallCreate (containerNameOf wf nodeName)
               (containerConfigOf tmpl c wf nodeName) (hostConfigOf c wf);
             CallStart ID; CallWait ID; CallLogs ID; CallRemove ID true ],
           Return (Some ns, None))
    ∧ nPhase ns = (if bool_decide (code = 0%Z) then NodeSucceeded else NodeFailed)
    ∧ nMessage ns = (if bool_decide (code = 0%Z) then EmptyString
                     else "container exited with code " +:+ pretty code).
Proof.
  intros Hc Hcreate Hstart Hwait. unfold ExecuteContainer.
  rewrite Hc. cbn. rewrite Hcreate. cbn. rewrite Hstart. cbn.
  rewrite Hwait. cbn. eexists. split; [reflexivity|].
  destruct (ContainerLogs de ID); case_bool_decide; done.
Qed.

Lemma ExecuteScript_exited (s : ScriptTemplate) (Command0 ID : string) (code : Z) :
  tScript tmpl = Some s →
  sCommand s !! 0 = Some Command0 →
  ContainerCreate de (scriptConfigOf tmpl s wf nodeName Command0) scriptHostConfig
    (containerNameOf wf nodeName) = inl ID →
  ContainerStart de ID = None →
  ContainerWait de ID = WaitStatus code →
  ∃ ns, ExecuteScript NodeID de nodeName tmpl wf
        = ([ CallCreate (containerNameOf wf nodeName)
               (scriptConfigOf tmpl s wf nodeName Command0) scriptHostConfig;
             CallStart ID; CallWait ID; CallLogs ID; CallRemove ID true ],
           Return (Some ns, None))
    ∧ nPhase ns = (if bool_decide (code = 0%Z) then NodeSucceeded else NodeFailed)
    ∧ nMessage ns = (if bool_decide (code = 0%Z) then EmptyString
                     else "script exited with code " +:+ pretty code).
Proof.
  intros Hs H0 Hcreate Hstart Hwait. unfold ExecuteScript.
  rewrite Hs, H0. cbn. rewrite Hcreate. cbn. rewrite Hstart. cbn.
  rewrite Hwait. cbn. eexists. split; [reflexivity|].
  destruct (ContainerLogs de ID); case_bool_decide; done.
Qed.

(** What the adapter does when the wait itself fails. *)
Lemma ExecuteContainer_wait_failed (c : Container) (ID : string) (err : error) :
  tContainer tmpl = Some c →
  ContainerCreate de (containerConfigOf tmpl c wf nodeName) (hostConfigOf c wf)
    (containerNameOf wf nodeName) = inl ID →
  ContainerStart de ID = None →
  ContainerWait de ID = WaitErr (Some err) →
  ExecuteContainer NodeID de nodeName tmpl wf
  = ([ CallCreate (containerNameOf wf nodeName)
         (containerConfigOf tmpl c wf nodeName) (hostConfigOf c wf);
       CallStart ID; CallWait ID ],
     Return (Some (with_result
                     (initialNodeStatus NodeID wf nodeName
                        (containerNameOf wf nodeName) (NowStarted de ID))
                     NodeError err),
             Some err)).
Proof.
  intros Hc Hcreate Hstart Hwait. unfold ExecuteContainer.
  rewrite Hc. cbn. rewrite Hcreate. cbn. rewrite Hstart. cbn.
  by rewrite Hwait.
Qed.

Lemma ExecuteScript_wait_failed (s : ScriptTemplate) (Command0 ID : string)
    (err : error) :
  tScript tmpl = Some s →
  sCommand s !! 0 = Some Command0 →
  ContainerCreate de (scriptConfigOf tmpl s wf nodeName Command0) scriptHostConfig
    (containerNameOf wf nodeName) = inl ID →
  ContainerStart de ID = None →
  ContainerWait de ID = WaitErr (Some err) →
  ExecuteScript NodeID de nodeName tmpl wf
  = ([ CallCreate (containerNameOf wf nodeName)
         (scriptConfigOf tmpl s wf nodeName Command0) scriptHostConfig;
       CallStart ID; CallWait ID ],
     Return (Some (with_result
                     (initialNodeStatus NodeID wf nodeName
                        (containerNameOf wf nodeName) (NowStarted de ID))
                     NodeError err),
             Some err)).
Proof.
  intros Hs H0 Hcreate Hstart Hwait. unfold ExecuteScript.
  rewrite Hs, H0. cbn. rewrite Hcreate. cbn. rewrite Hstart. cbn.
  by rewrite Hwait.
Qed.

(** The answer to [ContainerRemove] is only logged: neither the returned
    status nor the returned error depends on it. *)
Lemma ExecuteContainer_removal_ignored (rm : string → bool → option error) :
  ExecuteContainer NodeID (withRemove de rm) nodeName tmpl wf
  = ExecuteContainer NodeID de nodeName tmpl wf.
Proof.
  unfold ExecuteContainer. destruct (tContainer tmpl) as [c|]; [|done].
  cbn. destruct (ContainerCreate de _ _ _) as [ID|]; [|done].
  cbn. destruct (ContainerStart de ID); [done|].
  cbn. by destruct (ContainerWait de ID) as [[]| |].
Qed.

Lemma ExecuteScript_removal_ignored (rm : string → bool → option error) :
  ExecuteScript NodeID (withRemove de rm) nodeName tmpl wf
  = ExecuteScript NodeID de nodeName tmpl wf.
Proof.
  unfold ExecuteScript. destruct (tScript tmpl) as [s|]; [|done].
  destruct (sCommand s !! 0) as [Command0|]; [|done].
  cbn. destruct (ContainerCreate de _ _ _) as [ID|]; [|done].
  cbn. destruct (ContainerStart de ID); [done|].
  cbn. by destruct (ContainerWait de ID) as [[]| |].
Qed.



End AdapterRuns.

(** C5, as amended. A unit of work that ends with exit code 0 is reported
    with phase Succeeded and no message; one that ends with a code [N] other
    than 0 is reported with phase Failed and the message
    ["container exited with code <N>"] when it is a container and
    ["script exited with code <N>"] when it is a script. *)
Theorem exit_code_result_mapping
    (NodeID : Workflow → string → string) (de : DockerExecutor)
    (nodeName : string) (tmpl : Template) (wf : Workflow)
    (ID : string) (code : Z) :
  ContainerStart de ID = None →
  ContainerWait de ID = WaitStatus code →
  (∀ c, tContainer tmpl = Some c →
     ContainerCreate de (containerConfigOf tmpl c wf nodeName) (hostConfigOf c wf)
       (containerNameOf wf nodeName) = inl ID →
     ∃ ns, (ExecuteContainer NodeID de nodeName tmpl wf).2 = Return (Some ns, None)
       ∧ (code = 0%Z → nPhase ns = NodeSucceeded ∧ nMessage ns = EmptyString)
       ∧ (code ≠ 0%Z → nPhase ns = NodeFailed
            ∧ nMessage ns = "container exited with code " +:+ pretty code))
  ∧ (∀ s Command0, tScript tmpl = Some s →
     sCommand s !! 0 = Some Command0 →
     ContainerCreate de (scriptConfigOf tmpl s wf nodeName Command0)
       scriptHostConfig (containerNameOf wf nodeName) = inl ID →
     ∃ ns, (ExecuteScript NodeID de nodeName tmpl wf).2 = Return (Some ns, None)
       ∧ (code = 0%Z → nPhase ns = NodeSucceeded ∧ nMessage ns = EmptyString)
       ∧ (code ≠ 0%Z → nPhase ns = NodeFailed
            ∧ nMessage ns = "script exited with code " +:+ pretty code)).
Proof.
  intros Hstart Hwait. split.
  - intros c Hc Hcreate.
    destruct (ExecuteContainer_exited NodeID de nodeName tmpl wf c ID code)
      as (ns & -> & Hph & Hmsg); [done..|].
    exists ns. rewrite Hph, Hmsg.
    split_and!; [done | intros ->; done | intros Hne; by case_bool_decide].
  - intros s Command0 Hs H0 Hcreate.
    destruct (ExecuteScript_exited NodeID de nodeName tmpl wf s Command0 ID code)
      as (ns & -> & Hph & Hmsg); [done..|].
    exists ns. rewrite Hph, Hmsg.
    split_and!; [done | intros ->; done | intros Hne; by case_bool_decide].
Qed.

Lemma exit_code_result_mapping_witness :
  ∃ ns, (ExecuteContainer Sample.NodeID (Sample.daemon (λ _, WaitStatus 3))
           "echo" Sample.echo Sample.single).2 = Return (Some ns, None)
    ∧ nPhase ns = NodeFailed
    ∧ nMessage ns = "container exited with code 3".
Proof.
  destruct (exit_code_result_mapping Sample.NodeID
              (Sample.daemon (λ _, WaitStatus 3)) "echo" Sample.echo
              Sample.single "id-argo-wf-echo" 3 eq_refl eq_refl) as [H _].
  destruct (H _ eq_refl eq_refl) as (ns & Hrun & _ & Hfailed).
  exists ns. split; [exact Hrun|]. apply Hfailed. discriminate.
Defined.

(** C5, as stated, fails: the message of a container that ends with code 1
    is not ["exited with code 1"]. *)
Lemma exit_message_names_the_kind :
  ∃ ns, (ExecuteContainer Sample.NodeID (Sample.daemon (λ _, WaitStatus 1))
           "echo" Sample.echo Sample.single).2 = Return (Some ns, None)
    ∧ nPhase ns = NodeFailed
    ∧ nMessage ns = "container exited with code 1"
    ∧ nMessage ns ≠ "exited with code " +:+ pretty 1%Z.
Proof. eexists. split_and!; [reflexivity | reflexivity | reflexivity | discriminate]. Qed.

(** C3, at the failing input. When the wait fails, the adapter returns
    after the calls create, start and wait: the unit it created is not
    removed. (When the unit ends with an exit code the last call is the
    forced removal, see [ExecuteContainer_exited], and the answer to the
    removal never changes the result, see
    [ExecuteContainer_removal_ignored].) *)
Theorem wait_error_skips_removal
    (NodeID : Workflow → string → string) (de : DockerExecutor)
    (nodeName : string) (tmpl : Template) (wf : Workflow)
    (ID : string) (err : error) :
  ContainerStart de ID = None →
  ContainerWait de ID = WaitErr (Some err) →
  (∀ c, tContainer tmpl = Some c →
     ContainerCreate de (containerConfigOf tmpl c wf nodeName) (hostConfigOf c wf)
       (containerNameOf wf nodeName) = inl ID →
     (ExecuteContainer NodeID de nodeName tmpl wf).1
     = [ CallCreate (containerNameOf wf nodeName)
           (containerConfigOf tmpl c wf nodeName) (hostConfigOf c wf);
         CallStart ID; CallWait ID ]
     ∧ filter isRemove (ExecuteContainer NodeID de nodeName tmpl wf).1 = [])
  ∧ (∀ s Command0, tScript tmpl = Some s →
     sCommand s !! 0 = Some Command0 →
     ContainerCreate de (scriptConfigOf tmpl s wf nodeName Command0)
       scriptHostConfig (containerNameOf wf nodeName) = inl ID →
     (ExecuteScript NodeID de nodeName tmpl wf).1
     = [ CallCreate (containerNameOf wf nodeName)
           (scriptConfigOf tmpl s wf nodeName Command0) scriptHostConfig;
         CallStart ID; CallWait ID ]
     ∧ filter isRemove (ExecuteScript NodeID de nodeName tmpl wf).1 = []).
Proof.
  intros Hstart Hwait. split.
  - intros c Hc Hcreate.
    by rewrite (ExecuteContainer_wait_failed NodeID de nodeName tmpl wf c ID err).
  - intros s Command0 Hs H0 Hcreate.
    by rewrite (ExecuteScript_wait_failed NodeID de nodeName tmpl wf s Command0
                  ID err).
Qed.

Lemma wait_error_skips_removal_witness :
  filter isRemove
    (ExecuteContainer Sample.NodeID
       (Sample.daemon (λ _, WaitErr (Some "connection lost")))
       "echo" Sample.echo Sample.single).1 = [].
Proof.
  destruct (wait_error_skips_removal Sample.NodeID
              (Sample.daemon (λ _, WaitErr (Some "connection lost")))
              "echo" Sample.echo Sample.single "id-argo-wf-echo"
              "connection lost" eq_refl eq_refl) as [H _].
  destruct (H _ eq_refl eq_refl) as [_ Hnone]. exact Hnone.
Defined.

(** C10. A script template with an empty command list makes
    [ExecuteScript] panic with an index out of range, before any call on the
    Docker client; no error is returned. With a non-empty command list it
    never panics: it returns (a status, an error, or both) unless the wait
    blocks for ever. *)
Theorem ExecuteScript_empty_command_panics
    (NodeID : Workflow → string → string) (de : DockerExecutor)
    (nodeName : string) (tmpl : Template) (wf : Workflow) (s : ScriptTemplate) :
  tScript tmpl = Some s →
  (sCommand s = [] →
     ExecuteScript NodeID de nodeName tmpl wf
     = ([], Panic "runtime error: index out of range [0] with length 0"))
  ∧ (sCommand s ≠ [] →
     (∀ msg, (ExecuteScript NodeID de nodeName tmpl wf).2 ≠ Panic msg)
     ∧ (returns (ExecuteScript NodeID de nodeName tmpl wf).2
        ∨ (ExecuteScript NodeID de nodeName tmpl wf).2 = Blocked)).
Proof.
  intros Hs. unfold ExecuteScript. rewrite Hs. split.
  - by intros ->.
  - intros Hne. destruct (sCommand s) as [|Command0 Command1]; [done|].
    cbn. destruct (ContainerCreate de _ _ _) as [ID|];
      [|split; [done | left; by eexists]].
    cbn. destruct (ContainerStart de ID);
      [split; [done | left; by eexists]|].
    cbn. destruct (ContainerWait de ID) as [[]|code|]; cbn;
      (split; [done | first [by right | left; by eexists]]).
Qed.

Lemma ExecuteScript_empty_command_panics_witness :
  ExecuteScript Sample.NodeID (Sample.daemon (λ _, WaitStatus 0)) "script"
    (Sample.script []) (Sample.workflow "wf" "script" [Sample.script []])
  = ([], Panic "runtime error: index out of range [0] with length 0")
  ∧ returns (ExecuteScript Sample.NodeID (Sample.daemon (λ _, WaitStatus 0))
               "script" (Sample.script ["python"])
               (Sample.workflow "wf" "script" [Sample.script ["python"]])).2.
Proof.
  split.
  - apply (ExecuteScript_empty_command_panics Sample.NodeID
             (Sample.daemon (λ _, WaitStatus 0)) "script" (Sample.script [])
             (Sample.workflow "wf" "script" [Sample.script []]) _ eq_refl).
    reflexivity.
  - destruct (ExecuteScript_empty_command_panics Sample.NodeID
                (Sample.daemon (λ _, WaitStatus 0)) "script"
                (Sample.script ["python"])
                (Sample.workflow "wf" "script" [Sample.script ["python"]])
                _ eq_refl) as [_ H].
    destruct H as [_ [Hret|Hblocked]]; [discriminate | exact Hret |].
    discriminate Hblocked.
Defined.

(** *** The orchestrator's use of the adapter *)

Lemma applyEvents_calls (lc : LocalController) (wfExec : nat) (cs : list call) :
  applyEvents lc wfExec (EvCall <$> cs) = Some lc.
Proof. induction cs as [|c cs IH]; [done|]. simpl. exact IH. Qed.

Lemma filter_isWrite_calls (cs : list call) :
  filter isWrite (EvCall <$> cs) = [].
Proof. induction cs as [|c cs IH]; [done|]. simpl. exact IH. Qed.

(** C4, at the failing input. When the wait fails the adapter returns the
    error together with a status of phase Error whose message is the error
    text; [executeContainerTemplate] returns that error without writing
    the status: its events are the three calls on the Docker client, and
    applying them leaves the run's store as it was. *)
Theorem wait_error_status_not_recorded
    (NodeID : Workflow → string → string) (de : DockerExecutor)
    (nodeName : string) (tmpl : Template) (wf : Workflow)
    (c : Container) (ID : string) (err : error) :
  tContainer tmpl = Some c →
  ContainerCreate de (containerConfigOf tmpl c wf nodeName) (hostConfigOf c wf)
    (containerNameOf wf nodeName) = inl ID →
  ContainerStart de ID = None →
  ContainerWait de ID = WaitErr (Some err) →
  (∃ ns, (ExecuteContainer NodeID de nodeName tmpl wf).2
         = Return (Some ns, Some err)
       ∧ nPhase ns = NodeError ∧ nMessage ns = err
       ∧ nID ns = NodeID wf nodeName)
  ∧ (executeContainerTemplate NodeID de wf nodeName tmpl).2 = Return (Some err)
  ∧ filter isWrite (executeContainerTemplate NodeID de wf nodeName tmpl).1 = []
  ∧ ∀ lc wfExec,
      applyEvents lc wfExec (executeContainerTemplate NodeID de wf nodeName tmpl).1
      = Some lc.
Proof.
  intros Hc Hcreate Hstart Hwait.
  pose proof (ExecuteContainer_wait_failed NodeID de nodeName tmpl wf c ID err
                Hc Hcreate Hstart Hwait) as Hrun.
  unfold executeContainerTemplate. rewrite Hrun. split_and!.
  - eexists. by split_and!.
  - done.
  - done.
  - done.
Qed.

Lemma wait_error_status_not_recorded_witness :
  (executeContainerTemplate Sample.NodeID
     (Sample.daemon (λ _, WaitErr (Some "connection lost")))
     Sample.single "echo" Sample.echo).2 = Return (Some "connection lost")
  ∧ filter isWrite
      (executeContainerTemplate Sample.NodeID
         (Sample.daemon (λ _, WaitErr (Some "connection lost")))
         Sample.single "echo" Sample.echo).1 = [].
Proof.
  destruct (wait_error_status_not_recorded Sample.NodeID
              (Sample.daemon (λ _, WaitErr (Some "connection lost")))
              "echo" Sample.echo Sample.single _ "id-argo-wf-echo"
              "connection lost" eq_refl eq_refl eq_refl eq_refl)
    as (_ & Hret & Hnone & _).
  split; [exact Hret | exact Hnone].
Defined.

(** ** The run registry *)

(** The workflow object that [SubmitWorkflow] registers for a document. *)
Lemma SubmitWorkflow_eq (now : Time) (lc : LocalController) (wf : Workflow) :
  ∃ registered,
    SubmitWorkflow now lc wf
    = ({| workflows := <[wfName wf := length (executions lc)]> (workflows lc);
          executions := executions lc ++ [ {| weWorkflow := registered |} ];
          nodeMaps := nodeMaps lc;
          spawned := spawned lc ++ [length (executions lc)] |}, None)
    ∧ wfName registered = wfName wf
    ∧ wfSpec registered = wfSpec wf
    ∧ wfStatus registered
      = (if bool_decide (wsPhase (wfStatus wf) = WorkflowUnknown)
         then set_StartedAt now (set_Phase WorkflowPending (wfStatus wf))
         else wfStatus wf).
Proof.
  unfold SubmitWorkflow. case_bool_decide; eexists; split_and!; reflexivity.
Qed.

(** C1, as amended. [SubmitWorkflow] never fails, whether or not the name
    is registered. It creates a new run object for the document and makes
    the registry map the document's name to it, in place of any run
    registered under that name before; the new run has the document's
    templates, and its phase is Pending when the document carries no phase
    and the document's own phase otherwise. The objects of the runs
    registered before, the entries of other names and the node maps are
    left as they were. The walk of the new run is started and has not run
    when [SubmitWorkflow] returns. *)
Theorem SubmitWorkflow_registers
    (now : Time) (lc : LocalController) (wf : Workflow) :
  let lc' := (SubmitWorkflow now lc wf).1 in
  let wfExec := length (executions lc) in
  (SubmitWorkflow now lc wf).2 = None
  ∧ workflows lc' !! wfName wf = Some wfExec
  ∧ (∃ registered,
       executions lc' !! wfExec = Some {| weWorkflow := registered |}
       ∧ wfName registered = wfName wf
       ∧ wfSpec registered = wfSpec wf
       ∧ wsPhase (wfStatus registered)
         = (if bool_decide (wsPhase (wfStatus wf) = WorkflowUnknown)
            then WorkflowPending else wsPhase (wfStatus wf)))
  ∧ spawned lc' = spawned lc ++ [wfExec]
  ∧ (∀ name, name ≠ wfName wf → workflows lc' !! name = workflows lc !! name)
  ∧ (∀ p, p < length (executions lc) → executions lc' !! p = executions lc !! p)
  ∧ nodeMaps lc' = nodeMaps lc.
Proof.
  destruct (SubmitWorkflow_eq now lc wf) as (registered & -> & Hn & Hs & Hst).
  cbn. split_and!.
  - done.
  - by rewrite lookup_insert_eq.
  - exists registered. split_and!; [|done|done|].
    + rewrite lookup_app_r by done. by rewrite Nat.sub_diag.
    + rewrite Hst. by case_bool_decide.
  - done.
  - intros name Hne. by rewrite lookup_insert_ne.
  - intros p Hp. by rewrite lookup_app_l.
  - done.
Qed.

(** C1, as stated, fails: a second document under a registered name is
    accepted (the returned error is nil, not a duplicate-run error), and
    the name then leads to the second document's run, not to the first's;
    and a document that carries a phase is not registered as Pending. *)
Lemma duplicate_submit_accepted :
  let lc1 := (SubmitWorkflow (Some 1%Z) Sample.empty Sample.single).1 in
  let second := SubmitWorkflow (Some 2%Z) lc1 Sample.single' in
  is_Some (workflows lc1 !! "wf")
  ∧ second.2 = None
  ∧ wfSpec <$> (GetWorkflow lc1 "wf").2.1 = Some (wfSpec Sample.single)
  ∧ wfSpec <$> (GetWorkflow second.1 "wf").2.1 = Some (wfSpec Sample.single')
  ∧ wfSpec Sample.single ≠ wfSpec Sample.single'
  ∧ (wsPhase ∘ wfStatus) <$>
      (GetWorkflow (SubmitWorkflow (Some 1%Z) Sample.empty Sample.finished).1
         "done").2.1
    = Some WorkflowSucceeded.
Proof.
  cbv zeta. split_and!.
  - vm_compute. by eexists.
  - reflexivity.
  - vm_compute. reflexivity.
  - vm_compute. reflexivity.
  - discriminate.
  - vm_compute. reflexivity.
Qed.

(** *** Reading a run *)

(** The copy made for a reader has the stored status as it is, node-map
    pointer included; the copy of the node map that [DeepCopy] made is
    dropped. *)
Lemma copyWithStatus_eq (maps : list (gmap string NodeStatus))
    (wfExec : WorkflowExecution) :
  ∃ dropped, copyWithStatus maps wfExec = (maps ++ dropped, weWorkflow wfExec).
Proof.
  unfold copyWithStatus, DeepCopy. destruct wfExec as [[name spec status]].
  cbn. destruct (wsNodes status) as [r|]; cbn.
  - by eexists [_].
  - exists []. by rewrite app_nil_r.
Qed.

Lemma GetWorkflow_found (lc : LocalController) (name : string) (p : nat)
    (wfExec : WorkflowExecution) :
  workflows lc !! name = Some p →
  executions lc !! p = Some wfExec →
  ∃ dropped,
    GetWorkflow lc name
    = ({| workflows := workflows lc; executions := executions lc;
          nodeMaps := nodeMaps lc ++ dropped; spawned := spawned lc |},
       (Some (weWorkflow wfExec), None)).
Proof.
  intros Hp Hexec. unfold GetWorkflow. rewrite Hp. cbn. rewrite Hexec.
  destruct (copyWithStatus_eq (nodeMaps lc) wfExec) as [dropped ->].
  by exists dropped.
Qed.

Lemma GetWorkflow_inv (lc lc1 : LocalController) (name : string)
    (snap : Workflow) (err : option error) :
  GetWorkflow lc name = (lc1, (Some snap, err)) →
  ∃ p wfExec dropped,
    workflows lc !! name = Some p ∧ executions lc !! p = Some wfExec
    ∧ snap = weWorkflow wfExec ∧ err = None
    ∧ lc1 = {| workflows := workflows lc; executions := executions lc;
               nodeMaps := nodeMaps lc ++ dropped; spawned := spawned lc |}.
Proof.
  intros Hget. destruct (workflows lc !! name) as [p|] eqn:Hp.
  - destruct (executions lc !! p) as [wfExec|] eqn:Hexec.
    + destruct (GetWorkflow_found lc name p wfExec Hp Hexec) as [dropped Heq].
      rewrite Heq in Hget. simplify_eq. by exists p, wfExec, dropped.
    + unfold GetWorkflow in Hget. rewrite Hp in Hget. cbn in Hget.
      by rewrite Hexec in Hget.
  - unfold GetWorkflow in Hget. by rewrite Hp in Hget.
Qed.

(** Reading twice, with no write in between, gives the same value, behind
    which the reader finds the same node map. *)
Lemma GetWorkflow_twice (lc lc1 : LocalController) (name : string)
    (snap : Workflow) (err : option error) :
  GetWorkflow lc name = (lc1, (Some snap, err)) →
  (GetWorkflow lc1 name).2 = (Some snap, err)
  ∧ ∀ m, nodesOf lc1 snap = Some m → nodesOf (GetWorkflow lc1 name).1 snap = Some m.
Proof.
  intros Hget.
  destruct (GetWorkflow_inv _ _ _ _ _ Hget)
    as (p & wfExec & dropped & Hp & Hexec & -> & -> & ->).
  destruct (GetWorkflow_found
              {| workflows := workflows lc; executions := executions lc;
                 nodeMaps := nodeMaps lc ++ dropped; spawned := spawned lc |}
              name p wfExec Hp Hexec) as [dropped' ->].
  split; [done|]. unfold nodesOf. cbn.
  destruct (wsNodes (wfStatus (weWorkflow wfExec))) as [r|]; [|done]. cbn.
  intros m Hm. by apply lookup_app_l_Some.
Qed.

(** C2, at the failing input. The value that [GetWorkflow] returns holds
    the stored run's own node map: a node status that the walk writes after
    the read has returned is found through the value read before. *)
Theorem GetWorkflow_shares_node_map
    (lc lc1 lc2 : LocalController) (name : string) (wfExec : nat)
    (snap : Workflow) (ID : string) (nodeStatus : NodeStatus) :
  workflows lc !! name = Some wfExec →
  GetWorkflow lc name = (lc1, (Some snap, None)) →
  writeNodeStatus lc1 wfExec ID nodeStatus = Some lc2 →
  wsNodes (wfStatus snap) = (statusOf lc2 wfExec ≫= wsNodes)
  ∧ nodesOf lc2 snap = <[ID := nodeStatus]> <$> nodesOf lc1 snap.
Proof.
  intros Hname Hget Hwrite.
  destruct (GetWorkflow_inv _ _ _ _ _ Hget)
    as (p & we & dropped & Hp & Hexec & -> & _ & ->).
  assert (p = wfExec) as -> by congruence.
  unfold writeNodeStatus, statusOf in Hwrite. cbn in Hwrite.
  rewrite Hexec in Hwrite. cbn in Hwrite.
  destruct (wsNodes (wfStatus (weWorkflow we))) as [r|] eqn:Hr; [|done].
  cbn in Hwrite. simplify_eq. unfold nodesOf, statusOf. cbn.
  rewrite Hexec, Hr. cbn. split; [done|].
  by rewrite list_lookup_alter_eq.
Qed.

Lemma GetWorkflow_shares_node_map_witness :
  let lc0 := walkStart (SubmitWorkflow (Some 1%Z) Sample.empty Sample.single).1 0 in
  let read := GetWorkflow lc0 "wf" in
  ∃ snap lc2,
    read.2 = (Some snap, None)
    ∧ writeNodeStatus read.1 0 "wf/echo" Sample.helloStatus = Some lc2
    ∧ nodesOf read.1 snap = Some ∅
    ∧ nodesOf lc2 snap = Some {[ "wf/echo" := Sample.helloStatus ]}.
Proof.
  cbv zeta.
  set (lc0 := walkStart (SubmitWorkflow (Some 1%Z) Sample.empty Sample.single).1 0).
  destruct (GetWorkflow lc0 "wf") as [lc1 [[snap|] [err|]]] eqn:Hget;
    try (vm_compute in Hget; discriminate Hget).
  destruct (writeNodeStatus lc1 0 "wf/echo" Sample.helloStatus) as [lc2|] eqn:Hw;
    [|vm_compute in Hget; simplify_eq; vm_compute in Hw; discriminate Hw].
  exists snap, lc2. cbn [fst snd].
  assert (nodesOf lc1 snap = Some ∅) as Hbefore
    by (vm_compute in Hget; simplify_eq; vm_compute; reflexivity).
  split; [reflexivity|]. split; [exact Hw|]. split; [exact Hbefore|].
  destruct (GetWorkflow_shares_node_map lc0 lc1 lc2 "wf" 0 snap "wf/echo"
              Sample.helloStatus) as [_ Hafter].
  - vm_compute. reflexivity.
  - exact Hget.
  - exact Hw.
  - rewrite Hafter, Hbefore. reflexivity.
Defined.

(** ** Goroutine groups *)

(** *** Schedules *)

Section MergeFacts.

Context {A : Type}.
Implicit Types (ts : list (list A)) (choices : list nat).

Lemma concat_insert_cons ts c (e : A) t :
  ts !! c = Some (e :: t) → concat ts ≡ₚ e :: concat (<[c := t]> ts).
Proof.
  intros H. rewrite <- (take_drop_middle ts c (e :: t) H) at 1.
  rewrite insert_take_drop by (by eapply lookup_lt_Some).
  rewrite !concat_app. simpl. by rewrite <- Permutation_middle.
Qed.

(** A schedule loses no event and invents none. *)
Lemma merge_Permutation choices ts : merge choices ts ≡ₚ concat ts.
Proof.
  revert ts. induction choices as [|c choices IH]; intros ts; simpl; [done|].
  destruct (ts !! c) as [[|e t]|] eqn:Hc; [apply IH| |apply IH].
  rewrite IH. symmetry. by apply concat_insert_cons.
Qed.

Lemma elem_of_merge choices ts (e : A) :
  e ∈ merge choices ts ↔ ∃ t, t ∈ ts ∧ e ∈ t.
Proof.
  rewrite merge_Permutation, list_elem_of_In, in_concat.
  split; intros (t & Ht & He); exists t; revert Ht He;
    rewrite ?list_elem_of_In; auto.
Qed.

Lemma elem_of_upto (stop : A → bool) (l : list A) (e : A) :
  e ∈ upto stop l → e ∈ l.
Proof.
  induction l as [|x l IH]; simpl; [done|]. destruct (stop x).
  - intros ->%list_elem_of_singleton. by left.
  - intros [->|He]%elem_of_cons; [by left|right; auto].
Qed.

(** The schedule that lets goroutine [c] run to its end first. *)
Lemma merge_replicate (t : list A) ts c :
  ts !! c = Some t →
  merge (replicate (length t) c) ts = t ++ merge [] (<[c := []]> ts).
Proof.
  revert ts. induction t as [|e t IH]; intros ts Hc; simpl.
  - by rewrite list_insert_id.
  - rewrite Hc. f_equal. rewrite IH.
    + by rewrite list_insert_insert_eq.
    + apply list_lookup_insert_eq. by eapply lookup_lt_Some.
Qed.

End MergeFacts.

Lemma imap_insert {A B} (f : nat → A → B) (l : list A) i x :
  <[i := f i x]> (imap f l) = imap f (<[i := x]> l).
Proof.
  apply list_eq. intros j. rewrite list_lookup_imap.
  destruct (decide (i = j)) as [->|Hne].
  - destruct (decide (j < length l)).
    + rewrite !list_lookup_insert_eq by (by rewrite ?length_imap). done.
    + rewrite !list_insert_ge by (rewrite ?length_imap; lia).
      by rewrite list_lookup_imap.
  - rewrite !list_lookup_insert_ne by done. by rewrite list_lookup_imap.
Qed.

(** *** The events of one goroutine *)

Lemma by_goroutine_cons g e tr :
  by_goroutine g (e :: tr)
  = match inner g e with
    | Some e' => e' :: by_goroutine g tr
    | None => by_goroutine g tr
    end.
Proof. reflexivity. Qed.

Lemma by_goroutine_app g tr1 tr2 :
  by_goroutine g (tr1 ++ tr2) = by_goroutine g tr1 ++ by_goroutine g tr2.
Proof. apply omap_app. Qed.

Lemma by_goroutine_same g tr : by_goroutine g (EvGo g <$> tr) = tr.
Proof.
  induction tr as [|e tr IH]; [done|].
  rewrite fmap_cons, by_goroutine_cons. simpl.
  rewrite decide_True by done. by rewrite IH.
Qed.

Lemma by_goroutine_other g g' tr : g' ≠ g → by_goroutine g (EvGo g' <$> tr) = [].
Proof.
  intros Hne. induction tr as [|e tr IH]; [done|].
  rewrite fmap_cons, by_goroutine_cons. simpl.
  by rewrite decide_False.
Qed.

Lemma by_goroutine_none g tr :
  (∀ e, e ∈ tr → goroutineOf e ≠ Some g) → by_goroutine g tr = [].
Proof.
  induction tr as [|e tr IH]; intros H; [done|].
  rewrite by_goroutine_cons.
  rewrite IH by (intros; apply H; by right).
  destruct e as [| | | | | |g' e]; try done. simpl.
  rewrite decide_False; [done|].
  intros ->. by apply (H (EvGo g e)); [left|].
Qed.

Lemma by_goroutine_concat_tagged (tag : nat → gid)
    (children : list (list event)) j :
  Inj (=) (=) tag →
  by_goroutine (tag j) (concat (tagged tag children)) = default [] (children !! j).
Proof.
  unfold tagged. revert tag j.
  induction children as [|t children IH]; intros tag j Hinj; [done|].
  rewrite imap_cons. simpl. rewrite by_goroutine_app.
  destruct j as [|j]; simpl.
  - rewrite by_goroutine_same.
    rewrite by_goroutine_none; [by rewrite app_nil_r|].
    intros e. rewrite list_elem_of_In, in_concat.
    intros (l & Hl%list_elem_of_In & He%list_elem_of_In).
    apply elem_of_lookup_imap in Hl as (i & x & -> & _).
    apply list_elem_of_fmap in He as (e' & -> & _). simpl.
    intros [=H]. by apply Hinj in H.
  - rewrite by_goroutine_other by (intros H; by apply Hinj in H).
    simpl. apply (IH (tag ∘ S) j). intros ?? H. apply Hinj in H. by simplify_eq.
Qed.

(** However the scheduler interleaves the goroutines of a group, the events
    of each goroutine are its own, in its own order. *)
Lemma by_goroutine_merge (tag : nat → gid) choices
    (children : list (list event)) j :
  Inj (=) (=) tag →
  by_goroutine (tag j) (merge choices (tagged tag children))
  = default [] (children !! j).
Proof.
  intros tag_inj. revert children.
  induction choices as [|c choices IH]; intros children.
  - by apply by_goroutine_concat_tagged.
  - cbn [merge]. unfold tagged at 1. rewrite list_lookup_imap.
    destruct (children !! c) as [[|e t]|] eqn:Hc;
      cbn [fmap option_fmap option_map list_fmap]; [apply IH| |apply IH].
    replace (<[c:=EvGo (tag c) <$> t]> (tagged tag children))
      with (tagged tag (<[c:=t]> children))
      by (symmetry; apply (imap_insert (λ j t, EvGo (tag j) <$> t))).
    rewrite by_goroutine_cons, IH. cbn [inner].
    destruct (decide (tag c = tag j)) as [Heq|Hne].
    + apply tag_inj in Heq as ->. rewrite Hc.
      rewrite list_lookup_insert_eq by (by eapply lookup_lt_Some). done.
    + rewrite list_lookup_insert_ne; [done|]. by intros ->.
Qed.

(** *** Waiting for a group *)

Lemma joined_returns {A} (os : list (outcome A)) :
  returns (joined os) ↔ ∀ o, o ∈ os → returns o.
Proof.
  induction os as [|o os IH]; simpl.
  - split; [intros _ o Ho; by apply elem_of_nil in Ho | intros _; by eexists].
  - split.
    + intros Hret o' Ho'. apply elem_of_cons in Ho' as [->|Ho'].
      * destruct o; [by eexists|..]; destruct (joined os), Hret; done.
      * apply IH; [|done]. destruct (joined os); [by eexists|..];
          destruct o, Hret; done.
    + intros Hall. assert (returns o) as [a ->] by (apply Hall; by left).
      assert (returns (joined os)) as [u ->]
        by (apply IH; intros; apply Hall; by right).
      by eexists.
Qed.

Lemma goroutine_returns (body : Exec event (option error)) :
  returns (goroutine body).2 ↔ returns body.2.
Proof.
  unfold goroutine. destruct body as [tr [[err|]|msg| |]]; simpl;
    split; intros [? ?]; try done; by eexists.
Qed.




Section Groups.

Variable tag : nat → gid.
Hypothesis tag_inj : Inj (=) (=) tag.
Variable choices : list nat.
Variable gs : list (Exec event unit).

Lemma runGroup_tagged e :
  e ∈ (runGroup tag choices gs).1 →
  ∃ j g e', e = EvGo (tag j) e' ∧ gs !! j = Some g ∧ e' ∈ g.1.
Proof.
  intros He.
  assert (e ∈ merge choices (imap (λ j g, EvGo (tag j) <$> g.1) gs)) as Hm.
  { unfold runGroup in He. destruct (joined (snd <$> gs)); simpl in He; try done.
    by apply elem_of_upto in He. }
  apply elem_of_merge in Hm as (t & Ht & Het).
  apply elem_of_lookup_imap in Ht as (j & g & -> & Hj).
  apply list_elem_of_fmap in Het as (e' & -> & He').
  by exists j, g, e'.
Qed.

Lemma runGroup_all_return :
  (∀ g, g ∈ gs → returns g.2) →
  runGroup tag choices gs
  = (merge choices (tagged tag (fst <$> gs)),
     Return (omap sent_of (merge choices (tagged tag (fst <$> gs))))).
Proof.
  intros Hall. unfold runGroup, tagged. rewrite imap_fmap.
  assert (returns (joined (snd <$> gs))) as [[] ->]; [|done].
  apply joined_returns. intros o (g & -> & Hg)%list_elem_of_fmap. by apply Hall.
Qed.

Lemma runGroup_returns :
  returns (runGroup tag choices gs).2 → ∀ g, g ∈ gs → returns g.2.
Proof.
  intros Hret g Hg.
  assert (returns (joined (snd <$> gs))) as Hj.
  { unfold runGroup in Hret. destruct (joined (snd <$> gs)); simpl in Hret;
      [by eexists|destruct Hret; done..]. }
  eapply joined_returns in Hj; [done|]. by apply list_elem_of_fmap_2.
Qed.

(** The channel holds what was sent, in the order sent. *)
Lemma runGroup_sent errs :
  (runGroup tag choices gs).2 = Return errs →
  errs = omap sent_of (runGroup tag choices gs).1.
Proof.
  intros Hret.
  assert (∀ g, g ∈ gs → returns g.2) as Hall
    by (apply runGroup_returns; rewrite Hret; by eexists).
  rewrite runGroup_all_return in * by done. simpl in *. congruence.
Qed.

Lemma runGroup_proj j :
  (∀ g, g ∈ gs → returns g.2) →
  by_goroutine (tag j) (runGroup tag choices gs).1 = default [] (fst <$> gs !! j).
Proof.
  intros Hall. rewrite runGroup_all_return by done. simpl.
  rewrite by_goroutine_merge by done. by rewrite list_lookup_fmap.
Qed.

Lemma runGroup_elem j g e :
  (∀ g, g ∈ gs → returns g.2) →
  gs !! j = Some g → e ∈ g.1 → EvGo (tag j) e ∈ (runGroup tag choices gs).1.
Proof.
  intros Hall Hj He. rewrite runGroup_all_return by done. simpl.
  apply elem_of_merge. exists (EvGo (tag j) <$> g.1). split.
  - unfold tagged. rewrite imap_fmap.
    by apply (elem_of_lookup_imap_2 (λ j g, EvGo (tag j) <$> g.1) gs g j).
  - by apply list_elem_of_fmap_2.
Qed.

(** A group in which no goroutine panics keeps every event of every
    goroutine, also when some goroutine never comes back. *)
Lemma runGroup_alive :
  (∀ msg, (runGroup tag choices gs).2 ≠ Panic msg) →
  (runGroup tag choices gs).1 = merge choices (tagged tag (fst <$> gs)).
Proof.
  unfold runGroup, tagged. rewrite imap_fmap.
  destruct (joined (snd <$> gs)); cbn; [done| |done..].
  intros H. exfalso. by eapply H.
Qed.

Lemma runGroup_proj_alive j :
  (∀ msg, (runGroup tag choices gs).2 ≠ Panic msg) →
  by_goroutine (tag j) (runGroup tag choices gs).1 = default [] (fst <$> gs !! j).
Proof.
  intros Halive. rewrite runGroup_alive by done.
  rewrite by_goroutine_merge by done. by rewrite list_lookup_fmap.
Qed.

End Groups.

Lemma StepG_inj i : Inj (=) (=) (StepG i).
Proof. by intros j j' [=]. Qed.

Lemma TaskG_inj : Inj (=) (=) TaskG.
Proof. by intros j j' [=]. Qed.

(** ** Step lists *)

Section StepsFacts.

Variable sched : string → nat → list nat.
Variable exec : string → Template → Exec event (option error).
Variables (wf : Workflow) (nodeName : string).

(** The three ways a round of the loop over the groups can go: no error
    was sent and the loop goes on; an error was sent and the loop returns
    it; the wait never returns. *)
Lemma stepsFrom_cons i g rest :
  ((runStepGroup sched exec wf nodeName i g).2 = Return []
     ∧ stepsFrom sched exec wf nodeName i (g :: rest)
       = ((runStepGroup sched exec wf nodeName i g).1
            ++ (stepsFrom sched exec wf nodeName (S i) rest).1,
          (stepsFrom sched exec wf nodeName (S i) rest).2))
  ∨ (∃ err errs,
       (runStepGroup sched exec wf nodeName i g).2 = Return (err :: errs)
       ∧ stepsFrom sched exec wf nodeName i (g :: rest)
         = ((runStepGroup sched exec wf nodeName i g).1, Return (Some err)))
  ∨ (¬ returns (runStepGroup sched exec wf nodeName i g).2
       ∧ (stepsFrom sched exec wf nodeName i (g :: rest)).1
         = (runStepGroup sched exec wf nodeName i g).1
       ∧ ¬ returns (stepsFrom sched exec wf nodeName i (g :: rest)).2).
Proof.
  cbn [stepsFrom]. unfold mbind, Exec_bind.
  destruct (runStepGroup sched exec wf nodeName i g)
    as [tg [[|err errs]|msg| |]]; cbn.
  - by left.
  - right; left. exists err, errs. by rewrite app_nil_r.
  - right; right. split_and!; [by intros [? ?]|done|by intros [? ?]].
  - right; right. split_and!; [by intros [? ?]|done|by intros [? ?]].
  - right; right. split_and!; [by intros [? ?]|done|by intros [? ?]].
Qed.

Lemma runStepGroup_tagged i g e :
  e ∈ (runStepGroup sched exec wf nodeName i g).1 →
  ∃ j s e', e = EvGo (StepG i j) e' ∧ Steps g !! j = Some s
            ∧ e' ∈ (stepGoroutine exec wf nodeName i s).1.
Proof.
  intros (j & gr & e' & -> & Hj & He')%runGroup_tagged.
  rewrite list_lookup_fmap in Hj.
  destruct (Steps g !! j) as [s|] eqn:Hs; simplify_eq/=. by exists j, s, e'.
Qed.

Lemma runStepGroup_returns i g :
  returns (runStepGroup sched exec wf nodeName i g).2 →
  ∀ s, s ∈ Steps g → returns (stepGoroutine exec wf nodeName i s).2.
Proof.
  intros Hret s Hs. apply (runGroup_returns _ _ _ Hret).
  by apply list_elem_of_fmap_2.
Qed.


(** Every event of a step list belongs to a step of one of its groups. *)
Lemma stepsFrom_tagged i0 groups e :
  e ∈ (stepsFrom sched exec wf nodeName i0 groups).1 →
  ∃ i j g s e', e = EvGo (StepG i j) e' ∧ i0 ≤ i
     ∧ groups !! (i - i0) = Some g ∧ Steps g !! j = Some s.
Proof.
  revert i0. induction groups as [|g rest IH]; intros i0;
    [by intros ?%elem_of_nil|].
  assert (∀ e, e ∈ (runStepGroup sched exec wf nodeName i0 g).1 →
    ∃ i j g' s e', e = EvGo (StepG i j) e' ∧ i0 ≤ i
       ∧ (g :: rest) !! (i - i0) = Some g' ∧ Steps g' !! j = Some s) as Hhere.
  { intros e0 (j & s & e' & -> & Hs & _)%runStepGroup_tagged.
    exists i0, j, g, s, e'. by rewrite Nat.sub_diag. }
  destruct (stepsFrom_cons i0 g rest)
    as [[_ ->]|[(err & errs & _ & ->)|(_ & -> & _)]];
    cbn [fst]; [|apply Hhere..].
  intros [He|He]%elem_of_app; [by apply Hhere|].
  apply IH in He as (i & j & g' & s & e' & -> & Hi & Hg & Hs).
  exists i, j, g', s, e'. split_and!; [done|lia| |done].
  by replace (i - i0) with (S (i - S i0)) by lia.
Qed.



Lemma by_goroutine_later i j i0 groups :
  i < i0 →
  by_goroutine (StepG i j) (stepsFrom sched exec wf nodeName i0 groups).1 = [].
Proof.
  intros Hi. apply by_goroutine_none.
  intros e (i' & j' & ? & ? & e' & -> & Hi' & _)%stepsFrom_tagged [=]. lia.
Qed.


(** An error that was sent is not lost: when the step list returns, it
    returns an error that a step of the same group sent, and no step of a
    later group has done anything. *)
Lemma stepsFrom_error i0 groups i j err :
  EvGo (StepG i j) (EvSend err) ∈ (stepsFrom sched exec wf nodeName i0 groups).1 →
  returns (stepsFrom sched exec wf nodeName i0 groups).2 →
  ∃ j' err',
    (stepsFrom sched exec wf nodeName i0 groups).2 = Return (Some err')
    ∧ EvGo (StepG i j') (EvSend err')
      ∈ (stepsFrom sched exec wf nodeName i0 groups).1
    ∧ ∀ i'' j'' e'',
        EvGo (StepG i'' j'') e'' ∈ (stepsFrom sched exec wf nodeName i0 groups).1 →
        i'' ≤ i.
Proof.
  revert i0. induction groups as [|g0 rest IH]; intros i0 Hsend Hret;
    [by apply elem_of_nil in Hsend|].
  destruct (stepsFrom_cons i0 g0 rest)
    as [[Hnone Heq]|[(err0 & errs & Hsome & Heq)|(_ & _ & Hnot)]]; [| |done].
  - rewrite Heq in Hsend, Hret |- *. cbn [fst snd] in *.
    apply elem_of_app in Hsend as [Hsend|Hsend].
    + exfalso. apply runGroup_sent in Hnone.
      assert (err ∈ omap sent_of (runStepGroup sched exec wf nodeName i0 g0).1)
        as Herr by (apply list_elem_of_omap; by eexists).
      unfold runStepGroup in Herr. rewrite <- Hnone in Herr.
      by apply elem_of_nil in Herr.
    + destruct (IH (S i0) Hsend Hret) as (j' & err' & Hout & Hin & Hmax).
      exists j', err'. split_and!; [done|apply elem_of_app; by right|].
      intros i'' j'' e'' [Hhere|Hrest]%elem_of_app; [|by eapply Hmax].
      apply runStepGroup_tagged in Hhere as (? & ? & ? & [= -> _ _] & _).
      apply stepsFrom_tagged in Hsend as (? & ? & ? & ? & ? & [= <- _ _] & ? & _).
      lia.
  - rewrite Heq in Hsend |- *. cbn [fst snd] in *.
    apply runStepGroup_tagged in Hsend as Hi.
    destruct Hi as (? & ? & ? & [= -> _ _] & _).
    pose proof (runGroup_sent _ _ _ _ Hsome) as Hsent.
    assert (err0 ∈ omap sent_of (runStepGroup sched exec wf nodeName i0 g0).1)
      as (e & He & Hsent0)%list_elem_of_omap.
    { unfold runStepGroup. rewrite <- Hsent. by left. }
    apply runStepGroup_tagged in He as Hshape.
    destruct Hshape as (j' & ? & e' & -> & _). simpl in Hsent0.
    destruct e'; simplify_eq/=. exists j', err0. split_and!; [done|done|].
    by intros i'' j'' e'' (? & ? & ? & [= -> _ _] & _)%runStepGroup_tagged.
Qed.


(** A panic in a group is the panic of the step list. *)
Lemma stepsFrom_group_Panic i g rest msg :
  (runStepGroup sched exec wf nodeName i g).2 = Panic msg →
  (stepsFrom sched exec wf nodeName i (g :: rest)).2 = Panic msg.
Proof. cbn [stepsFrom]. unfold mbind, Exec_bind. by intros ->. Qed.

Lemma runStepGroup_course i g j s :
  (∀ msg, (runStepGroup sched exec wf nodeName i g).2 ≠ Panic msg) →
  Steps g !! j = Some s →
  by_goroutine (StepG i j) (runStepGroup sched exec wf nodeName i g).1
  = (stepGoroutine exec wf nodeName i s).1.
Proof.
  intros Halive Hs. unfold runStepGroup in *.
  rewrite runGroup_proj_alive; [|apply StepG_inj|done].
  by rewrite list_lookup_fmap, Hs.
Qed.

(** No early cancellation: as long as no step panics, each step of a group
    that was started runs its own course, whatever its siblings do, fail or
    never come back. *)
Lemma stepsFrom_course i0 groups i g :
  i0 ≤ i → groups !! (i - i0) = Some g →
  (∃ j e, EvGo (StepG i j) e ∈ (stepsFrom sched exec wf nodeName i0 groups).1) →
  (∀ msg, (stepsFrom sched exec wf nodeName i0 groups).2 ≠ Panic msg) →
  ∀ j s, Steps g !! j = Some s →
    by_goroutine (StepG i j) (stepsFrom sched exec wf nodeName i0 groups).1
    = (stepGoroutine exec wf nodeName i s).1.
Proof.
  revert i0. induction groups as [|g0 rest IH];
    intros i0 Hi0 Hg (j0 & e0 & He0) Halive j s Hs; [done|].
  destruct (decide (i = i0)) as [->|Hne].
  - rewrite Nat.sub_diag in Hg. cbn in Hg. simplify_eq.
    assert (∀ msg, (runStepGroup sched exec wf nodeName i0 g).2 ≠ Panic msg)
      as Hgroup.
    { intros msg Hp. by apply (Halive msg), stepsFrom_group_Panic. }
    pose proof (runStepGroup_course i0 g j s Hgroup Hs) as Hproj.
    destruct (stepsFrom_cons i0 g rest)
      as [[_ ->]|[(err & errs & _ & ->)|(_ & -> & _)]]; cbn [fst]; [|done..].
    rewrite by_goroutine_app, Hproj, by_goroutine_later by lia.
    by rewrite app_nil_r.
  - assert (EvGo (StepG i j0) e0
            ∉ (runStepGroup sched exec wf nodeName i0 g0).1) as Hnotin.
    { by intros (? & ? & ? & [= <- _ _] & _)%runStepGroup_tagged. }
    destruct (stepsFrom_cons i0 g0 rest)
      as [[_ Heq]|[(err & errs & _ & Heq)|(_ & Heq & _)]];
      rewrite Heq in He0 |- *; try rewrite Heq in Halive;
      cbn [fst snd] in He0, Halive |- *; [|done..].
    apply elem_of_app in He0 as [?|He0]; [done|].
    rewrite by_goroutine_app. rewrite (by_goroutine_none (StepG i j)).
    + apply IH; [lia| |by eauto|done|done].
      by replace (i - i0) with (S (i - S i0)) in Hg by lia.
    + intros e (? & ? & ? & -> & _)%runStepGroup_tagged [=]. lia.
Qed.



(** Every event of a step list is an event of the goroutine of a step, of
    the group and at the place that its mark says. *)
Lemma stepsFrom_members i0 groups i j e :
  EvGo (StepG i j) e ∈ (stepsFrom sched exec wf nodeName i0 groups).1 →
  ∃ g s, i0 ≤ i ∧ groups !! (i - i0) = Some g ∧ Steps g !! j = Some s
    ∧ e ∈ (stepGoroutine exec wf nodeName i s).1.
Proof.
  revert i0. induction groups as [|g0 rest IH]; intros i0;
    [by intros ?%elem_of_nil|].
  assert (EvGo (StepG i j) e ∈ (runStepGroup sched exec wf nodeName i0 g0).1 →
    ∃ g s, i0 ≤ i ∧ (g0 :: rest) !! (i - i0) = Some g ∧ Steps g !! j = Some s
      ∧ e ∈ (stepGoroutine exec wf nodeName i s).1) as Hhere.
  { intros (j1 & s & e1 & [= -> -> ->] & Hs & He)%runStepGroup_tagged.
    exists g0, s. by rewrite Nat.sub_diag. }
  destruct (stepsFrom_cons i0 g0 rest)
    as [[_ ->]|[(err & errs & _ & ->)|(_ & -> & _)]]; cbn [fst]; [|done..].
  intros [He|He]%elem_of_app; [by apply Hhere|].
  apply IH in He as (g & s & Hi & Hg & Hs & He). exists g, s.
  split_and!; [lia| |done|done].
  by replace (i - i0) with (S (i - S i0)) by lia.
Qed.


End StepsFacts.

(** ** Units of work inside a walk *)

Section LeafCourse.

Variable NodeID : Workflow → string → string.
Variable de : DockerExecutor.
Variable sched : string → nat → list nat.
Variables (fuel : nat) (wf : Workflow) (n : string) (tmpl : Template).


End LeafCourse.

Lemma elem_of_by_goroutine g e tr : e ∈ by_goroutine g tr ↔ EvGo g e ∈ tr.
Proof.
  unfold by_goroutine. rewrite list_elem_of_omap. split.
  - intros (x & Hx & Hin). destruct x as [| | | | | |g' e0]; try done.
    simpl in Hin. case_decide; by simplify_eq.
  - intros Hin. exists (EvGo g e). split; [done|]. simpl.
    by rewrite decide_True.
Qed.





(** ** Task graphs *)

Section DagFacts.

Variable sched : string → nat → list nat.
Variable exec : string → Template → Exec event (option error).
Variables (wf : Workflow) (nodeName : string) (dag : DAGTemplate).


Lemma runTasks_tagged e :
  e ∈ (runTasks sched exec wf nodeName dag).1 →
  ∃ j t e', e = EvGo (TaskG j) e' ∧ Tasks dag !! j = Some t
            ∧ e' ∈ (taskGoroutine exec wf nodeName t).1.
Proof.
  intros (j & gr & e' & -> & Hj & He')%runGroup_tagged.
  rewrite list_lookup_fmap in Hj.
  destruct (Tasks dag !! j) as [t|] eqn:Ht; simplify_eq/=. by exists j, t, e'.
Qed.

Lemma executeDAGTemplate_trace :
  (executeDAGTemplate sched exec wf nodeName dag).1
  = (runTasks sched exec wf nodeName dag).1.
Proof.
  unfold executeDAGTemplate, mbind, Exec_bind.
  destruct (runTasks sched exec wf nodeName dag) as [tr [[|err errs]|msg| |]];
    cbn; by rewrite ?app_nil_r.
Qed.

Lemma executeDAGTemplate_result errs :
  (runTasks sched exec wf nodeName dag).2 = Return errs →
  (executeDAGTemplate sched exec wf nodeName dag).2 = Return (head errs).
Proof.
  unfold executeDAGTemplate, mbind, Exec_bind. intros ->. by destruct errs.
Qed.

Hypothesis all_return :
  ∀ t, t ∈ Tasks dag → returns (taskBody exec wf nodeName t).2.

Lemma taskGoroutines_return g :
  g ∈ taskGoroutine exec wf nodeName <$> Tasks dag → returns g.2.
Proof.
  intros (t & -> & Ht)%list_elem_of_fmap. apply goroutine_returns.
  by apply all_return.
Qed.

Lemma runTasks_all_return :
  ∃ errs, (runTasks sched exec wf nodeName dag).2 = Return errs
    ∧ errs = omap sent_of (runTasks sched exec wf nodeName dag).1.
Proof.
  unfold runTasks. rewrite runGroup_all_return by apply taskGoroutines_return.
  by eexists.
Qed.

Lemma runTasks_proj j t :
  Tasks dag !! j = Some t →
  by_goroutine (TaskG j) (runTasks sched exec wf nodeName dag).1
  = (taskGoroutine exec wf nodeName t).1.
Proof.
  intros Ht. unfold runTasks.
  rewrite runGroup_proj; [|apply TaskG_inj|apply taskGoroutines_return].
  by rewrite list_lookup_fmap, Ht.
Qed.

Lemma runTasks_first j t :
  Tasks dag !! j = Some t →
  sched nodeName 0 = replicate (length (taskGoroutine exec wf nodeName t).1) j →
  ∃ rest, (runTasks sched exec wf nodeName dag).1
          = (EvGo (TaskG j) <$> (taskGoroutine exec wf nodeName t).1) ++ rest.
Proof.
  intros Ht Hsched. unfold runTasks.
  rewrite runGroup_all_return by apply taskGoroutines_return. cbn [fst].
  rewrite Hsched.
  rewrite <- (length_fmap (EvGo (TaskG j)) (taskGoroutine exec wf nodeName t).1).
  rewrite merge_replicate; [by eexists|].
  unfold tagged. by rewrite list_lookup_imap, !list_lookup_fmap, Ht.
Qed.

Lemma runTasks_failure t err :
  t ∈ Tasks dag → (taskBody exec wf nodeName t).2 = Return (Some err) →
  ∃ j' err' errs,
    (runTasks sched exec wf nodeName dag).2 = Return (err' :: errs)
    ∧ EvGo (TaskG j') (EvSend err') ∈ (runTasks sched exec wf nodeName dag).1.
Proof.
  intros [j Hj]%list_elem_of_lookup_1 Hfail.
  destruct runTasks_all_return as (errs & Hret & Hsent).
  assert (EvGo (TaskG j) (EvSend err) ∈ (runTasks sched exec wf nodeName dag).1)
    as Hin.
  { unfold runTasks. eapply runGroup_elem.
    - apply taskGoroutines_return.
    - by rewrite list_lookup_fmap, Hj.
    - unfold taskGoroutine, goroutine. rewrite Hfail. cbn.
      apply elem_of_app. right. by left. }
  assert (err ∈ errs) as Herr.
  { rewrite Hsent. apply list_elem_of_omap. by eexists. }
  destruct errs as [|err' errs]; [by apply elem_of_nil in Herr|].
  assert (err' ∈ omap sent_of (runTasks sched exec wf nodeName dag).1)
    as (e & He & Hsent')%list_elem_of_omap by (rewrite <- Hsent; by left).
  apply runTasks_tagged in He as Hshape.
  destruct Hshape as (j' & ? & e' & -> & _). simpl in Hsent'.
  destruct e'; simplify_eq/=. by exists j', err', errs.
Qed.

End DagFacts.

Section DagCourse.

Variable sched : string → nat → list nat.
Variable exec : string → Template → Exec event (option error).
Variables (wf : Workflow) (nodeName : string) (dag : DAGTemplate).


Lemma executeDAGTemplate_Panic msg :
  (runTasks sched exec wf nodeName dag).2 = Panic msg →
  (executeDAGTemplate sched exec wf nodeName dag).2 = Panic msg.
Proof. unfold executeDAGTemplate, mbind, Exec_bind. by intros ->. Qed.

Lemma executeDAGTemplate_returned :
  returns (executeDAGTemplate sched exec wf nodeName dag).2 →
  ∃ errs, (runTasks sched exec wf nodeName dag).2 = Return errs
    ∧ errs = omap sent_of (runTasks sched exec wf nodeName dag).1
    ∧ (executeDAGTemplate sched exec wf nodeName dag).2 = Return (head errs)
    ∧ ∀ t, t ∈ Tasks dag → returns (taskBody exec wf nodeName t).2.
Proof.
  intros Hret.
  assert (∃ errs, (runTasks sched exec wf nodeName dag).2 = Return errs)
    as [errs Hrun].
  { revert Hret. unfold executeDAGTemplate, mbind, Exec_bind.
    destruct (runTasks sched exec wf nodeName dag).2; [by eexists|..];
      by intros [? ?]. }
  exists errs. split_and!; [done| |by apply executeDAGTemplate_result|].
  - by apply (runGroup_sent TaskG (sched nodeName 0)
                (taskGoroutine exec wf nodeName <$> Tasks dag)).
  - intros t Ht. apply goroutine_returns.
    change (returns (taskGoroutine exec wf nodeName t).2).
    apply (runGroup_returns TaskG (sched nodeName 0)
             (taskGoroutine exec wf nodeName <$> Tasks dag)).
    + fold (runTasks sched exec wf nodeName dag). rewrite Hrun. by eexists.
    + by apply list_elem_of_fmap_2.
Qed.

(** As long as no task panics, each task runs its own course, whatever the
    others do. *)
Lemma executeDAGTemplate_course j t :
  (∀ msg, (executeDAGTemplate sched exec wf nodeName dag).2 ≠ Panic msg) →
  Tasks dag !! j = Some t →
  by_goroutine (TaskG j) (executeDAGTemplate sched exec wf nodeName dag).1
  = (taskGoroutine exec wf nodeName t).1.
Proof.
  intros Halive Ht. rewrite executeDAGTemplate_trace. unfold runTasks.
  rewrite runGroup_proj_alive; [by rewrite list_lookup_fmap, Ht|apply TaskG_inj|].
  intros msg Hp. by apply (Halive msg), executeDAGTemplate_Panic.
Qed.


(** An error that a task sent is not lost, and an error that the task
    graph returns was sent by a task. *)
Lemma executeDAGTemplate_error j err :
  EvGo (TaskG j) (EvSend err)
    ∈ (executeDAGTemplate sched exec wf nodeName dag).1 →
  returns (executeDAGTemplate sched exec wf nodeName dag).2 →
  ∃ j' err',
    (executeDAGTemplate sched exec wf nodeName dag).2 = Return (Some err')
    ∧ EvGo (TaskG j') (EvSend err')
      ∈ (executeDAGTemplate sched exec wf nodeName dag).1.
Proof.
  intros Hin (errs & _ & Hsent & -> & _)%executeDAGTemplate_returned.
  rewrite executeDAGTemplate_trace in *.
  assert (err ∈ errs) as Herr
    by (rewrite Hsent; apply list_elem_of_omap; by eexists).
  destruct errs as [|err' errs]; [by apply elem_of_nil in Herr|].
  assert (err' ∈ omap sent_of (runTasks sched exec wf nodeName dag).1)
    as (e & He & Hsent')%list_elem_of_omap by (rewrite <- Hsent; by left).
  apply runTasks_tagged in He as Hshape.
  destruct Hshape as (j' & ? & e' & -> & _). simpl in Hsent'.
  destruct e'; simplify_eq/=. by exists j', err'.
Qed.



End DagCourse.



(** ** The walk as a whole *)

Section WalkFacts.

Variable NodeID : Workflow → string → string.
Variable de : DockerExecutor.
Variable sched : string → nat → list nat.

(** Entering a step list or a task graph is logged, then the composite
    runs with one unit of fuel less for its members. *)
Lemma executeTemplate_steps fuel wf nodeName tmpl groups :
  tContainer tmpl = None → tScript tmpl = None → tSteps tmpl = Some groups →
  executeTemplate NodeID de sched (S fuel) wf nodeName tmpl
  = (EvExec nodeName (tName tmpl)
       :: (executeStepsTemplate sched (executeTemplate NodeID de sched fuel wf)
             wf nodeName groups).1,
     (executeStepsTemplate sched (executeTemplate NodeID de sched fuel wf)
        wf nodeName groups).2).
Proof. intros Hc Hs Hg. cbn [executeTemplate]. by rewrite Hc, Hs, Hg. Qed.

Lemma executeTemplate_dag fuel wf nodeName tmpl dag :
  tContainer tmpl = None → tScript tmpl = None → tSteps tmpl = None →
  tDAG tmpl = Some dag →
  executeTemplate NodeID de sched (S fuel) wf nodeName tmpl
  = (EvExec nodeName (tName tmpl)
       :: (executeDAGTemplate sched (executeTemplate NodeID de sched fuel wf)
             wf nodeName dag).1,
     (executeDAGTemplate sched (executeTemplate NodeID de sched fuel wf)
        wf nodeName dag).2).
Proof. intros Hc Hs Hg Hd. cbn [executeTemplate]. by rewrite Hc, Hs, Hg, Hd. Qed.

(** A script without a command ends the process, whatever the walk was
    doing. *)
Lemma executeTemplate_script_panics fuel wf nodeName tmpl s :
  tContainer tmpl = None → tScript tmpl = Some s → sCommand s = [] →
  executeTemplate NodeID de sched (S fuel) wf nodeName tmpl
  = ([EvExec nodeName (tName tmpl)],
     Panic "runtime error: index out of range [0] with length 0").
Proof.
  intros Hc Hs Hcmd. cbn [executeTemplate]. rewrite Hc, Hs.
  unfold executeScriptTemplate, ExecuteScript. by rewrite Hs, Hcmd.
Qed.

End WalkFacts.

(** The sample run of one container, from submission to the end of the
    walk: with exit code 0 the run succeeds and its node is recorded; when
    the wait fails the run fails with the error text and no node is
    recorded. *)
Example single_run_succeeds :
  let lc := (SubmitWorkflow (Some 1%Z) Sample.empty Sample.single).1 in
  let walk := executeWorkflow Sample.NodeID (Sample.daemon (λ _, WaitStatus 0))
                Sample.inOrder 1 (Some 3%Z) lc 0 in
  walk.2 = Return ()
  ∧ wsPhase <$> statusOf walk.1 0 = Some WorkflowSucceeded
  ∧ (nodesOf walk.1 <$> (GetWorkflow walk.1 "wf").2.1)
    = Some (Some {[ "wf/echo" :=
         {| nID := "wf/echo"; nName := "echo"; nDisplayName := "echo";
            nType := NodeTypePod; nPhase := NodeSucceeded;
            nStartedAt := Some 1%Z; nFinishedAt := Some 2%Z; nMessage := EmptyString;
            nOutputs := Some (logsOutputs "hello");
            nHostNodeName := "argo-wf-echo" |} ]}).
Proof. cbv zeta. split_and!; vm_compute; reflexivity. Qed.

Example single_run_wait_error :
  let lc := (SubmitWorkflow (Some 1%Z) Sample.empty Sample.single).1 in
  let walk := executeWorkflow Sample.NodeID
                (Sample.daemon (λ _, WaitErr (Some "connection lost")))
                Sample.inOrder 1 (Some 3%Z) lc 0 in
  walk.2 = Return ()
  ∧ wsPhase <$> statusOf walk.1 0 = Some WorkflowFailed
  ∧ wsMessage <$> statusOf walk.1 0 = Some "connection lost"
  ∧ (nodesOf walk.1 <$> (GetWorkflow walk.1 "wf").2.1) = Some (Some ∅).
Proof. cbv zeta. split_and!; vm_compute; reflexivity. Qed.

(** ** Enough fuel *)

Lemma findTemplate_elem wf name tmpl :
  findTemplate wf name = Some tmpl → tmpl ∈ Templates (wfSpec wf).
Proof.
  unfold findTemplate. intros [Hin _]%find_some. by apply list_elem_of_In.
Qed.

Section Termination.

Variable NodeID : Workflow → string → string.
Variable de : DockerExecutor.
Variable sched : string → nat → list nat.
Variable wf : Workflow.

(** Every wait of the daemon comes to an end. *)
Hypothesis waits_end : ∀ ID, ContainerWait de ID ≠ WaitNever.

Lemma ExecuteContainer_returns nodeName tmpl :
  ∃ ns err, (ExecuteContainer NodeID de nodeName tmpl wf).2 = Return (ns, err)
    ∧ (is_Some ns ∨ is_Some err).
Proof.
  unfold ExecuteContainer. destruct (tContainer tmpl) as [c|]; [|by eauto 6].
  cbn. destruct (ContainerCreate de _ _ _) as [ID|]; [|by eauto 6].
  cbn. destruct (ContainerStart de ID); [by eauto 6|].
  cbn. pose proof (waits_end ID).
  destruct (ContainerWait de ID) as [[]|code|]; cbn; by eauto 6.
Qed.

Lemma ExecuteScript_returns nodeName tmpl :
  (∀ s, tScript tmpl = Some s → sCommand s ≠ []) →
  ∃ ns err, (ExecuteScript NodeID de nodeName tmpl wf).2 = Return (ns, err)
    ∧ (is_Some ns ∨ is_Some err).
Proof.
  intros Hcmd. unfold ExecuteScript.
  destruct (tScript tmpl) as [s|]; [|by eauto 6].
  specialize (Hcmd s eq_refl).
  destruct (sCommand s) as [|Command0 Command1]; [done|].
  cbn. destruct (ContainerCreate de _ _ _) as [ID|]; [|by eauto 6].
  cbn. destruct (ContainerStart de ID); [by eauto 6|].
  cbn. pose proof (waits_end ID).
  destruct (ContainerWait de ID) as [[]|code|]; cbn; by eauto 6.
Qed.

Lemma executeContainerTemplate_returns nodeName tmpl :
  returns (executeContainerTemplate NodeID de wf nodeName tmpl).2.
Proof.
  unfold executeContainerTemplate, liftCalls, mbind, Exec_bind.
  destruct (ExecuteContainer_returns nodeName tmpl) as (ns & err & Hret & Hsome).
  cbn [snd]. rewrite Hret.
  destruct err as [err|]; [destruct ns; by eexists|].
  destruct ns as [ns|]; [|by destruct Hsome as [[]|[]]].
  cbn. destruct (failedOrError (nPhase ns)); by eexists.
Qed.

Lemma executeScriptTemplate_returns nodeName tmpl :
  (∀ s, tScript tmpl = Some s → sCommand s ≠ []) →
  returns (executeScriptTemplate NodeID de wf nodeName tmpl).2.
Proof.
  intros Hcmd. unfold executeScriptTemplate, liftCalls, mbind, Exec_bind.
  destruct (ExecuteScript_returns nodeName tmpl Hcmd)
    as (ns & err & Hret & Hsome).
  cbn [snd]. rewrite Hret.
  destruct err as [err|]; [destruct ns; by eexists|].
  destruct ns as [ns|]; [|by destruct Hsome as [[]|[]]].
  cbn. destruct (failedOrError (nPhase ns)); by eexists.
Qed.

Lemma stepsFrom_returns exec nodeName i groups :
  (∀ i g s, g ∈ groups → s ∈ Steps g →
     returns (stepBody exec wf nodeName i s).2) →
  returns (stepsFrom sched exec wf nodeName i groups).2.
Proof.
  revert i. induction groups as [|g rest IH]; intros i Hall; [by eexists|].
  destruct (stepsFrom_cons sched exec wf nodeName i g rest)
    as [[_ ->]|[(err & errs & _ & ->)|(Hnot & _)]].
  - apply IH. intros i' g' s Hg' Hs. apply (Hall i' g' s); [by right|done].
  - by eexists.
  - exfalso. apply Hnot. unfold runStepGroup.
    rewrite runGroup_all_return; [by eexists|].
    intros gr (s & -> & Hs)%list_elem_of_fmap. apply goroutine_returns.
    apply (Hall i g s); [by left|done].
Qed.

Lemma executeDAGTemplate_returns exec nodeName dag :
  (∀ t, t ∈ Tasks dag → returns (taskBody exec wf nodeName t).2) →
  returns (executeDAGTemplate sched exec wf nodeName dag).2.
Proof.
  intros Hall.
  destruct (runTasks_all_return sched exec wf nodeName dag Hall)
    as (errs & Hret & _).
  rewrite (executeDAGTemplate_result _ _ _ _ _ _ Hret). by eexists.
Qed.

(** A measure on template names that goes down along every reference, and
    scripts that all have a command. *)
Variable rank : string → nat.

Hypothesis scripts_have_commands :
  ∀ tmpl s, tmpl ∈ Templates (wfSpec wf) → tScript tmpl = Some s →
    sCommand s ≠ [].

Hypothesis steps_go_down :
  ∀ tmpl groups g s tmpl', tmpl ∈ Templates (wfSpec wf) →
    tSteps tmpl = Some groups → g ∈ groups → s ∈ Steps g →
    findTemplate wf (stepTemplate s) = Some tmpl' →
    rank (tName tmpl') < rank (tName tmpl).

Hypothesis tasks_go_down :
  ∀ tmpl dag t tmpl', tmpl ∈ Templates (wfSpec wf) →
    tDAG tmpl = Some dag → t ∈ Tasks dag →
    findTemplate wf (taskTemplate t) = Some tmpl' →
    rank (tName tmpl') < rank (tName tmpl).

(** With more fuel than the rank of the template, the walk of a template
    comes back: it neither panics nor blocks nor runs out of fuel. *)
Lemma executeTemplate_returns fuel nodeName tmpl :
  tmpl ∈ Templates (wfSpec wf) → rank (tName tmpl) < fuel →
  returns (executeTemplate NodeID de sched fuel wf nodeName tmpl).2.
Proof.
  revert nodeName tmpl. induction fuel as [|fuel IH];
    intros nodeName tmpl Hin Hrank; [lia|].
  cbn [executeTemplate]. unfold mbind at 1, Exec_bind at 1. cbn [emit fst snd].
  destruct (tContainer tmpl) as [c|] eqn:Hc;
    [apply executeContainerTemplate_returns|].
  destruct (tScript tmpl) as [s|] eqn:Hs.
  { apply executeScriptTemplate_returns. intros s' Hs'.
    by apply (scripts_have_commands tmpl). }
  destruct (tSteps tmpl) as [groups|] eqn:Hg.
  { unfold executeStepsTemplate. apply stepsFrom_returns.
    intros i g s Hgin Hsin. unfold stepBody.
    destruct (findTemplate wf (stepTemplate s)) as [tmpl'|] eqn:Hfind;
      [|by eexists].
    apply IH; [by eapply findTemplate_elem|].
    pose proof (steps_go_down tmpl groups g s tmpl' Hin Hg Hgin Hsin Hfind).
    lia. }
  destruct (tDAG tmpl) as [dag|] eqn:Hd; [|by eexists].
  apply executeDAGTemplate_returns. intros t Htin. unfold taskBody.
  destruct (findTemplate wf (taskTemplate t)) as [tmpl'|] eqn:Hfind;
    [|by eexists].
  apply IH; [by eapply findTemplate_elem|].
  pose proof (tasks_go_down tmpl dag t tmpl' Hin Hd Htin Hfind). lia.
Qed.

End Termination.

(** The sample step list satisfies the conditions: two units of fuel are
    enough for its walk to come back. *)
Example staged_walk_returns (nodeName : string) (tmpl : Template) :
  tmpl ∈ Templates (wfSpec Sample.staged) →
  returns (executeTemplate Sample.NodeID (Sample.daemon Sample.scriptFails)
             Sample.alternate 2 Sample.staged nodeName tmpl).2.
Proof.
  intros Hin.
  apply (executeTemplate_returns Sample.NodeID (Sample.daemon Sample.scriptFails)
           Sample.alternate Sample.staged) with (rank := Sample.rank).
  - intros ID. cbn. unfold Sample.scriptFails. by repeat case_bool_decide.
  - intros tm s Htm Hs.
    repeat (apply elem_of_cons in Htm as [->|Htm]);
      [..|by apply elem_of_nil in Htm]; by simplify_eq/=.
  - intros tm groups g s tm' Htm Hsteps Hg Hs Hfind.
    repeat (apply elem_of_cons in Htm as [->|Htm]);
      [..|by apply elem_of_nil in Htm]; simplify_eq/=.
    repeat (apply elem_of_cons in Hg as [->|Hg]);
      [..|by apply elem_of_nil in Hg]; simpl in Hs;
      repeat (apply elem_of_cons in Hs as [->|Hs]);
      try (by apply elem_of_nil in Hs);
      vm_compute in Hfind; simplify_eq; vm_compute; lia.
  - intros tm dag t tm' Htm Hdag Ht Hfind.
    repeat (apply elem_of_cons in Htm as [->|Htm]);
      [..|by apply elem_of_nil in Htm]; by simplify_eq/=.
  - done.
  - repeat (apply elem_of_cons in Hin as [->|Hin]);
      [..|by apply elem_of_nil in Hin]; vm_compute; lia.
Qed.

(** ** Listing the runs *)

(** [ListWorkflows] returns, for every registered name, the stored workflow
    value with the stored status, as [GetWorkflow] does. *)
Lemma ListWorkflows_values (lc : LocalController) :
  (ListWorkflows lc).2
  = omap (λ entry : string * nat, weWorkflow <$> executions lc !! entry.2)
      (map_to_list (workflows lc)).
Proof.
  unfold ListWorkflows.
  assert (∀ entries maps wfs,
    (foldl (λ '(maps, wfs) (entry : string * nat),
              match executions lc !! entry.2 with
              | None => (maps, wfs)
              | Some wfExec =>
                  let '(maps, wf) := copyWithStatus maps wfExec in
                  (maps, wfs ++ [wf])
              end) (maps, wfs) entries).2
    = wfs ++ omap (λ entry : string * nat,
                     weWorkflow <$> executions lc !! entry.2) entries) as Hfold.
  { induction entries as [|entry entries IH]; intros maps wfs; simpl.
    - by rewrite app_nil_r.
    - destruct (executions lc !! entry.2) as [wfExec|]; simpl; [|apply IH].
      destruct (copyWithStatus_eq maps wfExec) as [dropped ->].
      rewrite IH. by rewrite <- app_assoc. }
  specialize (Hfold (map_to_list (workflows lc)) (nodeMaps lc) []).
  destruct (foldl _ _ _) as [maps wfs]. simpl in *. done.
Qed.

(** * Further properties of the adapter *)

Section AdapterInvariants.

Variable NodeID : Workflow → string → string.
Variable de : DockerExecutor.
Variables (nodeName : string) (tmpl : Template) (wf : Workflow).

Lemma ExecuteContainer_calls (c : Container) :
  tContainer tmpl = Some c →
  ∃ ID, ((ExecuteContainer NodeID de nodeName tmpl wf).1
          `prefix_of` unitCalls (containerNameOf wf nodeName)
                        (containerConfigOf tmpl c wf nodeName) (hostConfigOf c wf) ID
          ∨ (ExecuteContainer NodeID de nodeName tmpl wf).1
            = [ CallCreate (containerNameOf wf nodeName)
                  (containerConfigOf tmpl c wf nodeName) (hostConfigOf c wf);
                CallStart ID; CallWait ID; CallRemove ID true ])
    ∧ ∀ ID', ContainerCreate de (containerConfigOf tmpl c wf nodeName)
               (hostConfigOf c wf) (containerNameOf wf nodeName) = inl ID' →
             ID' = ID.
Proof.
  intros Hc. unfold ExecuteContainer, unitCalls. rewrite Hc. cbn.
  destruct (ContainerCreate de _ _ _) as [ID|err].
  - exists ID. split; [|congruence]. cbn.
    destruct (ContainerStart de ID); cbn;
      [left; repeat apply prefix_cons; apply prefix_nil|].
    destruct (ContainerWait de ID) as [[]|code|]; cbn;
      first [by right | left; repeat apply prefix_cons; apply prefix_nil].
  - exists EmptyString. split; [|done].
    left. repeat apply prefix_cons; apply prefix_nil.
Qed.

Lemma ExecuteScript_calls (s : ScriptTemplate) (Command0 : string) :
  tScript tmpl = Some s → sCommand s !! 0 = Some Command0 →
  ∃ ID, ((ExecuteScript NodeID de nodeName tmpl wf).1
          `prefix_of` unitCalls (containerNameOf wf nodeName)
                        (scriptConfigOf tmpl s wf nodeName Command0)
                        scriptHostConfig ID
          ∨ (ExecuteScript NodeID de nodeName tmpl wf).1
            = [ CallCreate (containerNameOf wf nodeName)
                  (scriptConfigOf tmpl s wf nodeName Command0) scriptHostConfig;
                CallStart ID; CallWait ID; CallRemove ID true ])
    ∧ ∀ ID', ContainerCreate de (scriptConfigOf tmpl s wf nodeName Command0)
               scriptHostConfig (containerNameOf wf nodeName) = inl ID' →
             ID' = ID.
Proof.
  intros Hs H0. unfold ExecuteScript, unitCalls. rewrite Hs, H0. cbn.
  destruct (ContainerCreate de _ _ _) as [ID|err].
  - exists ID. split; [|congruence]. cbn.
    destruct (ContainerStart de ID); cbn;
      [left; repeat apply prefix_cons; apply prefix_nil|].
    destruct (ContainerWait de ID) as [[]|code|]; cbn;
      first [by right | left; repeat apply prefix_cons; apply prefix_nil].
  - exists EmptyString. split; [|done].
    left. repeat apply prefix_cons; apply prefix_nil.
Qed.

(** What holds of every pair of status and error the adapter returns. *)
Lemma ExecuteContainer_result ns err :
  (ExecuteContainer NodeID de nodeName tmpl wf).2 = Return (ns, err) →
  (ns = None → is_Some err)
  ∧ ∀ st, ns = Some st →
      statusOfNode NodeID wf nodeName st
      ∧ nPhase st ≠ NodePending
      ∧ (is_Some err ↔ nPhase st = NodeError)
      ∧ (nPhase st = NodeError → err = Some (nMessage st))
      ∧ (nPhase st = NodeSucceeded → nMessage st = EmptyString)
      ∧ (nPhase st = NodeRunning → nOutputs st = None ∧ nFinishedAt st = None).
Proof.
  unfold ExecuteContainer, statusOfNode.
  destruct (tContainer tmpl) as [c|]; [|intros [= <- <-]; by eauto].
  cbn. destruct (ContainerCreate de _ _ _) as [ID|];
    [|intros [= <- <-]; by eauto].
  cbn. destruct (ContainerStart de ID); [intros [= <- <-]; by eauto|].
  cbn. destruct (ContainerWait de ID) as [[e|]|code|]; cbn; [..|done];
    intros [= <- <-]; (split; [done|]); intros st [= <-];
    try destruct (ContainerLogs de ID); try case_bool_decide; cbn;
    split_and!; try done;
    (split; [first [by intros [? ?] | done] | first [by eauto | done]]).
Qed.

Lemma ExecuteScript_result ns err :
  (ExecuteScript NodeID de nodeName tmpl wf).2 = Return (ns, err) →
  (ns = None → is_Some err)
  ∧ ∀ st, ns = Some st →
      statusOfNode NodeID wf nodeName st
      ∧ nPhase st ≠ NodePending
      ∧ (is_Some err ↔ nPhase st = NodeError)
      ∧ (nPhase st = NodeError → err = Some (nMessage st))
      ∧ (nPhase st = NodeSucceeded → nMessage st = EmptyString)
      ∧ (nPhase st = NodeRunning → nOutputs st = None ∧ nFinishedAt st = None).
Proof.
  unfold ExecuteScript, statusOfNode.
  destruct (tScript tmpl) as [s|]; [|intros [= <- <-]; by eauto].
  destruct (sCommand s !! 0) as [Command0|]; [|done].
  cbn. destruct (ContainerCreate de _ _ _) as [ID|];
    [|intros [= <- <-]; by eauto].
  cbn. destruct (ContainerStart de ID); [intros [= <- <-]; by eauto|].
  cbn. destruct (ContainerWait de ID) as [[e|]|code|]; cbn; [..|done];
    intros [= <- <-]; (split; [done|]); intros st [= <-];
    try destruct (ContainerLogs de ID); try case_bool_decide; cbn;
    split_and!; try done;
    (split; [first [by intros [? ?] | done] | first [by eauto | done]]).
Qed.

End AdapterInvariants.

(** X1. Whatever the daemon answers, the calls of the adapter for a unit
    are an initial part of: create under the unit's name, start, wait,
    read the output, remove by force, all on the identifier that the
    creation returned; or they are create, start, wait, remove, when the
    error channel of the wait delivers nil. So no call is made on another
    unit, nothing is started before it is created or removed before it was
    waited for, and nothing is called twice. Without the spec of its kind
    the template is refused before any call. *)
Theorem adapter_calls_in_order
    (NodeID : Workflow → string → string) (de : DockerExecutor)
    (nodeName : string) (tmpl : Template) (wf : Workflow) :
  (∀ c, tContainer tmpl = Some c →
     ∃ ID, ((ExecuteContainer NodeID de nodeName tmpl wf).1
             `prefix_of` unitCalls (containerNameOf wf nodeName)
                           (containerConfigOf tmpl c wf nodeName)
                           (hostConfigOf c wf) ID
             ∨ (ExecuteContainer NodeID de nodeName tmpl wf).1
               = [ CallCreate (containerNameOf wf nodeName)
                     (containerConfigOf tmpl c wf nodeName) (hostConfigOf c wf);
                   CallStart ID; CallWait ID; CallRemove ID true ])
       ∧ ∀ ID', ContainerCreate de (containerConfigOf tmpl c wf nodeName)
                  (hostConfigOf c wf) (containerNameOf wf nodeName) = inl ID' →
                ID' = ID)
  ∧ (∀ s Command0, tScript tmpl = Some s → sCommand s !! 0 = Some Command0 →
     ∃ ID, ((ExecuteScript NodeID de nodeName tmpl wf).1
             `prefix_of` unitCalls (containerNameOf wf nodeName)
                           (scriptConfigOf tmpl s wf nodeName Command0)
                           scriptHostConfig ID
             ∨ (ExecuteScript NodeID de nodeName tmpl wf).1
               = [ CallCreate (containerNameOf wf nodeName)
                     (scriptConfigOf tmpl s wf nodeName Command0)
                     scriptHostConfig;
                   CallStart ID; CallWait ID; CallRemove ID true ])
       ∧ ∀ ID', ContainerCreate de (scriptConfigOf tmpl s wf nodeName Command0)
                  scriptHostConfig (containerNameOf wf nodeName) = inl ID' →
                ID' = ID)
  ∧ (tContainer tmpl = None →
     ExecuteContainer NodeID de nodeName tmpl wf
     = ([], Return (None, Some ("template " +:+ tName tmpl
                                +:+ " does not have a container spec"))))
  ∧ (tScript tmpl = None →
     ExecuteScript NodeID de nodeName tmpl wf
     = ([], Return (None, Some ("template " +:+ tName tmpl
                                +:+ " does not have a script spec")))).
Proof.
  split_and!.
  - apply ExecuteContainer_calls.
  - apply ExecuteScript_calls.
  - intros Hc. unfold ExecuteContainer. by rewrite Hc.
  - intros Hs. unfold ExecuteScript. by rewrite Hs.
Qed.

Lemma adapter_calls_in_order_witness :
  ∃ ID, (ExecuteContainer Sample.NodeID
           (Sample.daemon (λ _, WaitErr (Some "connection lost")))
           "echo" Sample.echo Sample.single).1
          `prefix_of` unitCalls (containerNameOf Sample.single "echo")
                        (containerConfigOf Sample.echo
                           {| cImage := "alpine"; cCommand := ["echo"];
                              cArgs := ["hello"]; cWorkingDir := EmptyString;
                              cEnv := [ {| EnvName := "ARGO_NODE_NAME";
                                           EnvValue := "mine" |} ];
                              cVolumeMounts := [] |} Sample.single "echo")
                        (hostConfigOf
                           {| cImage := "alpine"; cCommand := ["echo"];
                              cArgs := ["hello"]; cWorkingDir := EmptyString;
                              cEnv := [ {| EnvName := "ARGO_NODE_NAME";
                                           EnvValue := "mine" |} ];
                              cVolumeMounts := [] |} Sample.single) ID
    ∧ ID = "id-argo-wf-echo".
Proof.
  destruct (adapter_calls_in_order Sample.NodeID
              (Sample.daemon (λ _, WaitErr (Some "connection lost")))
              "echo" Sample.echo Sample.single) as (H & _).
  destruct (H _ eq_refl) as (ID & [Hprefix|Hfour] & HID).
  - exists ID. split; [exact Hprefix|]. symmetry. apply HID. reflexivity.
  - discriminate Hfour.
Defined.

(** X2. Every result of the adapter is a status, an error, or both. A
    returned status names its node (identifier, name, display name, kind
    of node, name of the unit) and is never Pending; an error comes with a
    status exactly when the phase is Error, and then the message is the
    error text; a Succeeded status has no message; a status still Running
    (the error channel delivered nil) has no output and no finish time. *)
Theorem adapter_result_invariant
    (NodeID : Workflow → string → string) (de : DockerExecutor)
    (nodeName : string) (tmpl : Template) (wf : Workflow)
    (ns : option NodeStatus) (err : option error) :
  (ExecuteContainer NodeID de nodeName tmpl wf).2 = Return (ns, err)
  ∨ (ExecuteScript NodeID de nodeName tmpl wf).2 = Return (ns, err) →
  (ns = None → is_Some err)
  ∧ ∀ st, ns = Some st →
      statusOfNode NodeID wf nodeName st
      ∧ nPhase st ≠ NodePending
      ∧ (is_Some err ↔ nPhase st = NodeError)
      ∧ (nPhase st = NodeError → err = Some (nMessage st))
      ∧ (nPhase st = NodeSucceeded → nMessage st = EmptyString)
      ∧ (nPhase st = NodeRunning → nOutputs st = None ∧ nFinishedAt st = None).
Proof.
  intros [H|H]; [by eapply ExecuteContainer_result|by eapply ExecuteScript_result].
Qed.

Lemma adapter_result_invariant_witness :
  statusOfNode Sample.NodeID Sample.single "echo"
    (with_result
       (initialNodeStatus Sample.NodeID Sample.single "echo" "argo-wf-echo"
          (Some 1%Z)) NodeError "connection lost")
  ∧ nPhase (with_result
              (initialNodeStatus Sample.NodeID Sample.single "echo"
                 "argo-wf-echo" (Some 1%Z)) NodeError "connection lost")
    ≠ NodePending.
Proof.
  destruct (adapter_result_invariant Sample.NodeID
              (Sample.daemon (λ _, WaitErr (Some "connection lost")))
              "echo" Sample.echo Sample.single _ _ (or_introl eq_refl))
    as [_ H].
  destruct (H _ eq_refl) as (Hnode & Hpending & _). split; assumption.
Defined.

(** X3. A unit that cannot be created costs one call; a unit that was
    created and cannot be started costs two, and is not removed: the
    adapter returns after the failed start with the error
    ["failed to start container: <cause>"] and no status, leaving the
    created unit behind. The same holds for a script. *)
Theorem start_failure_leaves_unit
    (NodeID : Workflow → string → string) (de : DockerExecutor)
    (nodeName : string) (tmpl : Template) (wf : Workflow)
    (ID : string) (cause : error) :
  ContainerStart de ID = Some cause →
  (∀ c, tContainer tmpl = Some c →
     ContainerCreate de (containerConfigOf tmpl c wf nodeName) (hostConfigOf c wf)
       (containerNameOf wf nodeName) = inl ID →
     ExecuteContainer NodeID de nodeName tmpl wf
     = ([ CallCreate (containerNameOf wf nodeName)
            (containerConfigOf tmpl c wf nodeName) (hostConfigOf c wf);
          CallStart ID ],
        Return (None, Some ("failed to start container: " +:+ cause))))
  ∧ (∀ s Command0, tScript tmpl = Some s → sCommand s !! 0 = Some Command0 →
     ContainerCreate de (scriptConfigOf tmpl s wf nodeName Command0)
       scriptHostConfig (containerNameOf wf nodeName) = inl ID →
     ExecuteScript NodeID de nodeName tmpl wf
     = ([ CallCreate (containerNameOf wf nodeName)
            (scriptConfigOf tmpl s wf nodeName Command0) scriptHostConfig;
          CallStart ID ],
        Return (None, Some ("failed to start container: " +:+ cause)))).
Proof.
  intros Hstart. split.
  - intros c Hc Hcreate. unfold ExecuteContainer. rewrite Hc. cbn.
    rewrite Hcreate. cbn. by rewrite Hstart.
  - intros s Command0 Hs H0 Hcreate. unfold ExecuteScript. rewrite Hs, H0. cbn.
    rewrite Hcreate. cbn. by rewrite Hstart.
Qed.

Lemma start_failure_leaves_unit_witness :
  filter isRemove
    (ExecuteContainer Sample.NodeID
       (withRemove
          {| ContainerCreate := λ _ _ name, inl ("id-" +:+ name);
             ContainerStart := λ _, Some "no such image";
             ContainerWait := λ _, WaitStatus 0;
             ContainerLogs := λ _, inl "hello";
             ContainerRemove := λ _ _, None;
             NowStarted := λ _, None; NowFinished := λ _, None |}
          (λ _ _, None))
       "echo" Sample.echo Sample.single).1 = [].
Proof.
  destruct (start_failure_leaves_unit Sample.NodeID
              (withRemove
                 {| ContainerCreate := λ _ _ name, inl ("id-" +:+ name);
                    ContainerStart := λ _, Some "no such image";
                    ContainerWait := λ _, WaitStatus 0;
                    ContainerLogs := λ _, inl "hello";
                    ContainerRemove := λ _ _, None;
                    NowStarted := λ _, None; NowFinished := λ _, None |}
                 (λ _ _, None))
              "echo" Sample.echo Sample.single "id-argo-wf-echo" "no such image"
              eq_refl) as [H _].
  rewrite (H _ eq_refl eq_refl). reflexivity.
Defined.

Section OutputFacts.

Variable NodeID : Workflow → string → string.
Variable de : DockerExecutor.
Variables (nodeName : string) (tmpl : Template) (wf : Workflow).

Lemma ExecuteContainer_logs_ignored (lg : string → string + error) :
  (ExecuteContainer NodeID (withLogs de lg) nodeName tmpl wf).1
  = (ExecuteContainer NodeID de nodeName tmpl wf).1
  ∧ withoutOutputs (ExecuteContainer NodeID (withLogs de lg) nodeName tmpl wf).2
    = withoutOutputs (ExecuteContainer NodeID de nodeName tmpl wf).2.
Proof.
  unfold ExecuteContainer. destruct (tContainer tmpl) as [c|]; [|done].
  cbn. destruct (ContainerCreate de _ _ _) as [ID|]; [|done].
  cbn. destruct (ContainerStart de ID); [done|].
  cbn. destruct (ContainerWait de ID) as [[]|code|]; [done..| |done].
  cbn. by destruct (lg ID), (ContainerLogs de ID).
Qed.

Lemma ExecuteScript_logs_ignored (lg : string → string + error) :
  (ExecuteScript NodeID (withLogs de lg) nodeName tmpl wf).1
  = (ExecuteScript NodeID de nodeName tmpl wf).1
  ∧ withoutOutputs (ExecuteScript NodeID (withLogs de lg) nodeName tmpl wf).2
    = withoutOutputs (ExecuteScript NodeID de nodeName tmpl wf).2.
Proof.
  unfold ExecuteScript. destruct (tScript tmpl) as [s|]; [|done].
  destruct (sCommand s !! 0) as [Command0|]; [|done].
  cbn. destruct (ContainerCreate de _ _ _) as [ID|]; [|done].
  cbn. destruct (ContainerStart de ID); [done|].
  cbn. destruct (ContainerWait de ID) as [[]|code|]; [done..| |done].
  cbn. by destruct (lg ID), (ContainerLogs de ID).
Qed.

Lemma ExecuteContainer_outputs ns err :
  (ExecuteContainer NodeID de nodeName tmpl wf).2 = Return (Some ns, err) →
  nOutputs ns = None
  ∨ ∃ ID logs, ContainerLogs de ID = inl logs
      ∧ nOutputs ns = Some {| oParameters :=
                                [ {| pName := "logs"; pValue := Some logs |} ] |}.
Proof.
  unfold ExecuteContainer. destruct (tContainer tmpl) as [c|]; [|done].
  cbn. destruct (ContainerCreate de _ _ _) as [ID|]; [|done].
  cbn. destruct (ContainerStart de ID); [done|].
  cbn. destruct (ContainerWait de ID) as [[]|code|]; cbn;
    [intros [= <- <-]; by left..| |done].
  destruct (ContainerLogs de ID) as [logs|] eqn:Hlogs; intros [= <- <-].
  - right. by exists ID, logs.
  - left. by case_bool_decide.
Qed.

Lemma ExecuteScript_outputs ns err :
  (ExecuteScript NodeID de nodeName tmpl wf).2 = Return (Some ns, err) →
  nOutputs ns = None
  ∨ ∃ ID logs, ContainerLogs de ID = inl logs
      ∧ nOutputs ns = Some {| oParameters :=
                                [ {| pName := "logs"; pValue := Some logs |} ] |}.
Proof.
  unfold ExecuteScript. destruct (tScript tmpl) as [s|]; [|done].
  destruct (sCommand s !! 0) as [Command0|]; [|done].
  cbn. destruct (ContainerCreate de _ _ _) as [ID|]; [|done].
  cbn. destruct (ContainerStart de ID); [done|].
  cbn. destruct (ContainerWait de ID) as [[]|code|]; cbn;
    [intros [= <- <-]; by left..| |done].
  destruct (ContainerLogs de ID) as [logs|] eqn:Hlogs; intros [= <- <-].
  - right. by exists ID, logs.
  - left. by case_bool_decide.
Qed.

End OutputFacts.

(** X4. Reading the output of a unit is not fatal: whatever the daemon
    answers to the request for the logs, the adapter makes the same calls
    and returns the same error and the same status but for the captured
    output; and the captured output of a returned status is either absent
    or the single entry named [logs] that holds the text the daemon
    delivered. *)
Theorem log_capture_not_fatal
    (NodeID : Workflow → string → string) (de : DockerExecutor)
    (lg : string → string + error)
    (nodeName : string) (tmpl : Template) (wf : Workflow) :
  (ExecuteContainer NodeID (withLogs de lg) nodeName tmpl wf).1
    = (ExecuteContainer NodeID de nodeName tmpl wf).1
  ∧ withoutOutputs (ExecuteContainer NodeID (withLogs de lg) nodeName tmpl wf).2
    = withoutOutputs (ExecuteContainer NodeID de nodeName tmpl wf).2
  ∧ (ExecuteScript NodeID (withLogs de lg) nodeName tmpl wf).1
    = (ExecuteScript NodeID de nodeName tmpl wf).1
  ∧ withoutOutputs (ExecuteScript NodeID (withLogs de lg) nodeName tmpl wf).2
    = withoutOutputs (ExecuteScript NodeID de nodeName tmpl wf).2
  ∧ ∀ ns err,
      (ExecuteContainer NodeID de nodeName tmpl wf).2 = Return (Some ns, err)
      ∨ (ExecuteScript NodeID de nodeName tmpl wf).2 = Return (Some ns, err) →
      nOutputs ns = None
      ∨ ∃ ID logs, ContainerLogs de ID = inl logs
          ∧ nOutputs ns
            = Some {| oParameters :=
                        [ {| pName := "logs"; pValue := Some logs |} ] |}.
Proof.
  destruct (ExecuteContainer_logs_ignored NodeID de nodeName tmpl wf lg)
    as [Hc1 Hc2].
  destruct (ExecuteScript_logs_ignored NodeID de nodeName tmpl wf lg)
    as [Hs1 Hs2].
  split_and!; try done.
  intros ns err [H|H];
    [by eapply ExecuteContainer_outputs|by eapply ExecuteScript_outputs].
Qed.

Lemma log_capture_not_fatal_witness :
  ∃ ns, (ExecuteContainer Sample.NodeID
           (withLogs (Sample.daemon (λ _, WaitStatus 0)) (λ _, inr "gone"))
           "echo" Sample.echo Sample.single).2 = Return (Some ns, None)
    ∧ nPhase ns = NodeSucceeded ∧ nOutputs ns = None.
Proof.
  destruct (log_capture_not_fatal Sample.NodeID
              (withLogs (Sample.daemon (λ _, WaitStatus 0)) (λ _, inr "gone"))
              (λ _, inr "gone") "echo" Sample.echo Sample.single)
    as (_ & _ & _ & _ & H).
  eexists. split; [reflexivity|]. split; [reflexivity|].
  destruct (H _ None (or_introl eq_refl)) as [Hnone|(ID & logs & Hlogs & _)].
  - exact Hnone.
  - discriminate Hlogs.
Defined.

Lemma bindMounts_fold (wf : Workflow) (vms : list VolumeMount)
    (acc : list Mount) :
  foldl (λ mounts vm, mounts ++
           [ {| mType := "bind";
                mSource := "/tmp/argo-local/" +:+ wfName wf
                           +:+ "/" +:+ vmName vm;
                mTarget := vmMountPath vm |} ]) acc vms
  = acc ++ ((λ vm, {| mType := "bind";
                      mSource := "/tmp/argo-local/" +:+ wfName wf
                                 +:+ "/" +:+ vmName vm;
                      mTarget := vmMountPath vm |}) <$> vms).
Proof.
  revert acc. induction vms as [|vm vms IH]; intros acc; simpl;
    [by rewrite app_nil_r|]. rewrite IH. by rewrite <- app_assoc.
Qed.

(** X5. The command of a container's unit is the template's command
    followed by its arguments; the command of a script's unit is the
    template's command followed by [-c] and the source; each volume mount
    of a container becomes one bind mount, in order, from
    [/tmp/argo-local/<run>/<volume>] to the mount path; a script's unit
    has no mounts; neither unit is removed by the daemon on exit. *)
Theorem unit_configuration
    (tmpl : Template) (wf : Workflow) (nodeName : string) :
  (∀ c, Cmd (containerConfigOf tmpl c wf nodeName) = cCommand c ++ cArgs c
        ∧ Mounts (hostConfigOf c wf)
          = (λ vm, {| mType := "bind";
                      mSource := "/tmp/argo-local/" +:+ wfName wf
                                 +:+ "/" +:+ vmName vm;
                      mTarget := vmMountPath vm |}) <$> cVolumeMounts c
        ∧ AutoRemove (hostConfigOf c wf) = false)
  ∧ (∀ s Command0, sCommand s !! 0 = Some Command0 →
       Cmd (scriptConfigOf tmpl s wf nodeName Command0)
       = sCommand s ++ ["-c"; sSource s])
  ∧ Mounts scriptHostConfig = [] ∧ AutoRemove scriptHostConfig = false.
Proof.
  split_and!; try done.
  - intros c. split_and!; [| |done].
    + cbn. case_bool_decide; [done|].
      destruct (cArgs c); [by rewrite app_nil_r|simpl in *; lia].
    + cbn. case_bool_decide as Hlen.
      * by rewrite bindMounts_fold.
      * destruct (cVolumeMounts c); [done|simpl in *; lia].
  - intros s Command0 H0. cbn. destruct (sCommand s) as [|x Command1]; [done|].
    simplify_eq/=. case_bool_decide; [done|].
    destruct Command1; [done|simpl in *; lia].
Qed.

Lemma unit_configuration_witness :
  Cmd (scriptConfigOf (Sample.script ["python"; "-u"])
         {| sImage := "python"; sCommand := ["python"; "-u"];
            sWorkingDir := EmptyString; sEnv := []; sSource := "print(1)" |}
         Sample.single "script" "python")
  = ["python"; "-u"; "-c"; "print(1)"].
Proof.
  destruct (unit_configuration (Sample.script ["python"; "-u"]) Sample.single
              "script") as (_ & H & _).
  rewrite (H {| sImage := "python"; sCommand := ["python"; "-u"];
                sWorkingDir := EmptyString; sEnv := [];
                sSource := "print(1)" |} "python" eq_refl).
  reflexivity.
Defined.

(** * Further properties of the orchestrator *)

(** ** The store under a walk *)

Lemma statusOf_update lc p f q :
  statusOf (update_execution lc p f) q
  = if decide (p = q) then f <$> statusOf lc q else statusOf lc q.
Proof.
  unfold statusOf, update_execution. cbn. rewrite list_lookup_alter.
  case_decide; [subst|done]. by destruct (executions lc !! q) as [[wf]|].
Qed.

Lemma executions_update lc p f q :
  executions (update_execution lc p f) !! q
  = if decide (p = q) then with_status f <$> executions lc !! q
    else executions lc !! q.
Proof.
  unfold update_execution. cbn. rewrite list_lookup_alter.
  by case_decide; subst.
Qed.

Lemma set_Nodes_same st r :
  wsNodes st = Some r → set_Nodes (Some r) st = st.
Proof. destruct st. cbn. by intros ->. Qed.

(** The start of a walk on a run of the store. *)
Lemma walkStart_valid lc p wfExec :
  executions lc !! p = Some wfExec →
  ∃ r,
    executions (walkStart lc p) !! p
    = Some (with_status
              (λ st, set_Nodes (Some r) (set_Phase WorkflowRunning st)) wfExec)
    ∧ (wsNodes (wfStatus (weWorkflow wfExec)) = Some r
         ∧ nodeMaps (walkStart lc p) = nodeMaps lc
       ∨ wsNodes (wfStatus (weWorkflow wfExec)) = None
         ∧ r = length (nodeMaps lc)
         ∧ nodeMaps (walkStart lc p) = nodeMaps lc ++ [∅])
    ∧ workflows (walkStart lc p) = workflows lc
    ∧ spawned (walkStart lc p) = spawned lc
    ∧ length (executions (walkStart lc p)) = length (executions lc)
    ∧ ∀ q, q ≠ p → executions (walkStart lc p) !! q = executions lc !! q.
Proof.
  intros Hp.
  assert (statusOf lc p = Some (wfStatus (weWorkflow wfExec))) as Hst
    by (unfold statusOf; by rewrite Hp).
  unfold walkStart. rewrite statusOf_update, decide_True, Hst by done. cbn.
  destruct (wsNodes (wfStatus (weWorkflow wfExec))) as [r|] eqn:Hr;
    unfold update_execution; cbn.
  - exists r. rewrite list_lookup_alter, decide_True, Hp by done.
    split_and!; [|by left|done|done|apply length_alter|].
    + cbn. unfold with_status. do 3 f_equal.
      destruct (wfStatus (weWorkflow wfExec)). cbn in *. by subst.
    + intros q Hq. by rewrite list_lookup_alter_ne.
  - exists (length (nodeMaps lc)).
    rewrite !list_lookup_alter, !decide_True, Hp by done.
    split_and!; [done|by right|done|done|by rewrite !length_alter|].
    intros q Hq. by rewrite !list_lookup_alter_ne.
Qed.

Lemma walkStart_invalid lc p :
  executions lc !! p = None → walkStart lc p = lc.
Proof.
  intros Hp. unfold walkStart. rewrite statusOf_update, decide_True by done.
  unfold statusOf. rewrite Hp. cbn. unfold update_execution.
  destruct lc as [ws es ms sp]. cbn in *. f_equal.
  apply list_eq. intros q. rewrite list_lookup_alter.
  case_decide; [subst; by rewrite Hp|done].
Qed.

(** The writes of a trace, applied to a node map in order. *)
Lemma applyEvents_writes lc p tr r :
  statusOf lc p ≫= wsNodes = Some r →
  applyEvents lc p tr = Some (alterNodes lc r (applyWrites (omap writeOf tr))).
Proof.
  unfold alterNodes, applyWrites.
  assert (∀ e lc, statusOf lc p ≫= wsNodes = Some r →
    applyEvent lc p e
    = Some {| workflows := workflows lc; executions := executions lc;
              nodeMaps :=
                alter (λ m, from_option (λ w : string * NodeStatus,
                                           <[w.1 := w.2]> m) m (writeOf e))
                  r (nodeMaps lc);
              spawned := spawned lc |}) as Hone.
  { intros e. induction e as [| | | | | |g e IHe]; intros lc0 Hr; cbn;
      try (rewrite list_alter_id by done; by destruct lc0).
    - unfold writeNodeStatus.
      destruct (statusOf lc0 p) as [st|]; [|done]. cbn in *. by rewrite Hr.
    - by apply IHe. }
  revert lc. induction tr as [|e tr IH]; intros lc Hr.
  - cbn. rewrite list_alter_id by done. by destruct lc.
  - cbn [applyEvents]. rewrite (Hone e lc Hr). cbn.
    rewrite IH by done. cbn. f_equal. f_equal.
    rewrite list_alter_alter_eq. apply list_alter_ext; [|done].
    intros m _. cbn.
    change (omap writeOf (e :: tr)) with
      (match writeOf e with Some w => w :: omap writeOf tr
                          | None => omap writeOf tr end).
    by destruct (writeOf e).
Qed.

(** ** Units of work under the orchestrator *)

Lemma writeOf_calls (cs : list call) : omap writeOf (EvCall <$> cs) = [].
Proof. induction cs as [|c cs IH]; [done|]. exact IH. Qed.

Lemma writeOf_calls_write (cs : list call) ID ns :
  omap writeOf ((EvCall <$> cs) ++ [EvWrite ID ns]) = [(ID, ns)].
Proof. by rewrite omap_app, writeOf_calls. Qed.

Section Leaves.

Variable NodeID : Workflow → string → string.
Variable de : DockerExecutor.
Variables (wf : Workflow) (nodeName : string) (tmpl : Template).

Lemma executeContainerTemplate_cases :
  let run := executeContainerTemplate NodeID de wf nodeName tmpl in
  (run.2 = Blocked ∧ omap writeOf run.1 = [])
  ∨ (∃ err, run.2 = Return (Some err) ∧ omap writeOf run.1 = [])
  ∨ (∃ ns, omap writeOf run.1 = [(NodeID wf nodeName, ns)]
       ∧ statusOfNode NodeID wf nodeName ns
       ∧ (nPhase ns = NodeFailed
            ∧ run.2 = Return (Some ("container execution failed: "
                                    +:+ nMessage ns))
          ∨ (nPhase ns = NodeSucceeded ∨ nPhase ns = NodeRunning)
            ∧ run.2 = Return None)).
Proof.
  cbv zeta. unfold executeContainerTemplate, liftCalls, mbind, Exec_bind.
  pose proof (ExecuteContainer_result NodeID de nodeName tmpl wf) as Hinv.
  destruct (ExecuteContainer NodeID de nodeName tmpl wf)
    as [calls [[ns err]|msg| |]] eqn:Hrun; cbn [fst snd].
  - destruct (Hinv ns err eq_refl) as [Hnone Hsome].
    destruct err as [err|].
    { right; left. exists err. destruct ns; cbn; by rewrite app_nil_r, writeOf_calls. }
    destruct ns as [ns|]; [|by destruct (Hnone eq_refl)].
    destruct (Hsome ns eq_refl) as (Hnode & Hpending & Herr & _).
    right; right. exists ns. cbn.
    assert (nID ns = NodeID wf nodeName) as HID by apply Hnode.
    assert (nPhase ns ≠ NodeError) as Hne.
    { intros Hph. apply Herr in Hph as [? ?]. done. }
    unfold failedOrError.
    destruct (nPhase ns) eqn:Hph; cbn; rewrite ?app_nil_r, <- ?app_assoc; cbn;
      rewrite HID;
      (split; [apply writeOf_calls_write|]); (split; [done|]); by eauto.
  - exfalso. revert Hrun. unfold ExecuteContainer.
    destruct (tContainer tmpl); [|done].
    cbn. destruct (ContainerCreate de _ _ _) as [ID|]; [|done].
    cbn. destruct (ContainerStart de ID); [done|].
    cbn. by destruct (ContainerWait de ID) as [[]| |].
  - left. split; [done|apply writeOf_calls].
  - exfalso. revert Hrun. unfold ExecuteContainer.
    destruct (tContainer tmpl); [|done].
    cbn. destruct (ContainerCreate de _ _ _) as [ID|]; [|done].
    cbn. destruct (ContainerStart de ID); [done|].
    cbn. by destruct (ContainerWait de ID) as [[]| |].
Qed.

Lemma executeScriptTemplate_cases :
  let run := executeScriptTemplate NodeID de wf nodeName tmpl in
  (run.2 = Blocked ∧ omap writeOf run.1 = [])
  ∨ (∃ s, tScript tmpl = Some s ∧ sCommand s = []
       ∧ run = ([], Panic "runtime error: index out of range [0] with length 0"))
  ∨ (∃ err, run.2 = Return (Some err) ∧ omap writeOf run.1 = [])
  ∨ (∃ ns, omap writeOf run.1 = [(NodeID wf nodeName, ns)]
       ∧ statusOfNode NodeID wf nodeName ns
       ∧ (nPhase ns = NodeFailed
            ∧ run.2 = Return (Some ("script execution failed: "
                                    +:+ nMessage ns))
          ∨ (nPhase ns = NodeSucceeded ∨ nPhase ns = NodeRunning)
            ∧ run.2 = Return None)).
Proof.
  cbv zeta. unfold executeScriptTemplate, liftCalls, mbind, Exec_bind.
  pose proof (ExecuteScript_result NodeID de nodeName tmpl wf) as Hinv.
  destruct (ExecuteScript NodeID de nodeName tmpl wf)
    as [calls [[ns err]|msg| |]] eqn:Hrun; cbn [fst snd].
  - destruct (Hinv ns err eq_refl) as [Hnone Hsome].
    destruct err as [err|].
    { right; right; left. exists err.
      destruct ns; cbn; by rewrite app_nil_r, writeOf_calls. }
    destruct ns as [ns|]; [|by destruct (Hnone eq_refl)].
    destruct (Hsome ns eq_refl) as (Hnode & Hpending & Herr & _).
    right; right; right. exists ns. cbn.
    assert (nID ns = NodeID wf nodeName) as HID by apply Hnode.
    assert (nPhase ns ≠ NodeError) as Hne.
    { intros Hph. apply Herr in Hph as [? ?]. done. }
    unfold failedOrError.
    destruct (nPhase ns) eqn:Hph; cbn; rewrite ?app_nil_r, <- ?app_assoc; cbn;
      rewrite HID;
      (split; [apply writeOf_calls_write|]); (split; [done|]); by eauto.
  - right; left. revert Hrun. unfold ExecuteScript.
    destruct (tScript tmpl) as [s|]; [|done].
    destruct (sCommand s) as [|Command0 Command1] eqn:Hcmd.
    { intros [= <- <-]. by exists s. }
    cbn. destruct (ContainerCreate de _ _ _) as [ID|]; [|done].
    cbn. destruct (ContainerStart de ID); [done|].
    cbn. by destruct (ContainerWait de ID) as [[]| |].
  - left. split; [done|apply writeOf_calls].
  - exfalso. revert Hrun. unfold ExecuteScript.
    destruct (tScript tmpl) as [s|]; [|done].
    destruct (sCommand s !! 0); [|done].
    cbn. destruct (ContainerCreate de _ _ _) as [ID|]; [|done].
    cbn. destruct (ContainerStart de ID); [done|].
    cbn. by destruct (ContainerWait de ID) as [[]| |].
Qed.

End Leaves.

(** X6. However a unit of work goes, the orchestrator records at most one
    status for it, under the node's identifier, and what it returns goes
    with what it recorded: it returns nil only after recording a status
    whose phase is Succeeded (or still Running, when the wait's error
    channel delivered nil); after recording a Failed status it returns
    ["container execution failed: <message>"] (["script execution failed:
    <message>"] for a script); when the adapter fails it returns the
    adapter's error and records nothing; it never records a status of
    phase Error or Pending. A container never makes it panic. *)
Theorem leaf_records_what_it_returns
    (NodeID : Workflow → string → string) (de : DockerExecutor)
    (wf : Workflow) (nodeName : string) (tmpl : Template) :
  (let run := executeContainerTemplate NodeID de wf nodeName tmpl in
   (run.2 = Blocked ∧ omap writeOf run.1 = [])
   ∨ (∃ err, run.2 = Return (Some err) ∧ omap writeOf run.1 = [])
   ∨ (∃ ns, omap writeOf run.1 = [(NodeID wf nodeName, ns)]
        ∧ statusOfNode NodeID wf nodeName ns
        ∧ (nPhase ns = NodeFailed
             ∧ run.2 = Return (Some ("container execution failed: "
                                     +:+ nMessage ns))
           ∨ (nPhase ns = NodeSucceeded ∨ nPhase ns = NodeRunning)
             ∧ run.2 = Return None)))
  ∧ (let run := executeScriptTemplate NodeID de wf nodeName tmpl in
     (run.2 = Blocked ∧ omap writeOf run.1 = [])
     ∨ (∃ s, tScript tmpl = Some s ∧ sCommand s = []
          ∧ run = ([], Panic "runtime error: index out of range [0] with length 0"))
     ∨ (∃ err, run.2 = Return (Some err) ∧ omap writeOf run.1 = [])
     ∨ (∃ ns, omap writeOf run.1 = [(NodeID wf nodeName, ns)]
          ∧ statusOfNode NodeID wf nodeName ns
          ∧ (nPhase ns = NodeFailed
               ∧ run.2 = Return (Some ("script execution failed: "
                                       +:+ nMessage ns))
             ∨ (nPhase ns = NodeSucceeded ∨ nPhase ns = NodeRunning)
               ∧ run.2 = Return None))).
Proof.
  split; [apply executeContainerTemplate_cases|apply executeScriptTemplate_cases].
Qed.

(** ** The walk of a template *)

Lemma merge_nil {A} (choices : list nat) : merge choices ([] : list (list A)) = [].
Proof. induction choices as [|c choices IH]; [done|]. exact IH. Qed.

Lemma runGroup_nil tag choices : runGroup tag choices [] = ([], Return []).
Proof. unfold runGroup. cbn. by rewrite merge_nil. Qed.

Lemma elem_of_goroutine body e :
  e ∈ (goroutine body).1 → e ∈ body.1 ∨ writeOf e = None ∧ callOf e = None.
Proof.
  unfold goroutine. destruct body as [tr [[err|]|msg| |]]; cbn;
    rewrite ?elem_of_app, ?elem_of_cons, ?elem_of_nil; [| | |by left..].
  - intros [?|[->|[->|[]]]]; [by left|by right..].
  - intros [?|[->|[]]]; [by left|by right].
  - intros [?|[->|[->|[]]]]; [by left|by right..].
Qed.

Section WalkInvariants.

Variable NodeID : Workflow → string → string.
Variable de : DockerExecutor.
Variable sched : string → nat → list nat.
Variable wf : Workflow.

(** Where the events of a step list come from. *)
Lemma stepsFrom_elem exec nodeName i0 groups e :
  e ∈ (stepsFrom sched exec wf nodeName i0 groups).1 →
  ∃ i j g s e', e = EvGo (StepG i j) e' ∧ g ∈ groups ∧ s ∈ Steps g
     ∧ e' ∈ (stepGoroutine exec wf nodeName i s).1.
Proof.
  revert i0. induction groups as [|g rest IH]; intros i0;
    [by intros ?%elem_of_nil|].
  assert (∀ e, e ∈ (runStepGroup sched exec wf nodeName i0 g).1 →
    ∃ i j g' s e', e = EvGo (StepG i j) e' ∧ g' ∈ g :: rest ∧ s ∈ Steps g'
       ∧ e' ∈ (stepGoroutine exec wf nodeName i s).1) as Hhere.
  { intros e0 (j & s & e' & -> & Hs & He')%runStepGroup_tagged.
    exists i0, j, g, s, e'. split_and!; [done|by left| |done].
    by eapply list_elem_of_lookup_2. }
  destruct (stepsFrom_cons sched exec wf nodeName i0 g rest)
    as [[_ ->]|[(err & errs & _ & ->)|(_ & -> & _)]];
    cbn [fst]; [|apply Hhere..].
  intros [He|He]%elem_of_app; [by apply Hhere|].
  apply IH in He as (i & j & g' & s & e' & -> & Hg & Hs & He').
  exists i, j, g', s, e'. split_and!; [done|by right|done|done].
Qed.

(** What is true of the writes (or of the calls) of every member is true
    of those of the composite. *)
Lemma composite_events {B} (f : event → option B)
    (exec : string → Template → Exec event (option error)) (W : B → Prop) :
  (∀ g e, f (EvGo g e) = f e) →
  (∀ e, writeOf e = None ∧ callOf e = None → f e = None) →
  (∀ n t e b, e ∈ (exec n t).1 → f e = Some b → W b) →
  ∀ nodeName,
    (∀ groups e b,
       e ∈ (executeStepsTemplate sched exec wf nodeName groups).1 →
       f e = Some b → W b)
    ∧ (∀ dag e b,
       e ∈ (executeDAGTemplate sched exec wf nodeName dag).1 →
       f e = Some b → W b).
Proof.
  intros Hgo Hnone Hexec nodeName. split.
  - intros groups e b
      (i & j & g & s & e' & -> & _ & _ & He')%stepsFrom_elem Hb.
    rewrite Hgo in Hb. apply elem_of_goroutine in He' as [He'|He'].
    + unfold stepBody in He'.
      destruct (findTemplate wf (stepTemplate s)); [by eapply Hexec|].
      by apply elem_of_nil in He'.
    + apply Hnone in He'. congruence.
  - intros dag e b. rewrite executeDAGTemplate_trace.
    intros (j & t & e' & -> & _ & He')%runTasks_tagged Hb.
    rewrite Hgo in Hb. apply elem_of_goroutine in He' as [He'|He'].
    + unfold taskBody in He'.
      destruct (findTemplate wf (taskTemplate t)); [by eapply Hexec|].
      by apply elem_of_nil in He'.
    + apply Hnone in He'. congruence.
Qed.

(** Every status that a walk records is that of a node of the walk, is
    filed under the identifier of that node, and has come to Succeeded or
    Failed (or is still Running). *)
Lemma executeTemplate_writes fuel nodeName tmpl e w :
  e ∈ (executeTemplate NodeID de sched fuel wf nodeName tmpl).1 →
  writeOf e = Some w →
  ∃ n, w.1 = NodeID wf n ∧ statusOfNode NodeID wf n w.2
       ∧ (nPhase w.2 = NodeSucceeded ∨ nPhase w.2 = NodeFailed
          ∨ nPhase w.2 = NodeRunning).
Proof.
  revert nodeName tmpl e w. induction fuel as [|fuel IH];
    intros nodeName tmpl e w; [by intros ?%elem_of_nil|].
  cbn [executeTemplate]. unfold mbind at 1, Exec_bind at 1. cbn [emit fst snd].
  intros [->|He]%elem_of_cons Hw; [done|]. revert He.
  destruct (tContainer tmpl) as [c|].
  { intros He.
    assert (w ∈ omap writeOf
              (executeContainerTemplate NodeID de wf nodeName tmpl).1) as Hin
      by (apply list_elem_of_omap; eauto).
    destruct (executeContainerTemplate_cases NodeID de wf nodeName tmpl)
      as [[_ Hnil]|[(err & _ & Hnil)|(ns & Hone & Hnode & Hph)]];
      rewrite ?Hnil, ?Hone in Hin; try by apply elem_of_nil in Hin.
    apply list_elem_of_singleton in Hin as ->. exists nodeName. cbn.
    split_and!; [done|done|].
    destruct Hph as [[-> _]|[[->| ->] _]]; by eauto. }
  destruct (tScript tmpl) as [s|].
  { intros He.
    assert (w ∈ omap writeOf
              (executeScriptTemplate NodeID de wf nodeName tmpl).1) as Hin
      by (apply list_elem_of_omap; eauto).
    destruct (executeScriptTemplate_cases NodeID de wf nodeName tmpl)
      as [[_ Hnil]|[(s' & _ & _ & Hpanic)|[(err & _ & Hnil)
                                          |(ns & Hone & Hnode & Hph)]]];
      rewrite ?Hnil, ?Hone, ?Hpanic in Hin; try by apply elem_of_nil in Hin.
    apply list_elem_of_singleton in Hin as ->. exists nodeName. cbn.
    split_and!; [done|done|].
    destruct Hph as [[-> _]|[[->| ->] _]]; by eauto. }
  destruct (composite_events writeOf (executeTemplate NodeID de sched fuel wf)
              (λ w, ∃ n, w.1 = NodeID wf n ∧ statusOfNode NodeID wf n w.2
                 ∧ (nPhase w.2 = NodeSucceeded ∨ nPhase w.2 = NodeFailed
                    ∨ nPhase w.2 = NodeRunning))) with (nodeName := nodeName)
    as [Hsteps Hdag]; [done|by intros ? []|by eauto|].
  destruct (tSteps tmpl) as [groups|]; [intros He; by eapply Hsteps|].
  destruct (tDAG tmpl) as [dag|]; [intros He; by eapply Hdag|].
  by intros ?%elem_of_nil.
Qed.

End WalkInvariants.

(** ** The walk of a run *)

Section RunFacts.

Variable NodeID : Workflow → string → string.
Variable de : DockerExecutor.
Variable sched : string → nat → list nat.

Lemma findTemplate_spec wf wf' name :
  wfSpec wf = wfSpec wf' → findTemplate wf name = findTemplate wf' name.
Proof. unfold findTemplate. by intros ->. Qed.

(** [executeWorkflow] on a run of the store, step by step: the start, the
    walk of the entry template, the writes of the walk taken to the run's
    node map, the final phase. *)
Lemma executeWorkflow_valid fuel now lc p wfExec :
  executions lc !! p = Some wfExec →
  ∃ r wf1,
    executions (walkStart lc p) !! p = Some {| weWorkflow := wf1 |}
    ∧ wfName wf1 = wfName (weWorkflow wfExec)
    ∧ wfSpec wf1 = wfSpec (weWorkflow wfExec)
    ∧ wfStatus wf1
      = set_Nodes (Some r) (set_Phase WorkflowRunning
                              (wfStatus (weWorkflow wfExec)))
    ∧ executeWorkflow NodeID de sched fuel now lc p
      = (let lc1 := walkStart lc p in
         let entrypoint := Entrypoint (wfSpec wf1) in
         if bool_decide (entrypoint = EmptyString)
         then (markWorkflowFailed now lc1 p "No entrypoint specified", Return ())
         else
           match findTemplate wf1 entrypoint with
           | None =>
               (markWorkflowFailed now lc1 p
                  ("Entrypoint template '" +:+ entrypoint +:+ "' not found"),
                Return ())
           | Some tmpl =>
               let run := executeTemplate NodeID de sched fuel wf1 entrypoint
                            tmpl in
               let lc2 := alterNodes lc1 r (applyWrites (omap writeOf run.1)) in
               match run.2 with
               | Return (Some err) => (markWorkflowFailed now lc2 p err, Return ())
               | Return None =>
                   (update_execution lc2 p
                      (λ st, set_FinishedAt now (set_Phase WorkflowSucceeded st)),
                    Return ())
               | Panic msg => (lc2, Panic msg)
               | Blocked => (lc2, Blocked)
               | OutOfFuel => (lc2, OutOfFuel)
               end
           end).
Proof.
  intros Hp. destruct (walkStart_valid lc p wfExec Hp) as (r & Hp1 & _).
  exists r, (weWorkflow (with_status
               (λ st, set_Nodes (Some r) (set_Phase WorkflowRunning st)) wfExec)).
  split_and!; [by rewrite Hp1|done|done|done|].
  unfold executeWorkflow. rewrite Hp1. cbn zeta.
  case_bool_decide; [done|].
  destruct (findTemplate _ _) as [tmpl|]; [|done].
  rewrite (applyEvents_writes _ p _ r); [done|].
  unfold statusOf. by rewrite Hp1.
Qed.

Lemma executeWorkflow_invalid fuel now lc p :
  executions lc !! p = None →
  executeWorkflow NodeID de sched fuel now lc p
  = (lc, Panic "invalid memory address or nil pointer dereference").
Proof.
  intros Hp. unfold executeWorkflow. rewrite walkStart_invalid by done.
  by rewrite Hp.
Qed.

End RunFacts.

Section RunOutcome.

Variable NodeID : Workflow → string → string.
Variable de : DockerExecutor.
Variable sched : string → nat → list nat.
Variables (fuel : nat) (now : Time) (lc : LocalController) (p : nat).
Variable wfExec : WorkflowExecution.
Hypothesis valid : executions lc !! p = Some wfExec.

(** The run after the walk: its name, its templates and its start time are
    those it had; it is Succeeded or Failed with the finish time set when
    the walk came back, and Running when it did not. *)
Lemma executeWorkflow_status :
  ∃ st, statusOf (executeWorkflow NodeID de sched fuel now lc p).1 p = Some st
    ∧ (wfName ∘ weWorkflow <$>
         executions (executeWorkflow NodeID de sched fuel now lc p).1 !! p)
      = Some (wfName (weWorkflow wfExec))
    ∧ (wfSpec ∘ weWorkflow <$>
         executions (executeWorkflow NodeID de sched fuel now lc p).1 !! p)
      = Some (wfSpec (weWorkflow wfExec))
    ∧ wsStartedAt st = wsStartedAt (wfStatus (weWorkflow wfExec))
    ∧ is_Some (wsNodes st)
    ∧ (returns (executeWorkflow NodeID de sched fuel now lc p).2 →
         wsFinishedAt st = now
         ∧ (wsPhase st = WorkflowSucceeded
              ∧ wsMessage st = wsMessage (wfStatus (weWorkflow wfExec))
            ∨ wsPhase st = WorkflowFailed))
    ∧ (¬ returns (executeWorkflow NodeID de sched fuel now lc p).2 →
         wsPhase st = WorkflowRunning
         ∧ wsFinishedAt st = wsFinishedAt (wfStatus (weWorkflow wfExec))
         ∧ wsMessage st = wsMessage (wfStatus (weWorkflow wfExec))).
Proof.
  destruct (executeWorkflow_valid NodeID de sched fuel now lc p wfExec valid)
    as (r & wf1 & Hp1 & Hname & Hspec & Hstatus & ->).
  cbv zeta.
  assert (∀ lc' f, executions lc' !! p = Some {| weWorkflow := wf1 |} →
    statusOf (update_execution lc' p f) p = Some (f (wfStatus wf1))
    ∧ executions (update_execution lc' p f) !! p
      = Some (with_status f {| weWorkflow := wf1 |})) as Hupd.
  { intros lc' f Hlc'. rewrite statusOf_update, executions_update,
      !decide_True by done. unfold statusOf. by rewrite Hlc'. }
  assert (∀ f, executions (alterNodes (walkStart lc p) r f) !! p
               = Some {| weWorkflow := wf1 |}) as Halt by done.
  assert (¬ returns (@Blocked ()) ∧ ¬ returns (@OutOfFuel ())
          ∧ ∀ msg, ¬ returns (@Panic () msg)) as (Hb & Ho & Hpanic)
    by (split_and!; [| |intros msg]; by intros [? ?]).
  assert (returns (Return ())) as Hret by (by eexists).
  case_bool_decide; [|destruct (findTemplate wf1 _) as [tmpl|];
    [destruct (executeTemplate _ _ _ _ _ _ _).2 as [[err|]|msg| |]|]];
    cbn [fst snd]; unfold markWorkflowFailed;
    try (match goal with
         | |- context [update_execution ?lc' p ?f] =>
             destruct (Hupd lc' f) as [-> ->]; [done|]
         end; eexists; split; [done|]; cbn; rewrite Hstatus, Hname, Hspec;
         cbn; split_and!; [done..| |]; intros Hr;
         first [by destruct Hr | by eauto]).
  all: unfold statusOf; rewrite Halt; eexists; (split; [done|]); cbn;
    rewrite Hstatus, Hname, Hspec; cbn; (split_and!; [done..| |]); intros Hr;
    first [by destruct Hr | done].
Qed.

(** The walk changes nothing but its own run: the registry, the started
    walks, the other runs and the node maps of the other runs are as they
    were; at most one map is added to the store. *)
Lemma executeWorkflow_frame :
  let lc' := (executeWorkflow NodeID de sched fuel now lc p).1 in
  workflows lc' = workflows lc
  ∧ spawned lc' = spawned lc
  ∧ length (executions lc') = length (executions lc)
  ∧ (∀ q, q ≠ p → executions lc' !! q = executions lc !! q)
  ∧ ∃ r, (statusOf lc' p ≫= wsNodes) = Some r
      ∧ (wsNodes (wfStatus (weWorkflow wfExec)) = Some r
           ∧ length (nodeMaps lc') = length (nodeMaps lc)
         ∨ wsNodes (wfStatus (weWorkflow wfExec)) = None
           ∧ r = length (nodeMaps lc)
           ∧ length (nodeMaps lc') = S (length (nodeMaps lc)))
      ∧ ∀ r', r' ≠ r → r' < length (nodeMaps lc) →
          nodeMaps lc' !! r' = nodeMaps lc !! r'.
Proof.
  destruct (walkStart_valid lc p wfExec valid)
    as (r & Hp1 & Hmaps & Hws & Hsp & Hlen & Hothers).
  destruct (executeWorkflow_valid NodeID de sched fuel now lc p wfExec valid)
    as (r0 & wf1 & Hp1' & _ & _ & Hstatus & ->).
  assert (r0 = r) as ->.
  { rewrite Hp1 in Hp1'. injection Hp1' as <-. cbn in Hstatus.
    by injection Hstatus. }
  assert (∀ f, statusOf (update_execution (walkStart lc p) p f) p ≫= wsNodes
               = wsNodes (f (wfStatus wf1))) as Hst.
  { intros f. rewrite statusOf_update, decide_True by done.
    unfold statusOf. by rewrite Hp1'. }
  assert (∀ f g, statusOf (update_execution (alterNodes (walkStart lc p) r g) p f)
                   p ≫= wsNodes
                 = wsNodes (f (wfStatus wf1))) as Hst'.
  { intros f g. rewrite statusOf_update, decide_True by done.
    unfold statusOf, alterNodes. cbn. by rewrite Hp1'. }
  assert (wsNodes (wfStatus (weWorkflow wfExec)) = Some r
            ∧ length (nodeMaps (walkStart lc p)) = length (nodeMaps lc)
          ∨ wsNodes (wfStatus (weWorkflow wfExec)) = None
            ∧ r = length (nodeMaps lc)
            ∧ length (nodeMaps (walkStart lc p)) = S (length (nodeMaps lc)))
    as Hcount.
  { destruct Hmaps as [[? ->]|(? & ? & ->)]; [by left|right].
    by rewrite length_app, Nat.add_comm. }
  assert (∀ f r', r' ≠ r → r' < length (nodeMaps lc) →
     alter f r (nodeMaps (walkStart lc p)) !! r' = nodeMaps lc !! r') as Hkeep.
  { intros f r' Hne Hlt. rewrite list_lookup_alter_ne by done.
    destruct Hmaps as [[_ ->]|(_ & _ & ->)]; [done|by rewrite lookup_app_l]. }
  assert (∀ r', r' ≠ r → r' < length (nodeMaps lc) →
     nodeMaps (walkStart lc p) !! r' = nodeMaps lc !! r') as Hkeep0.
  { intros r' Hne Hlt.
    destruct Hmaps as [[_ ->]|(_ & _ & ->)]; [done|by rewrite lookup_app_l]. }
  cbv zeta.
  case_bool_decide; [|destruct (findTemplate wf1 _) as [tmpl|];
    [destruct (executeTemplate _ _ _ _ _ _ _).2 as [[err|]|msg| |]|]];
    cbn [fst snd]; unfold markWorkflowFailed;
    (split_and!; [exact Hws|exact Hsp
                 |cbn; rewrite ?length_alter; exact Hlen| |]);
    try (intros q Hq; rewrite ?executions_update, ?decide_False by done;
         by apply Hothers).
  all: exists r; split;
    [first [rewrite Hst' | rewrite Hst
           | unfold statusOf, alterNodes; cbn; rewrite Hp1'];
     cbn; by rewrite Hstatus|].
  all: split; [cbn; rewrite ?length_alter; exact Hcount
              |first [apply Hkeep | apply Hkeep0]].
Qed.

End RunOutcome.

Section RunRecords.

Variable NodeID : Workflow → string → string.
Variable de : DockerExecutor.
Variable sched : string → nat → list nat.
Variables (fuel : nat) (now : Time) (lc : LocalController) (p : nat).
Variable wfExec : WorkflowExecution.
Variable tmpl : Template.
Hypothesis valid : executions lc !! p = Some wfExec.
Hypothesis named : Entrypoint (wfSpec (weWorkflow wfExec)) ≠ EmptyString.
Hypothesis found :
  findTemplate (weWorkflow wfExec) (Entrypoint (wfSpec (weWorkflow wfExec)))
  = Some tmpl.
Hypothesis nodes_stored :
  ∀ r, wsNodes (wfStatus (weWorkflow wfExec)) = Some r → r < length (nodeMaps lc).

(** The run after the walk of its entry template: its node map is the map
    it had (the empty map when it had none) with the writes of the walk
    applied in order, and its phase and message are what the walk
    returned. *)
Lemma executeWorkflow_records :
  ∃ wf1 r st,
    wfName wf1 = wfName (weWorkflow wfExec)
    ∧ wfSpec wf1 = wfSpec (weWorkflow wfExec)
    ∧ wfStatus wf1
      = set_Nodes (Some r) (set_Phase WorkflowRunning
                              (wfStatus (weWorkflow wfExec)))
    ∧ let run := executeTemplate NodeID de sched fuel wf1
                   (Entrypoint (wfSpec (weWorkflow wfExec))) tmpl in
      let res := executeWorkflow NodeID de sched fuel now lc p in
      statusOf res.1 p = Some st ∧ wsNodes st = Some r
      ∧ nodeMaps res.1 !! r
        = Some (applyWrites (omap writeOf run.1)
                  (default ∅ (nodesOf lc (weWorkflow wfExec))))
      ∧ match run.2 with
        | Return None =>
            res.2 = Return () ∧ wsPhase st = WorkflowSucceeded
            ∧ wsMessage st = wsMessage (wfStatus (weWorkflow wfExec))
        | Return (Some err) =>
            res.2 = Return () ∧ wsPhase st = WorkflowFailed ∧ wsMessage st = err
        | Panic msg => res.2 = Panic msg ∧ wsPhase st = WorkflowRunning
        | Blocked => res.2 = Blocked ∧ wsPhase st = WorkflowRunning
        | OutOfFuel => res.2 = OutOfFuel ∧ wsPhase st = WorkflowRunning
        end.
Proof.
  destruct (walkStart_valid lc p wfExec valid)
    as (r & Hp1 & Hmaps & _).
  destruct (executeWorkflow_valid NodeID de sched fuel now lc p wfExec valid)
    as (r0 & wf1 & Hp1' & Hname & Hspec & Hstatus & Hrun).
  assert (r0 = r) as ->.
  { rewrite Hp1 in Hp1'. injection Hp1' as <-. cbn in Hstatus.
    by injection Hstatus. }
  assert (nodeMaps (walkStart lc p) !! r
          = Some (default ∅ (nodesOf lc (weWorkflow wfExec)))) as Hold.
  { unfold nodesOf. destruct Hmaps as [[Hr ->]|(Hr & -> & ->)]; rewrite Hr; cbn.
    - destruct (lookup_lt_is_Some_2 (nodeMaps lc) r (nodes_stored r Hr))
        as [m ->]. done.
    - by rewrite lookup_app_r, Nat.sub_diag. }
  assert (∀ f, alter f r (nodeMaps (walkStart lc p)) !! r
               = Some (f (default ∅ (nodesOf lc (weWorkflow wfExec))))) as Hnew.
  { intros f. by rewrite list_lookup_alter_eq, Hold. }
  assert (∀ lc' f, executions lc' !! p = Some {| weWorkflow := wf1 |} →
    statusOf (update_execution lc' p f) p = Some (f (wfStatus wf1))) as Hupd.
  { intros lc' f Hlc'. rewrite statusOf_update, decide_True by done.
    unfold statusOf. by rewrite Hlc'. }
  cbv zeta in Hrun. rewrite Hspec, bool_decide_false in Hrun by done.
  rewrite (findTemplate_spec wf1 (weWorkflow wfExec)), found in Hrun by done.
  exists wf1, r.
  destruct (executeTemplate NodeID de sched fuel wf1 _ tmpl).2
    as [[err|]|msg| |] eqn:Hres; cbv zeta; rewrite Hrun, Hres; cbn [fst snd];
    unfold markWorkflowFailed; rewrite ?Hupd by done;
    eexists; repeat split;
    first [ done
          | unfold statusOf, alterNodes; cbn [executions]; rewrite Hp1'; cbn;
            reflexivity
          | cbn; by rewrite Hstatus
          | cbn [nodeMaps update_execution alterNodes]; apply Hnew ].
Qed.

End RunRecords.

(** X7. A walk of a run of the registry leaves the run in one of three
    states. When the walk comes back the run is Succeeded or Failed and its
    finish time is the time of the return; a Succeeded run keeps the message
    it had. When the walk does not come back (a panic, a wait that never
    ends) the run stays Running with the finish time it had. The start time
    is never touched. *)
Theorem walk_ends_in_terminal_phase
    (NodeID : Workflow → string → string) (de : DockerExecutor)
    (sched : string → nat → list nat) (fuel : nat) (now : Time)
    (lc : LocalController) (p : nat) (wfExec : WorkflowExecution) :
  executions lc !! p = Some wfExec →
  let res := executeWorkflow NodeID de sched fuel now lc p in
  ∃ st, statusOf res.1 p = Some st
    ∧ wsStartedAt st = wsStartedAt (wfStatus (weWorkflow wfExec))
    ∧ match res.2 with
      | Return _ =>
          wsFinishedAt st = now
          ∧ (wsPhase st = WorkflowSucceeded
               ∧ wsMessage st = wsMessage (wfStatus (weWorkflow wfExec))
             ∨ wsPhase st = WorkflowFailed)
      | _ =>
          wsPhase st = WorkflowRunning
          ∧ wsFinishedAt st = wsFinishedAt (wfStatus (weWorkflow wfExec))
      end.
Proof.
  intros valid res.
  destruct (executeWorkflow_status NodeID de sched fuel now lc p wfExec valid)
    as (st & Hst & _ & _ & Hstart & _ & Hret & Hnot).
  exists st. split_and!; [done|done|]. subst res.
  destruct (executeWorkflow NodeID de sched fuel now lc p).2 as [[]|msg| |];
    [apply Hret; by eexists|..];
    (destruct Hnot as (? & ? & _); [by intros [? ?]|done]).
Qed.

Lemma walk_ends_in_terminal_phase_witness :
  ∃ st, statusOf (executeWorkflow Sample.NodeID
                    (Sample.daemon (λ _, WaitStatus 2)) Sample.inOrder 1
                    (Some 3%Z)
                    (SubmitWorkflow (Some 1%Z) Sample.empty Sample.single).1
                    0).1 0 = Some st
    ∧ wsStartedAt st = Some 1%Z
    ∧ wsFinishedAt st = Some 3%Z
    ∧ (wsPhase st = WorkflowSucceeded ∧ wsMessage st = EmptyString
       ∨ wsPhase st = WorkflowFailed).
Proof.
  destruct (walk_ends_in_terminal_phase Sample.NodeID
              (Sample.daemon (λ _, WaitStatus 2)) Sample.inOrder 1 (Some 3%Z)
              (SubmitWorkflow (Some 1%Z) Sample.empty Sample.single).1 0
              _ eq_refl) as (st & Hst & Hstart & Hend).
  exists st. split; [exact Hst|]. split; [exact Hstart|]. exact Hend.
Defined.

(** X8. A run whose entry point is empty, or names no template of the run,
    is marked Failed at once with the message that says which, and its
    finish time is set. Nothing is executed: the outcome does not depend on
    the Docker daemon, and every node map of the store is as it was (at
    most an empty one is added). *)
Theorem entrypoint_errors_fail_run
    (NodeID : Workflow → string → string) (de : DockerExecutor)
    (sched : string → nat → list nat) (fuel : nat) (now : Time)
    (lc : LocalController) (p : nat) (wfExec : WorkflowExecution) :
  executions lc !! p = Some wfExec →
  Entrypoint (wfSpec (weWorkflow wfExec)) = EmptyString
  ∨ findTemplate (weWorkflow wfExec) (Entrypoint (wfSpec (weWorkflow wfExec)))
    = None →
  let res := executeWorkflow NodeID de sched fuel now lc p in
  res.2 = Return ()
  ∧ (∃ st, statusOf res.1 p = Some st
       ∧ wsPhase st = WorkflowFailed
       ∧ wsFinishedAt st = now
       ∧ wsMessage st
         = if bool_decide (Entrypoint (wfSpec (weWorkflow wfExec)) = EmptyString)
           then "No entrypoint specified"
           else "Entrypoint template '"
                +:+ Entrypoint (wfSpec (weWorkflow wfExec)) +:+ "' not found")
  ∧ (∀ de' sched' fuel',
       executeWorkflow NodeID de' sched' fuel' now lc p = res)
  ∧ (nodeMaps res.1 = nodeMaps lc ∨ nodeMaps res.1 = nodeMaps lc ++ [∅]).
Proof.
  intros valid Hentry res.
  destruct (walkStart_valid lc p wfExec valid) as (r & _ & Hmaps & _).
  assert (∀ de' sched' fuel',
    ∃ wf1, executions (walkStart lc p) !! p = Some {| weWorkflow := wf1 |}
      ∧ executeWorkflow NodeID de' sched' fuel' now lc p
        = (markWorkflowFailed now (walkStart lc p) p
             (if bool_decide (Entrypoint (wfSpec (weWorkflow wfExec))
                              = EmptyString)
              then "No entrypoint specified"
              else "Entrypoint template '"
                   +:+ Entrypoint (wfSpec (weWorkflow wfExec))
                   +:+ "' not found"),
           Return ())) as Hall.
  { intros de' sched' fuel'.
    destruct (executeWorkflow_valid NodeID de' sched' fuel' now lc p wfExec
                valid) as (r0 & wf1 & Hp1 & _ & Hspec & _ & ->).
    exists wf1. split; [done|]. cbv zeta. rewrite Hspec.
    case_bool_decide as Hempty; [done|].
    rewrite (findTemplate_spec wf1 (weWorkflow wfExec)) by done.
    destruct Hentry as [?| ->]; done. }
  destruct (Hall de sched fuel) as (wf1 & Hp1 & Hres).
  subst res. rewrite Hres. cbn [fst snd]. split_and!.
  - done.
  - unfold markWorkflowFailed. rewrite statusOf_update, decide_True by done.
    unfold statusOf. rewrite Hp1. cbn. by eexists.
  - intros de' sched' fuel'. by destruct (Hall de' sched' fuel') as (_ & _ & ->).
  - cbn. destruct Hmaps as [[_ ->]|(_ & _ & ->)]; by eauto.
Qed.

Lemma entrypoint_errors_fail_run_witness :
  let lc := (SubmitWorkflow (Some 1%Z) Sample.empty
               (Sample.workflow "wf" "main" [Sample.echo])).1 in
  let res := executeWorkflow Sample.NodeID (Sample.daemon (λ _, WaitStatus 0))
               Sample.inOrder 1 (Some 3%Z) lc 0 in
  res.2 = Return ()
  ∧ ∃ st, statusOf res.1 0 = Some st
      ∧ wsPhase st = WorkflowFailed
      ∧ wsFinishedAt st = Some 3%Z
      ∧ wsMessage st = "Entrypoint template 'main' not found".
Proof.
  cbv zeta.
  destruct (entrypoint_errors_fail_run Sample.NodeID
              (Sample.daemon (λ _, WaitStatus 0)) Sample.inOrder 1 (Some 3%Z)
              (SubmitWorkflow (Some 1%Z) Sample.empty
                 (Sample.workflow "wf" "main" [Sample.echo])).1 0
              _ eq_refl (or_intror eq_refl)) as (Hres & Hst & _).
  split; [exact Hres|exact Hst].
Defined.



(** ** What a run records *)

Lemma applyWrites_snoc ws w m :
  applyWrites (ws ++ [w]) m = <[w.1 := w.2]> (applyWrites ws m).
Proof. unfold applyWrites. by rewrite foldl_app. Qed.

(** A status found in a node map after a sequence of writes was written by
    one of them or was there before. *)
Lemma applyWrites_lookup ws m ID ns :
  applyWrites ws m !! ID = Some ns → (ID, ns) ∈ ws ∨ m !! ID = Some ns.
Proof.
  induction ws as [|w ws IH] using rev_ind; [by right|].
  rewrite applyWrites_snoc. destruct (decide (w.1 = ID)) as [<-|Hne].
  - rewrite lookup_insert_eq. intros [= <-]. left.
    apply elem_of_app. right. destruct w. by apply list_elem_of_singleton.
  - rewrite lookup_insert_ne by done. intros [?|?]%IH; [left|by right].
    apply elem_of_app. by left.
Qed.

(** Writes delete nothing. *)
Lemma applyWrites_is_Some ws m ID :
  is_Some (m !! ID) → is_Some (applyWrites ws m !! ID).
Proof.
  induction ws as [|w ws IH] using rev_ind; [done|].
  rewrite applyWrites_snoc. intros Hm. destruct (decide (w.1 = ID)) as [<-|Hne].
  - rewrite lookup_insert_eq. by eexists.
  - rewrite lookup_insert_ne by done. by apply IH.
Qed.

(** The node maps of the store after a walk: those of the store before,
    with an empty one added for a run that had none, and the map of the run
    changed by writes of its walk. *)
Lemma executeWorkflow_nodeMaps
    (NodeID : Workflow → string → string) (de : DockerExecutor)
    (sched : string → nat → list nat) (fuel : nat) (now : Time)
    (lc : LocalController) (p : nat) (wfExec : WorkflowExecution) :
  executions lc !! p = Some wfExec →
  ∃ maps r wf1 nodeName tmpl,
    (maps = nodeMaps lc ∨ maps = nodeMaps lc ++ [∅])
    ∧ wfName wf1 = wfName (weWorkflow wfExec)
    ∧ (nodeMaps (executeWorkflow NodeID de sched fuel now lc p).1 = maps
       ∨ nodeMaps (executeWorkflow NodeID de sched fuel now lc p).1
         = alter (applyWrites
                    (omap writeOf
                       (executeTemplate NodeID de sched fuel wf1 nodeName
                          tmpl).1)) r maps).
Proof.
  intros valid.
  destruct (walkStart_valid lc p wfExec valid) as (r & _ & Hmaps & _).
  destruct (executeWorkflow_valid NodeID de sched fuel now lc p wfExec valid)
    as (r0 & wf1 & _ & Hname & _ & _ & ->).
  exists (nodeMaps (walkStart lc p)), r0, wf1, (Entrypoint (wfSpec wf1)).
  cbv zeta.
  case_bool_decide; [|destruct (findTemplate wf1 _) as [tmpl|] eqn:Hfind];
    [exists Sample.echo| |exists Sample.echo];
    [|exists tmpl; destruct (executeTemplate _ _ _ _ _ _ _).2
                     as [[err|]|msg| |]|];
    (split; [destruct Hmaps as [[_ ->]|(_ & _ & ->)]; by eauto|]);
    (split; [done|]); cbn; by eauto.
Qed.

(** X10. The run of a single container, on a daemon that creates and starts
    every unit and whose units all end with the exit code [code]. The walk
    comes back, and the run's node map holds the node of the entry
    template under its identifier. With exit code 0 the node and the run
    are Succeeded; with any other code [N] the node is Failed and the run
    is Failed with the message
    ["container execution failed: container exited with code <N>"]. *)
Theorem container_run_outcome
    (NodeID : Workflow → string → string) (de : DockerExecutor)
    (sched : string → nat → list nat) (fuel : nat) (now : Time)
    (lc : LocalController) (p : nat) (wfExec : WorkflowExecution)
    (tmpl : Template) (c : Container) (code : Z) :
  executions lc !! p = Some wfExec →
  Entrypoint (wfSpec (weWorkflow wfExec)) ≠ EmptyString →
  findTemplate (weWorkflow wfExec) (Entrypoint (wfSpec (weWorkflow wfExec)))
    = Some tmpl →
  tContainer tmpl = Some c →
  (∀ r, wsNodes (wfStatus (weWorkflow wfExec)) = Some r →
     r < length (nodeMaps lc)) →
  (∀ cfg host name, ∃ ID, ContainerCreate de cfg host name = inl ID) →
  (∀ ID, ContainerStart de ID = None) →
  (∀ ID, ContainerWait de ID = WaitStatus code) →
  let res := executeWorkflow NodeID de sched (S fuel) now lc p in
  res.2 = Return ()
  ∧ ∃ st r m ns,
      statusOf res.1 p = Some st ∧ wsNodes st = Some r
      ∧ nodeMaps res.1 !! r = Some m ∧ m !! nID ns = Some ns
      ∧ nName ns = Entrypoint (wfSpec (weWorkflow wfExec))
      ∧ if bool_decide (code = 0%Z)
        then wsPhase st = WorkflowSucceeded ∧ nPhase ns = NodeSucceeded
        else wsPhase st = WorkflowFailed ∧ nPhase ns = NodeFailed
             ∧ wsMessage st
               = "container execution failed: container exited with code "
                 +:+ pretty code.
Proof.
  intros valid named found Hc stored Hcreate Hstart Hwait res.
  destruct (executeWorkflow_records NodeID de sched (S fuel) now lc p wfExec
              tmpl valid named found stored)
    as (wf1 & r & st & _ & _ & _ & Hrec).
  cbv zeta in Hrec. destruct Hrec as (Hst & Hr & Hmap & Hend).
  set (entry := Entrypoint (wfSpec (weWorkflow wfExec))) in *.
  destruct (Hcreate (containerConfigOf tmpl c wf1 entry) (hostConfigOf c wf1)
              (containerNameOf wf1 entry)) as [ID HID].
  destruct (ExecuteContainer_exited NodeID de entry tmpl wf1 c ID code
              Hc HID (Hstart ID) (Hwait ID)) as (ns & Hrun & Hph & Hmsg).
  assert (nName ns = entry) as Hname.
  { destruct (ExecuteContainer_result NodeID de entry tmpl wf1 (Some ns) None)
      as [_ Hsome]; [by rewrite Hrun|].
    by destruct (Hsome ns eq_refl) as ((_ & ? & _) & _). }
  revert Hmap Hend. cbn [executeTemplate]. rewrite Hc.
  unfold executeContainerTemplate, liftCalls, mbind, Exec_bind.
  rewrite Hrun. cbn [fst snd emit fmap list_fmap app omap list_omap writeOf].
  rewrite Hph.
  assert (failedOrError NodeSucceeded = false) as Hok by (by vm_compute).
  assert (failedOrError NodeFailed = true) as Hfailed by (by vm_compute).
  case_bool_decide as Hcode; rewrite ?Hok, ?Hfailed; cbn; intros Hmap Hend.
  - split; [apply Hend|]. exists st, r; eexists; exists ns.
    repeat split;
      first [done|exact Hmap|by rewrite lookup_insert_eq|apply Hend].
  - split; [apply Hend|]. exists st, r; eexists; exists ns.
    destruct Hend as (_ & ? & ->). rewrite Hmsg.
    repeat split; first [done|exact Hmap|by rewrite lookup_insert_eq].
Qed.

Lemma container_run_outcome_witness :
  let res := executeWorkflow Sample.NodeID (Sample.daemon (λ _, WaitStatus 2))
               Sample.inOrder 1 (Some 3%Z)
               (SubmitWorkflow (Some 1%Z) Sample.empty Sample.single).1 0 in
  res.2 = Return ()
  ∧ ∃ st r m ns,
      statusOf res.1 0 = Some st ∧ wsNodes st = Some r
      ∧ nodeMaps res.1 !! r = Some m ∧ m !! nID ns = Some ns
      ∧ nName ns = "echo"
      ∧ wsPhase st = WorkflowFailed ∧ nPhase ns = NodeFailed
      ∧ wsMessage st
        = "container execution failed: container exited with code 2".
Proof.
  cbv zeta.
  apply (container_run_outcome Sample.NodeID (Sample.daemon (λ _, WaitStatus 2))
           Sample.inOrder 0 (Some 3%Z)
           (SubmitWorkflow (Some 1%Z) Sample.empty Sample.single).1 0
           {| weWorkflow :=
                {| wfName := "wf"; wfSpec := wfSpec Sample.single;
                   wfStatus := set_StartedAt (Some 1%Z)
                                 (set_Phase WorkflowPending Sample.emptyStatus) |} |}
           Sample.echo
           {| cImage := "alpine"; cCommand := ["echo"]; cArgs := ["hello"];
              cWorkingDir := EmptyString;
              cEnv := [ {| EnvName := "ARGO_NODE_NAME"; EnvValue := "mine" |} ];
              cVolumeMounts := [] |} 2 eq_refl).
  - discriminate.
  - reflexivity.
  - reflexivity.
  - intros r Hr. discriminate Hr.
  - intros cfg host name. eexists. reflexivity.
  - reflexivity.
  - reflexivity.
Defined.

(** X11. A walk keeps the node maps in order and never deletes from them.
    When every status of every node map of the store is filed under its own
    identifier before the walk, so it is after: each status the walk
    records is filed under the identifier it carries. And every key that a
    node map of the store held before the walk, it still holds. *)
Theorem walk_keeps_nodes_keyed
    (NodeID : Workflow → string → string) (de : DockerExecutor)
    (sched : string → nat → list nat) (fuel : nat) (now : Time)
    (lc : LocalController) (p : nat) (wfExec : WorkflowExecution) :
  executions lc !! p = Some wfExec →
  let lc' := (executeWorkflow NodeID de sched fuel now lc p).1 in
  (keyedById lc → keyedById lc')
  ∧ ∀ r m ID, nodeMaps lc !! r = Some m → is_Some (m !! ID) →
      ∃ m', nodeMaps lc' !! r = Some m' ∧ is_Some (m' !! ID).
Proof.
  intros valid lc'.
  destruct (executeWorkflow_nodeMaps NodeID de sched fuel now lc p wfExec valid)
    as (maps & r0 & wf1 & nodeName & tmpl & Hmaps & _ & Hafter).
  fold lc' in Hafter.
  assert (keyedById lc →
          ∀ r m ID ns, maps !! r = Some m → m !! ID = Some ns → nID ns = ID)
    as Hkeyed.
  { intros Hlc r m ID ns Hr Hm. destruct Hmaps as [-> | ->]; [by eapply Hlc|].
    apply lookup_app_Some in Hr as [Hr|[_ Hr]]; [by eapply Hlc|].
    apply list_lookup_singleton_Some in Hr as [_ <-]. done. }
  assert (∀ r m, nodeMaps lc !! r = Some m → maps !! r = Some m) as Hkeep.
  { intros r m Hr. destruct Hmaps as [-> | ->]; [done|].
    by apply lookup_app_l_Some. }
  split.
  - intros Hlc r m ID ns Hr Hm. destruct Hafter as [Heq|Heq];
      rewrite Heq in Hr; [by eapply Hkeyed|].
    destruct (decide (r = r0)) as [->|Hne].
    + rewrite list_lookup_alter_eq in Hr.
      destruct (maps !! r0) as [m0|] eqn:Hr0; [|done].
      injection Hr as <-. apply applyWrites_lookup in Hm as [Hw|Hm];
        [|by eapply Hkeyed].
      apply list_elem_of_omap in Hw as (e & He & Hw).
      destruct (executeTemplate_writes NodeID de sched wf1 fuel nodeName tmpl
                  e (ID, ns) He Hw) as (n & HID & Hnode & _).
      cbn in HID, Hnode. destruct Hnode as [-> _]. done.
    + rewrite list_lookup_alter_ne in Hr by done. by eapply Hkeyed.
  - intros r m ID Hr%Hkeep Hm. destruct Hafter as [-> | ->]; [by eauto|].
    destruct (decide (r = r0)) as [->|Hne].
    + rewrite list_lookup_alter_eq, Hr. cbn. eexists. split; [done|].
      by apply applyWrites_is_Some.
    + rewrite list_lookup_alter_ne by done. by eauto.
Qed.

Lemma walk_keeps_nodes_keyed_witness :
  keyedById (executeWorkflow Sample.NodeID (Sample.daemon (λ _, WaitStatus 0))
               Sample.inOrder 1 (Some 3%Z)
               (SubmitWorkflow (Some 1%Z) Sample.empty Sample.single).1 0).1.
Proof.
  apply (walk_keeps_nodes_keyed Sample.NodeID
           (Sample.daemon (λ _, WaitStatus 0)) Sample.inOrder 1 (Some 3%Z)
           (SubmitWorkflow (Some 1%Z) Sample.empty Sample.single).1 0
           _ eq_refl).
  intros r m ID ns Hr. destruct r; discriminate Hr.
Defined.

(** ** Walks that come back, and walks that do not *)

(** X12. A run comes back whenever its templates can be ranked so that
    every step and every task refers to a template of lower rank, every
    script has a command, and every wait of the daemon ends: with more fuel
    than the highest rank the walk returns, so the run ends Succeeded or
    Failed and neither panics nor hangs. *)
Theorem ranked_run_comes_back
    (NodeID : Workflow → string → string) (de : DockerExecutor)
    (sched : string → nat → list nat) (fuel : nat) (now : Time)
    (lc : LocalController) (p : nat) (wfExec : WorkflowExecution)
    (rank : string → nat) :
  executions lc !! p = Some wfExec →
  (∀ ID, ContainerWait de ID ≠ WaitNever) →
  (∀ tmpl s, tmpl ∈ Templates (wfSpec (weWorkflow wfExec)) →
     tScript tmpl = Some s → sCommand s ≠ []) →
  (∀ tmpl groups g s tmpl', tmpl ∈ Templates (wfSpec (weWorkflow wfExec)) →
     tSteps tmpl = Some groups → g ∈ groups → s ∈ Steps g →
     findTemplate (weWorkflow wfExec) (stepTemplate s) = Some tmpl' →
     rank (tName tmpl') < rank (tName tmpl)) →
  (∀ tmpl dag t tmpl', tmpl ∈ Templates (wfSpec (weWorkflow wfExec)) →
     tDAG tmpl = Some dag → t ∈ Tasks dag →
     findTemplate (weWorkflow wfExec) (taskTemplate t) = Some tmpl' →
     rank (tName tmpl') < rank (tName tmpl)) →
  (∀ tmpl, tmpl ∈ Templates (wfSpec (weWorkflow wfExec)) →
     rank (tName tmpl) < fuel) →
  (executeWorkflow NodeID de sched fuel now lc p).2 = Return ().
Proof.
  intros valid Hwaits Hscripts Hsteps Htasks Hfuel.
  destruct (executeWorkflow_valid NodeID de sched fuel now lc p wfExec valid)
    as (r & wf1 & _ & _ & Hspec & _ & ->).
  cbv zeta. case_bool_decide; [done|].
  destruct (findTemplate wf1 _) as [tmpl|] eqn:Hfind; [|done].
  assert (returns (executeTemplate NodeID de sched fuel wf1
                     (Entrypoint (wfSpec wf1)) tmpl).2) as [[err|] ->];
    [|done..].
  apply findTemplate_elem in Hfind as Hin.
  apply (executeTemplate_returns NodeID de sched wf1 Hwaits rank).
  - rewrite Hspec. exact Hscripts.
  - intros tm groups g s tm' Htm Hg Hgin Hs Hf. rewrite Hspec in Htm.
    rewrite (findTemplate_spec wf1 (weWorkflow wfExec)) in Hf by done.
    by eapply Hsteps.
  - intros tm dag t tm' Htm Hd Ht Hf. rewrite Hspec in Htm.
    rewrite (findTemplate_spec wf1 (weWorkflow wfExec)) in Hf by done.
    by eapply Htasks.
  - done.
  - apply Hfuel. by rewrite <- Hspec.
Qed.

Lemma ranked_run_comes_back_witness :
  (executeWorkflow Sample.NodeID (Sample.daemon Sample.scriptFails)
     Sample.alternate 2 (Some 3%Z)
     (SubmitWorkflow (Some 1%Z) Sample.empty Sample.staged).1 0).2 = Return ().
Proof.
  apply (ranked_run_comes_back Sample.NodeID (Sample.daemon Sample.scriptFails)
           Sample.alternate 2 (Some 3%Z)
           (SubmitWorkflow (Some 1%Z) Sample.empty Sample.staged).1 0
           _ Sample.rank eq_refl).
  - intros ID. cbn. unfold Sample.scriptFails. by repeat case_bool_decide.
  - intros tm s Htm Hs.
    repeat (apply elem_of_cons in Htm as [->|Htm]);
      [..|by apply elem_of_nil in Htm]; by simplify_eq/=.
  - intros tm groups g s tm' Htm Hsteps Hg Hs Hfind.
    repeat (apply elem_of_cons in Htm as [->|Htm]);
      [..|by apply elem_of_nil in Htm]; simplify_eq/=.
    repeat (apply elem_of_cons in Hg as [->|Hg]);
      [..|by apply elem_of_nil in Hg]; simpl in Hs;
      repeat (apply elem_of_cons in Hs as [->|Hs]);
      try (by apply elem_of_nil in Hs);
      vm_compute in Hfind; simplify_eq; vm_compute; lia.
  - intros tm dag t tm' Htm Hdag Ht Hfind.
    repeat (apply elem_of_cons in Htm as [->|Htm]);
      [..|by apply elem_of_nil in Htm]; by simplify_eq/=.
  - intros tm Htm.
    repeat (apply elem_of_cons in Htm as [->|Htm]);
      [..|by apply elem_of_nil in Htm]; vm_compute; lia.
Defined.

(** X13. Nothing stops a template that refers to itself. When a step of its
    first group, or one of its tasks, names the template itself, the walk
    of the template never comes back, however long it is left to run: every
    level starts the next one. *)
Theorem self_reference_never_returns
    (NodeID : Workflow → string → string) (de : DockerExecutor)
    (sched : string → nat → list nat) (wf : Workflow) (tmpl : Template) :
  tContainer tmpl = None → tScript tmpl = None →
  (∃ g groups s, tSteps tmpl = Some (g :: groups) ∧ s ∈ Steps g
     ∧ findTemplate wf (stepTemplate s) = Some tmpl)
  ∨ (tSteps tmpl = None
     ∧ ∃ dag t, tDAG tmpl = Some dag ∧ t ∈ Tasks dag
         ∧ findTemplate wf (taskTemplate t) = Some tmpl) →
  ∀ fuel nodeName,
    ¬ returns (executeTemplate NodeID de sched fuel wf nodeName tmpl).2.
Proof.
  intros Hc Hs Hself fuel. induction fuel as [|fuel IH]; intros nodeName;
    [by intros [? ?]|].
  destruct Hself as [(g & groups & s & Hg & Hin & Hfind)
                    |(Hg & dag & t & Hd & Hin & Hfind)].
  - rewrite (executeTemplate_steps _ _ _ _ _ _ _ _ Hc Hs Hg). cbn [snd].
    unfold executeStepsTemplate.
    destruct (stepsFrom_cons sched (executeTemplate NodeID de sched fuel wf)
                wf nodeName 0 g groups)
      as [[Hret _]|[(err & errs & Hret & _)|(_ & _ & Hnot)]]; [| |done].
    all: intros _;
      assert (returns (runStepGroup sched
                         (executeTemplate NodeID de sched fuel wf) wf nodeName
                         0 g).2) as Hgroup by (rewrite Hret; by eexists);
      pose proof (runStepGroup_returns _ _ _ _ _ _ Hgroup s Hin) as Hbody;
      apply goroutine_returns in Hbody; unfold stepBody in Hbody;
      rewrite Hfind in Hbody; by eapply IH.
  - rewrite (executeTemplate_dag _ _ _ _ _ _ _ _ Hc Hs Hg Hd). cbn [snd].
    unfold executeDAGTemplate, mbind, Exec_bind.
    destruct (runTasks sched (executeTemplate NodeID de sched fuel wf) wf
                nodeName dag) as [tr [errs|msg| |]] eqn:Hrun; cbn [snd];
      [|by intros [? ?]..].
    intros _.
    assert (returns (runTasks sched (executeTemplate NodeID de sched fuel wf)
                       wf nodeName dag).2) as Hgroup
      by (rewrite Hrun; by eexists).
    unfold runTasks in Hgroup.
    assert (returns (taskGoroutine (executeTemplate NodeID de sched fuel wf)
                       wf nodeName t).2) as Hbody.
    { apply (runGroup_returns _ _ _ Hgroup). by apply list_elem_of_fmap_2. }
    apply goroutine_returns in Hbody. unfold taskBody in Hbody.
    rewrite Hfind in Hbody. by eapply IH.
Qed.

Lemma self_reference_never_returns_witness :
  ¬ returns (executeTemplate Sample.NodeID (Sample.daemon (λ _, WaitStatus 0))
               Sample.inOrder 5 Demo.loop "main"
               (Sample.stepsOf "main" [[("again", "main")]])).2.
Proof.
  apply (self_reference_never_returns Sample.NodeID
           (Sample.daemon (λ _, WaitStatus 0)) Sample.inOrder Demo.loop
           (Sample.stepsOf "main" [[("again", "main")]]) eq_refl eq_refl).
  left. eexists _, _, _. split; [reflexivity|].
  split; [apply list_elem_of_here|reflexivity].
Defined.

(** Groups without steps are passed over. *)
Lemma stepsFrom_no_steps sched exec wf nodeName i groups :
  (∀ g, g ∈ groups → Steps g = []) →
  stepsFrom sched exec wf nodeName i groups = ([], Return None).
Proof.
  revert i. induction groups as [|g rest IH]; intros i Hempty; [done|].
  cbn [stepsFrom]. unfold runStepGroup.
  rewrite (Hempty g) by left. cbn [fmap list_fmap]. rewrite runGroup_nil.
  unfold mbind, Exec_bind. cbn [fst snd]. rewrite IH; [done|].
  intros g' Hg'. apply Hempty. by right.
Qed.

(** X14. A composite with nothing to do succeeds without doing anything. The
    walk of a step list that has no group, or only groups without steps,
    and the walk of a task graph without tasks, return nil at once: no
    goroutine is started, nothing is recorded, Docker is not called. *)
Theorem nothing_to_do_succeeds
    (NodeID : Workflow → string → string) (de : DockerExecutor)
    (sched : string → nat → list nat) (fuel : nat) (wf : Workflow)
    (nodeName : string) (tmpl : Template) :
  tContainer tmpl = None → tScript tmpl = None →
  (∃ groups, tSteps tmpl = Some groups ∧ ∀ g, g ∈ groups → Steps g = [])
  ∨ (tSteps tmpl = None ∧ ∃ dag, tDAG tmpl = Some dag ∧ Tasks dag = []) →
  executeTemplate NodeID de sched (S fuel) wf nodeName tmpl
  = ([EvExec nodeName (tName tmpl)], Return None).
Proof.
  intros Hc Hs [(groups & Hg & Hempty)|(Hg & dag & Hd & Hempty)].
  - rewrite (executeTemplate_steps _ _ _ _ _ _ _ _ Hc Hs Hg).
    unfold executeStepsTemplate. by rewrite stepsFrom_no_steps.
  - rewrite (executeTemplate_dag _ _ _ _ _ _ _ _ Hc Hs Hg Hd).
    unfold executeDAGTemplate, runTasks. rewrite Hempty.
    cbn [fmap list_fmap]. by rewrite runGroup_nil.
Qed.

Lemma nothing_to_do_succeeds_witness :
  executeTemplate Sample.NodeID (Sample.daemon (λ _, WaitNever)) Sample.inOrder
    1 Sample.single "main" (Sample.stepsOf "main" [[]; []])
  = ([EvExec "main" "main"], Return None).
Proof.
  apply (nothing_to_do_succeeds Sample.NodeID (Sample.daemon (λ _, WaitNever))
           Sample.inOrder 0 Sample.single "main"
           (Sample.stepsOf "main" [[]; []]) eq_refl eq_refl).
  left. eexists. split; [reflexivity|]. intros g Hg.
  repeat (apply elem_of_cons in Hg as [->|Hg]); [reflexivity..|].
  by apply elem_of_nil in Hg.
Defined.

Section UnknownTemplate.

Variable sched : string → nat → list nat.
Variable exec : string → Template → Exec event (option error).
Variables (wf : Workflow) (nodeName : string).

Lemma unknown_step (groups : list ParallelSteps) (i : nat) (g : ParallelSteps)
    (j : nat) (s : WorkflowStep) :
  groups !! i = Some g → Steps g !! j = Some s →
  findTemplate wf (stepTemplate s) = None →
  let run := executeStepsTemplate sched exec wf nodeName groups in
  let sent := EvSend ("template '" +:+ stepTemplate s
                      +:+ "' not found for step '" +:+ stepName s +:+ "'") in
  (∀ e, EvGo (StepG i j) e ∈ run.1 → e = sent ∨ e = EvDone)
  ∧ ((∃ j' e, EvGo (StepG i j') e ∈ run.1) → (∀ msg, run.2 ≠ Panic msg) →
     by_goroutine (StepG i j) run.1 = [sent; EvDone])
  ∧ ((∃ j' e, EvGo (StepG i j') e ∈ run.1) → returns run.2 →
     ∃ j' err', run.2 = Return (Some err')
       ∧ EvGo (StepG i j') (EvSend err') ∈ run.1
       ∧ ∀ i'' j'' e'', EvGo (StepG i'' j'') e'' ∈ run.1 → i'' ≤ i).
Proof.
  intros Hg Hs Hfind. cbv zeta. unfold executeStepsTemplate.
  assert ((stepGoroutine exec wf nodeName i s).1
          = [ EvSend ("template '" +:+ stepTemplate s +:+ "' not found for step '"
                      +:+ stepName s +:+ "'"); EvDone ]) as Hbody.
  { unfold stepGoroutine, stepBody. by rewrite Hfind. }
  assert ((∃ j' e, EvGo (StepG i j') e
                   ∈ (stepsFrom sched exec wf nodeName 0 groups).1) →
          (∀ msg, (stepsFrom sched exec wf nodeName 0 groups).2 ≠ Panic msg) →
          by_goroutine (StepG i j) (stepsFrom sched exec wf nodeName 0 groups).1
          = [ EvSend ("template '" +:+ stepTemplate s
                      +:+ "' not found for step '" +:+ stepName s +:+ "'");
              EvDone ]) as Hcourse.
  { intros Hstarted Halive. rewrite <- Hbody.
    apply (stepsFrom_course sched exec wf nodeName 0 groups i g);
      [lia|by rewrite Nat.sub_0_r|done..]. }
  split_and!; [|done|].
  - intros e (g' & s' & _ & Hg' & Hs' & He)%stepsFrom_members.
    rewrite Nat.sub_0_r in Hg'. simplify_eq. rewrite Hbody in He.
    apply elem_of_cons in He as [->|He]; [by left|].
    apply list_elem_of_singleton in He as ->. by right.
  - intros Hstarted Hret.
    eapply (stepsFrom_error sched exec wf nodeName 0 groups i j); [|done].
    apply elem_of_by_goroutine. rewrite Hcourse; [by left|done|].
    intros msg Hp. rewrite Hp in Hret. by destruct Hret.
Qed.

Lemma unknown_task (dag : DAGTemplate) (j : nat) (t : DAGTask) :
  Tasks dag !! j = Some t →
  findTemplate wf (taskTemplate t) = None →
  let run := executeDAGTemplate sched exec wf nodeName dag in
  let sent := EvSend ("template '" +:+ taskTemplate t
                      +:+ "' not found for task '" +:+ taskName t +:+ "'") in
  (∀ e, EvGo (TaskG j) e ∈ run.1 → e = sent ∨ e = EvDone)
  ∧ ((∀ msg, run.2 ≠ Panic msg) →
     by_goroutine (TaskG j) run.1 = [sent; EvDone])
  ∧ (returns run.2 →
     ∃ j' err', run.2 = Return (Some err')
       ∧ EvGo (TaskG j') (EvSend err') ∈ run.1).
Proof.
  intros Ht Hfind. cbv zeta.
  assert ((taskGoroutine exec wf nodeName t).1
          = [ EvSend ("template '" +:+ taskTemplate t +:+ "' not found for task '"
                      +:+ taskName t +:+ "'"); EvDone ]) as Hbody.
  { unfold taskGoroutine, taskBody. by rewrite Hfind. }
  split_and!.
  - rewrite executeDAGTemplate_trace.
    intros e (j' & t' & e' & [= <- <-] & Ht' & He)%runTasks_tagged.
    simplify_eq. rewrite Hbody in He.
    apply elem_of_cons in He as [->|He]; [by left|].
    apply list_elem_of_singleton in He as ->. by right.
  - intros Halive. rewrite <- Hbody.
    by apply executeDAGTemplate_course.
  - intros Hret.
    eapply (executeDAGTemplate_error sched exec wf nodeName dag j); [|done].
    apply elem_of_by_goroutine.
    rewrite (executeDAGTemplate_course sched exec wf nodeName dag j t), Hbody;
      [by left| |done].
    intros msg Hp. rewrite Hp in Hret. by destruct Hret.
Qed.

End UnknownTemplate.

(** X15. A step of any group, or a task, that names a template the run
    does not have costs no call on Docker, whatever else happens: all that
    its goroutine ever does is send the error
    ["template '<template>' not found for step '<step>'"] (["... for task
    '<task>'"]) and signal the wait group. When its group is started and
    no member makes the process panic, it does exactly these two things;
    and when the composite returns, it returns an error that a member of
    that group sent, and a step list starts no later group. *)
Theorem unknown_template_fails_composite
    (sched : string → nat → list nat)
    (exec : string → Template → Exec event (option error))
    (wf : Workflow) (nodeName : string) :
  (∀ groups i g j s,
     groups !! i = Some g → Steps g !! j = Some s →
     findTemplate wf (stepTemplate s) = None →
     let run := executeStepsTemplate sched exec wf nodeName groups in
     let sent := EvSend ("template '" +:+ stepTemplate s
                         +:+ "' not found for step '" +:+ stepName s +:+ "'") in
     (∀ e, EvGo (StepG i j) e ∈ run.1 → e = sent ∨ e = EvDone)
     ∧ ((∃ j' e, EvGo (StepG i j') e ∈ run.1) → (∀ msg, run.2 ≠ Panic msg) →
        by_goroutine (StepG i j) run.1 = [sent; EvDone])
     ∧ ((∃ j' e, EvGo (StepG i j') e ∈ run.1) → returns run.2 →
        ∃ j' err', run.2 = Return (Some err')
          ∧ EvGo (StepG i j') (EvSend err') ∈ run.1
          ∧ ∀ i'' j'' e'', EvGo (StepG i'' j'') e'' ∈ run.1 → i'' ≤ i))
  ∧ (∀ dag j t,
     Tasks dag !! j = Some t →
     findTemplate wf (taskTemplate t) = None →
     let run := executeDAGTemplate sched exec wf nodeName dag in
     let sent := EvSend ("template '" +:+ taskTemplate t
                         +:+ "' not found for task '" +:+ taskName t +:+ "'") in
     (∀ e, EvGo (TaskG j) e ∈ run.1 → e = sent ∨ e = EvDone)
     ∧ ((∀ msg, run.2 ≠ Panic msg) →
        by_goroutine (TaskG j) run.1 = [sent; EvDone])
     ∧ (returns run.2 →
        ∃ j' err', run.2 = Return (Some err')
          ∧ EvGo (TaskG j') (EvSend err') ∈ run.1)).
Proof. split; [apply unknown_step|apply unknown_task]. Qed.

(** A step list whose second group names a lost template: the first group
    runs, the step of the second group only sends its error and signals,
    and the step list returns that error. *)
Lemma unknown_template_fails_composite_witness :
  let run := executeStepsTemplate Sample.inOrder
               (executeTemplate Sample.NodeID
                  (Sample.daemon (λ _, WaitStatus 0)) Sample.inOrder 1
                  Sample.single)
               Sample.single "main"
               [ {| Steps := [ {| stepName := "a"; stepTemplate := "echo" |} ] |};
                 {| Steps := [ {| stepName := "b"; stepTemplate := "lost" |};
                               {| stepName := "c"; stepTemplate := "echo" |} ] |};
                 {| Steps := [ {| stepName := "d"; stepTemplate := "echo" |} ] |} ] in
  by_goroutine (StepG 1 0) run.1
  = [ EvSend "template 'lost' not found for step 'b'"; EvDone ]
  ∧ ∃ j' err', run.2 = Return (Some err')
      ∧ EvGo (StepG 1 j') (EvSend err') ∈ run.1
      ∧ ∀ i'' j'' e'', EvGo (StepG i'' j'') e'' ∈ run.1 → i'' ≤ 1.
Proof.
  cbv zeta.
  destruct (unknown_template_fails_composite Sample.inOrder
              (executeTemplate Sample.NodeID
                 (Sample.daemon (λ _, WaitStatus 0)) Sample.inOrder 1
                 Sample.single)
              Sample.single "main") as [Hsteps _].
  destruct (Hsteps
              [ {| Steps := [ {| stepName := "a"; stepTemplate := "echo" |} ] |};
                {| Steps := [ {| stepName := "b"; stepTemplate := "lost" |};
                              {| stepName := "c"; stepTemplate := "echo" |} ] |};
                {| Steps := [ {| stepName := "d"; stepTemplate := "echo" |} ] |} ]
              1 _ 0 {| stepName := "b"; stepTemplate := "lost" |}
              eq_refl eq_refl eq_refl) as (_ & Hcourse & Hresult).
  cbv zeta in Hcourse, Hresult.
  assert (∃ j' e, EvGo (StepG 1 j') e
            ∈ (executeStepsTemplate Sample.inOrder
                 (executeTemplate Sample.NodeID
                    (Sample.daemon (λ _, WaitStatus 0)) Sample.inOrder 1
                    Sample.single)
                 Sample.single "main"
                 [ {| Steps := [ {| stepName := "a"; stepTemplate := "echo" |} ] |};
                   {| Steps := [ {| stepName := "b"; stepTemplate := "lost" |};
                                 {| stepName := "c"; stepTemplate := "echo" |} ] |};
                   {| Steps := [ {| stepName := "d"; stepTemplate := "echo" |} ] |} ]).1)
    as Hstarted.
  { exists 0, EvDone. apply (list_elem_of_lookup_2 _ 9).
    vm_compute. reflexivity. }
  split.
  - apply Hcourse; [exact Hstarted|].
    intros msg H. vm_compute in H. discriminate H.
  - apply Hresult; [exact Hstarted|]. vm_compute. eexists. reflexivity.
Defined.

(** ** The registry *)

(** Reading leaves the registry, the runs and the list of walks to start
    as they are; the store only gets the copies that [DeepCopy] made. *)
Lemma GetWorkflow_state (lc : LocalController) (name : string) :
  ∃ dropped,
    (GetWorkflow lc name).1
    = {| workflows := workflows lc; executions := executions lc;
         nodeMaps := nodeMaps lc ++ dropped; spawned := spawned lc |}.
Proof.
  unfold GetWorkflow.
  destruct (workflows lc !! name ≫= (executions lc !!.)) as [wfExec|].
  - destruct (copyWithStatus_eq (nodeMaps lc) wfExec) as [dropped ->].
    by exists dropped.
  - exists []. rewrite app_nil_r. by destruct lc.
Qed.

Lemma ListWorkflows_state (lc : LocalController) :
  ∃ dropped,
    (ListWorkflows lc).1
    = {| workflows := workflows lc; executions := executions lc;
         nodeMaps := nodeMaps lc ++ dropped; spawned := spawned lc |}.
Proof.
  unfold ListWorkflows.
  assert (∀ entries maps wfs, ∃ dropped,
    (foldl (λ '(maps, wfs) (entry : string * nat),
              match executions lc !! entry.2 with
              | None => (maps, wfs)
              | Some wfExec =>
                  let '(maps, wf) := copyWithStatus maps wfExec in
                  (maps, wfs ++ [wf])
              end) (maps, wfs) entries).1
    = maps ++ dropped) as Hfold.
  { induction entries as [|entry entries IH]; intros maps wfs; simpl.
    - exists []. by rewrite app_nil_r.
    - destruct (executions lc !! entry.2) as [wfExec|]; simpl; [|apply IH].
      destruct (copyWithStatus_eq maps wfExec) as [dropped ->].
      destruct (IH (maps ++ dropped) (wfs ++ [weWorkflow wfExec]))
        as [dropped' ->].
      exists (dropped ++ dropped'). by rewrite <- app_assoc. }
  destruct (Hfold (map_to_list (workflows lc)) (nodeMaps lc) [])
    as [dropped Heq].
  destruct (foldl _ _ _) as [maps wfs]. simpl in *. subst. by exists dropped.
Qed.

Lemma registryOk_fields (lc lc' : LocalController) :
  workflows lc' = workflows lc → executions lc' = executions lc →
  spawned lc' = spawned lc → registryOk lc → registryOk lc'.
Proof. unfold registryOk. by intros -> -> ->. Qed.

Lemma SubmitWorkflow_registryOk now lc wf :
  registryOk lc → registryOk (SubmitWorkflow now lc wf).1.
Proof.
  intros [Hnames Hspawned].
  destruct (SubmitWorkflow_eq now lc wf) as (registered & -> & Hn & _).
  split; cbn.
  - intros name p. destruct (decide (name = wfName wf)) as [->|Hne].
    + rewrite lookup_insert_eq. intros [= <-].
      exists {| weWorkflow := registered |}.
      by rewrite lookup_app_r, Nat.sub_diag.
    + rewrite lookup_insert_ne by done.
      intros (wfExec & Hp & Hname)%Hnames. exists wfExec.
      split; [|done]. by apply lookup_app_l_Some.
  - intros p. rewrite elem_of_app, list_elem_of_singleton, length_app. cbn.
    intros [Hp%Hspawned| ->]; lia.
Qed.

Lemma executeWorkflow_registryOk
    (NodeID : Workflow → string → string) (de : DockerExecutor)
    (sched : string → nat → list nat) (fuel : nat) (now : Time)
    (lc : LocalController) (p : nat) :
  registryOk lc → registryOk (executeWorkflow NodeID de sched fuel now lc p).1.
Proof.
  intros Hok. destruct (executions lc !! p) as [wfExec|] eqn:valid;
    [|by rewrite executeWorkflow_invalid].
  destruct Hok as [Hnames Hspawned].
  destruct (executeWorkflow_frame NodeID de sched fuel now lc p wfExec valid)
    as (Hws & Hsp & Hlen & Hothers & _).
  destruct (executeWorkflow_status NodeID de sched fuel now lc p wfExec valid)
    as (st & _ & Hname & _).
  split.
  - intros name q. rewrite Hws. intros (we & Hq & Hn)%Hnames.
    destruct (decide (q = p)) as [->|Hne].
    + assert (we = wfExec) as -> by congruence.
      destruct (executions (executeWorkflow _ _ _ _ _ _ _).1 !! p)
        as [we'|]; [|done].
      exists we'. split; [done|]. cbn in Hname. congruence.
    + exists we. by rewrite Hothers.
  - intros q. rewrite Hsp, Hlen. apply Hspawned.
Qed.

(** X16. The registry stays in order under every operation of the
    controller. A new controller is in order; when every registered name
    leads to a run of that name and every walk to start is the walk of a
    run, the same holds after a submission, after a read, after a listing
    and after the walk of a run. And then a read fails exactly for the
    names that are not registered. *)
Theorem registry_stays_in_order
    (NodeID : Workflow → string → string) (de : DockerExecutor)
    (sched : string → nat → list nat) (lc : LocalController) :
  registryOk {| workflows := ∅; executions := []; nodeMaps := [];
                spawned := [] |}
  ∧ (registryOk lc →
     (∀ now wf, registryOk (SubmitWorkflow now lc wf).1)
     ∧ (∀ name, registryOk (GetWorkflow lc name).1)
     ∧ registryOk (ListWorkflows lc).1
     ∧ (∀ fuel now p,
          registryOk (executeWorkflow NodeID de sched fuel now lc p).1)
     ∧ ∀ name,
         (is_Some (workflows lc !! name) →
            ∃ wf, (GetWorkflow lc name).2 = (Some wf, None) ∧ wfName wf = name)
         ∧ (workflows lc !! name = None →
            (GetWorkflow lc name).2
            = (None, Some ("workflow '" +:+ name +:+ "' not found")))).
Proof.
  split; [split; [done|by intros p ?%elem_of_nil]|].
  intros Hok. split_and!.
  - intros now wf. by apply SubmitWorkflow_registryOk.
  - intros name. destruct (GetWorkflow_state lc name) as [dropped ->].
    by eapply registryOk_fields.
  - destruct (ListWorkflows_state lc) as [dropped ->].
    by eapply registryOk_fields.
  - intros fuel now p. by apply executeWorkflow_registryOk.
  - intros name. split.
    + intros [p Hp]. destruct Hok as [Hnames _].
      destruct (Hnames name p Hp) as (wfExec & Hexec & Hname).
      destruct (GetWorkflow_found lc name p wfExec Hp Hexec) as [dropped ->].
      by exists (weWorkflow wfExec).
    + intros Hnone. unfold GetWorkflow. by rewrite Hnone.
Qed.

Lemma registry_stays_in_order_witness :
  ∃ wf, (GetWorkflow (SubmitWorkflow (Some 1%Z) Sample.empty Sample.single).1
           "wf").2 = (Some wf, None) ∧ wfName wf = "wf".
Proof.
  destruct (registry_stays_in_order Sample.NodeID
              (Sample.daemon (λ _, WaitStatus 0)) Sample.inOrder
              (SubmitWorkflow (Some 1%Z) Sample.empty Sample.single).1)
    as [Hnew Hkeep].
  destruct (registry_stays_in_order Sample.NodeID
              (Sample.daemon (λ _, WaitStatus 0)) Sample.inOrder Sample.empty)
    as [_ Hempty].
  destruct (Hempty Hnew) as (Hsubmit & _).
  destruct (Hkeep (Hsubmit (Some 1%Z) Sample.single)) as (_ & _ & _ & _ & Hget).
  destruct (Hget "wf") as [Hfound _]. apply Hfound. vm_compute. by eexists.
Defined.

(** What a read answers. *)
Lemma GetWorkflow_answer (lc : LocalController) (name : string) :
  match workflows lc !! name ≫= (executions lc !!.) with
  | Some wfExec => (GetWorkflow lc name).2 = (Some (weWorkflow wfExec), None)
  | None =>
      GetWorkflow lc name
      = (lc, (None, Some ("workflow '" +:+ name +:+ "' not found")))
  end.
Proof.
  unfold GetWorkflow.
  destruct (workflows lc !! name ≫= (executions lc !!.)) as [wfExec|]; [|done].
  by destruct (copyWithStatus_eq (nodeMaps lc) wfExec) as [dropped ->].
Qed.

(** X17. Reading is read-only. [GetWorkflow] and [ListWorkflows] leave the
    registry, every run and the walks to start as they are, and every node
    map of the store where it was. [GetWorkflow] answers with the stored
    workflow value of the run the name leads to, and with the error
    ["workflow '<name>' not found"] and no value, the controller untouched,
    when the name leads to none. *)
Theorem reads_change_nothing (lc : LocalController) (name : string) :
  let get := GetWorkflow lc name in
  let list := ListWorkflows lc in
  workflows get.1 = workflows lc ∧ executions get.1 = executions lc
  ∧ spawned get.1 = spawned lc ∧ nodeMaps lc `prefix_of` nodeMaps get.1
  ∧ workflows list.1 = workflows lc ∧ executions list.1 = executions lc
  ∧ spawned list.1 = spawned lc ∧ nodeMaps lc `prefix_of` nodeMaps list.1
  ∧ match workflows lc !! name ≫= (executions lc !!.) with
    | Some wfExec => get.2 = (Some (weWorkflow wfExec), None)
    | None =>
        get = (lc, (None, Some ("workflow '" +:+ name +:+ "' not found")))
    end.
Proof.
  cbv zeta. destruct (GetWorkflow_state lc name) as [dropped ->].
  destruct (ListWorkflows_state lc) as [dropped' ->]. cbn.
  split_and!; try done; try by eexists.
  unfold GetWorkflow.
  destruct (workflows lc !! name ≫= (executions lc !!.)) as [wfExec|]; [|done].
  by destruct (copyWithStatus_eq (nodeMaps lc) wfExec) as [dropped'' ->].
Qed.

(** *** Walks beside the readers *)

Lemma walked_refl (lc : LocalController) : walked lc lc.
Proof. split_and!; [done..|]. intros p wfExec Hp. by exists wfExec. Qed.

Lemma walked_trans (lc1 lc2 lc3 : LocalController) :
  walked lc1 lc2 → walked lc2 lc3 → walked lc1 lc3.
Proof.
  intros (Hws & Hsp & Hlen & Hruns) (Hws' & Hsp' & Hlen' & Hruns').
  split_and!; [congruence..|].
  intros p wfExec (we & Hp & Hn & Hs & Ht)%Hruns.
  destruct (Hruns' p we Hp) as (we' & Hp' & Hn' & Hs' & Ht').
  exists we'. split_and!; [done|congruence..].
Qed.

(** The start of a walk and a whole walk are among the things that walks
    do. *)
Lemma walkStart_walked (lc : LocalController) (p : nat) :
  walked lc (walkStart lc p).
Proof.
  destruct (executions lc !! p) as [wfExec|] eqn:valid;
    [|rewrite walkStart_invalid by done; apply walked_refl].
  destruct (walkStart_valid lc p wfExec valid)
    as (r & Hp & _ & Hws & Hsp & Hlen & Hothers).
  split_and!; [done..|]. intros q we Hq.
  destruct (decide (q = p)) as [->|Hne].
  - assert (we = wfExec) as -> by congruence. eexists. by split; [exact Hp|].
  - exists we. by rewrite Hothers.
Qed.

Lemma executeWorkflow_walked
    (NodeID : Workflow → string → string) (de : DockerExecutor)
    (sched : string → nat → list nat) (fuel : nat) (now : Time)
    (lc : LocalController) (p : nat) :
  walked lc (executeWorkflow NodeID de sched fuel now lc p).1.
Proof.
  destruct (executions lc !! p) as [wfExec|] eqn:valid;
    [|rewrite executeWorkflow_invalid by done; apply walked_refl].
  destruct (executeWorkflow_frame NodeID de sched fuel now lc p wfExec valid)
    as (Hws & Hsp & Hlen & Hothers & _).
  destruct (executeWorkflow_status NodeID de sched fuel now lc p wfExec valid)
    as (st & Hst & Hname & Hspec & Hstart & _).
  split_and!; [done..|]. intros q we Hq.
  destruct (decide (q = p)) as [->|Hne].
  - assert (we = wfExec) as -> by congruence.
    unfold statusOf in Hst.
    destruct (executions (executeWorkflow _ _ _ _ _ _ _).1 !! p)
      as [we'|]; [|done].
    cbn in Hst, Hname, Hspec. exists we'.
    split_and!; [done|congruence|congruence|]. injection Hst as ->. done.
  - exists we. by rewrite Hothers.
Qed.

(** So is every single step of a walk: a write to the node map, alone or
    after others, and the marking of a failure. *)
Lemma applyEvents_walked (tr : list event) (lc lc' : LocalController)
    (p : nat) :
  applyEvents lc p tr = Some lc' → walked lc lc'.
Proof.
  revert lc. induction tr as [|e tr IH]; intros lc Happly; cbn in Happly.
  - injection Happly as <-. apply walked_refl.
  - destruct (applyEvent lc p e) as [lc1|] eqn:He; [|done]. cbn in Happly.
    apply (walked_trans lc lc1); [|by apply IH].
    clear Happly IH. induction e; cbn in He; try (injection He as <-);
      try apply walked_refl; [|by apply IHe].
    unfold writeNodeStatus in He.
    destruct (statusOf lc p) as [st|]; [|done]. cbn in He.
    destruct (wsNodes st) as [r|]; [|done]. cbn in He. injection He as <-.
    split_and!; [done..|]. intros q we Hq. by exists we.
Qed.

Lemma markWorkflowFailed_walked (now : Time) (lc : LocalController) (p : nat)
    (message : string) :
  walked lc (markWorkflowFailed now lc p message).
Proof.
  unfold markWorkflowFailed, update_execution.
  split_and!; [done|done|by cbn; rewrite length_alter|].
  intros q we Hq. cbn. destruct (decide (q = p)) as [->|Hne].
  - rewrite list_lookup_alter, Hq, decide_True by done.
    eexists. split; [reflexivity|done].
  - rewrite list_lookup_alter_ne by done. by exists we.
Qed.

(** A registered run can be read wherever the walks have got to, under its
    name, with its templates and its start time. *)
Lemma GetWorkflow_walked (lc1 lc2 : LocalController) (name : string) (p : nat)
    (wfExec : WorkflowExecution) :
  walked lc1 lc2 →
  workflows lc1 !! name = Some p → executions lc1 !! p = Some wfExec →
  ∃ wfExec', executions lc2 !! p = Some wfExec'
    ∧ (GetWorkflow lc2 name).2 = (Some (weWorkflow wfExec'), None)
    ∧ wfName (weWorkflow wfExec') = wfName (weWorkflow wfExec)
    ∧ wfSpec (weWorkflow wfExec') = wfSpec (weWorkflow wfExec)
    ∧ wsStartedAt (wfStatus (weWorkflow wfExec'))
      = wsStartedAt (wfStatus (weWorkflow wfExec)).
Proof.
  intros (Hws & _ & _ & Hruns) Hname Hp.
  destruct (Hruns p wfExec Hp) as (we' & Hp' & Hn & Hs & Ht).
  exists we'. split_and!; [done| |done..].
  destruct (GetWorkflow_found lc2 name p we') as [dropped ->];
    [by rewrite Hws|done|done].
Qed.

(** X18. What is submitted can be read back. At the store that a
    submission leaves, where the walk it started has not taken a step, a
    read of the document's name returns the document's name and templates,
    with the phase Pending and the start time of the submission when the
    document carried no phase, and the document's own status otherwise.
    Wherever the walks have got to afterwards, a read of that name still
    succeeds and returns the document's name and templates and the same
    start time; once the walk of the new run is over, the phase read is
    Running, Succeeded or Failed, so it is no longer Pending. The
    submission itself changes nothing for the other names: when the
    registry was in order, the reads of every other name at the store it
    leaves return what they returned before. *)
Theorem submit_then_get (now : Time) (lc : LocalController) (wf : Workflow) :
  let lc1 := (SubmitWorkflow now lc wf).1 in
  (∃ snap, (GetWorkflow lc1 (wfName wf)).2 = (Some snap, None)
     ∧ wfName snap = wfName wf ∧ wfSpec snap = wfSpec wf
     ∧ wfStatus snap
       = if bool_decide (wsPhase (wfStatus wf) = WorkflowUnknown)
         then set_StartedAt now (set_Phase WorkflowPending (wfStatus wf))
         else wfStatus wf)
  ∧ (∀ lc2, walked lc1 lc2 →
     ∃ snap, (GetWorkflow lc2 (wfName wf)).2 = (Some snap, None)
       ∧ wfName snap = wfName wf ∧ wfSpec snap = wfSpec wf
       ∧ wsStartedAt (wfStatus snap)
         = if bool_decide (wsPhase (wfStatus wf) = WorkflowUnknown)
           then now else wsStartedAt (wfStatus wf))
  ∧ (∀ NodeID de sched fuel now',
     ∃ snap,
       (GetWorkflow
          (executeWorkflow NodeID de sched fuel now' lc1
             (length (executions lc))).1 (wfName wf)).2 = (Some snap, None)
       ∧ (wsPhase (wfStatus snap) = WorkflowRunning
          ∨ wsPhase (wfStatus snap) = WorkflowSucceeded
          ∨ wsPhase (wfStatus snap) = WorkflowFailed))
  ∧ (registryOk lc →
     ∀ name, name ≠ wfName wf →
       (GetWorkflow lc1 name).2 = (GetWorkflow lc name).2).
Proof.
  cbv zeta.
  destruct (SubmitWorkflow_eq now lc wf) as (registered & -> & Hn & Hs & Hst).
  cbn [fst].
  set (lc1 := {| workflows := <[wfName wf:=length (executions lc)]> (workflows lc);
                 executions := executions lc ++ [{| weWorkflow := registered |}];
                 nodeMaps := nodeMaps lc;
                 spawned := spawned lc ++ [length (executions lc)] |}).
  assert (workflows lc1 !! wfName wf = Some (length (executions lc))) as Hreg
    by (cbn; by rewrite lookup_insert_eq).
  assert (executions lc1 !! length (executions lc)
          = Some {| weWorkflow := registered |}) as Hrun
    by (cbn; by rewrite lookup_app_r, Nat.sub_diag).
  split_and!.
  - destruct (GetWorkflow_found lc1 (wfName wf) (length (executions lc))
                {| weWorkflow := registered |} Hreg Hrun) as [dropped ->].
    by exists registered.
  - intros lc2 Hwalked.
    destruct (GetWorkflow_walked lc1 lc2 (wfName wf) _ _ Hwalked Hreg Hrun)
      as (we' & _ & -> & Hn' & Hs' & Ht').
    exists (weWorkflow we'). cbn in Hn', Hs', Ht'.
    split_and!; [done|congruence|congruence|].
    rewrite Ht', Hst. by case_bool_decide.
  - intros NodeID de sched fuel now'.
    destruct (GetWorkflow_walked lc1
                (executeWorkflow NodeID de sched fuel now' lc1
                   (length (executions lc))).1 (wfName wf) _ _
                (executeWorkflow_walked NodeID de sched fuel now' lc1 _)
                Hreg Hrun) as (we' & Hwe' & -> & _).
    exists (weWorkflow we'). split; [done|].
    destruct (executeWorkflow_status NodeID de sched fuel now' lc1
                (length (executions lc)) _ Hrun)
      as (st & Hstatus & _ & _ & _ & _ & Hret & Hnot).
    unfold statusOf in Hstatus. rewrite Hwe' in Hstatus.
    cbn in Hstatus. injection Hstatus as Hstatus. rewrite Hstatus.
    destruct (executeWorkflow NodeID de sched fuel now' lc1 _).2
      as [[]|msg| |] eqn:Hres.
    + destruct Hret as (_ & [[? _]|?]); [by eexists|by eauto..].
    + destruct Hnot as (? & _); [by intros [? ?]|by eauto].
    + destruct Hnot as (? & _); [by intros [? ?]|by eauto].
    + destruct Hnot as (? & _); [by intros [? ?]|by eauto].
  - intros [Hnames _] name Hne.
    destruct (workflows lc !! name) as [p|] eqn:Hp.
    + destruct (Hnames name p Hp) as (wfExec & Hexec & _).
      destruct (GetWorkflow_found lc name p wfExec Hp Hexec) as [dropped ->].
      destruct (GetWorkflow_found lc1 name p wfExec) as [dropped' ->];
        [| |done].
      * cbn. by rewrite lookup_insert_ne.
      * cbn. by apply lookup_app_l_Some.
    + unfold GetWorkflow. cbn. rewrite lookup_insert_ne by done.
      by rewrite Hp.
Qed.

Lemma submit_then_get_witness :
  let lc := (SubmitWorkflow (Some 1%Z) Sample.empty Sample.finished).1 in
  let lc1 := (SubmitWorkflow (Some 2%Z) lc Sample.single).1 in
  (GetWorkflow lc1 "done").2 = (GetWorkflow lc "done").2
  ∧ ∃ snap, (GetWorkflow (Demo.walkOver (walkStart lc1 1)) "wf").2
            = (Some snap, None)
      ∧ wfName snap = "wf" ∧ wsStartedAt (wfStatus snap) = Some 2%Z.
Proof.
  cbv zeta.
  destruct (submit_then_get (Some 2%Z)
              (SubmitWorkflow (Some 1%Z) Sample.empty Sample.finished).1
              Sample.single) as (_ & Hlater & _ & Hothers).
  split.
  - apply Hothers; [|discriminate].
    split.
    + intros name p Hp. destruct (decide (name = "done")) as [->|Hne].
      * vm_compute in Hp. injection Hp as <-. eexists. split; reflexivity.
      * cbn in Hp. rewrite lookup_insert_ne in Hp by done. discriminate Hp.
    + intros p Hp. cbn in Hp. apply list_elem_of_singleton in Hp as ->.
      cbn. lia.
  - destruct (Hlater
                (Demo.walkOver
                   (walkStart
                      (SubmitWorkflow (Some 2%Z)
                         (SubmitWorkflow (Some 1%Z) Sample.empty
                            Sample.finished).1 Sample.single).1 1)))
      as (snap & Hget & Hname & _ & Hstart).
    { eapply walked_trans; [apply walkStart_walked|].
      apply executeWorkflow_walked. }
    exists snap. split; [exact Hget|]. split; [exact Hname|exact Hstart].
Defined.

(** X19. A listing holds one value for every registered name. When the
    registry is in order, the names of the listed values are the
    registered names, each once, and a value is listed exactly when a read
    of its name returns it. *)
Theorem list_has_one_value_per_name (lc : LocalController) :
  registryOk lc →
  wfName <$> (ListWorkflows lc).2 = (map_to_list (workflows lc)).*1
  ∧ NoDup (wfName <$> (ListWorkflows lc).2)
  ∧ ∀ wf, wf ∈ (ListWorkflows lc).2
          ↔ (GetWorkflow lc (wfName wf)).2 = (Some wf, None).
Proof.
  intros [Hnames _]. rewrite ListWorkflows_values.
  assert (∀ entries : list (string * nat),
    (∀ entry, entry ∈ entries → workflows lc !! entry.1 = Some entry.2) →
    wfName <$> omap (λ entry : string * nat,
                       weWorkflow <$> executions lc !! entry.2) entries
    = entries.*1) as Hfold.
  { induction entries as [|entry entries IH]; intros Hin; [done|].
    destruct (Hnames entry.1 entry.2) as (wfExec & Hexec & Hname);
      [apply Hin; by left|].
    cbn. rewrite Hexec. cbn. rewrite Hname, IH; [done|].
    intros entry' Hentry'. apply Hin. by right. }
  assert (wfName <$> omap (λ entry : string * nat,
                             weWorkflow <$> executions lc !! entry.2)
                       (map_to_list (workflows lc))
          = (map_to_list (workflows lc)).*1) as Heq.
  { apply Hfold. intros [name p] Hin. by apply elem_of_map_to_list. }
  split_and!; [done|rewrite Heq; apply NoDup_fst_map_to_list|].
  intros wf. rewrite list_elem_of_omap. split.
  - intros ([name p] & Hin%elem_of_map_to_list & Hwf). cbn in Hwf.
    destruct (executions lc !! p) as [wfExec|] eqn:Hexec; [|done].
    injection Hwf as <-.
    destruct (Hnames name p Hin) as (wfExec' & Hexec' & Hname).
    assert (wfExec' = wfExec) as -> by congruence. rewrite Hname.
    by destruct (GetWorkflow_found lc name p wfExec Hin Hexec) as [dropped ->].
  - intros Hget.
    destruct (GetWorkflow lc (wfName wf)) as [lc1 [snap err]] eqn:Hread.
    cbn in Hget. injection Hget as -> ->.
    destruct (GetWorkflow_inv _ _ _ _ _ Hread)
      as (p & wfExec & dropped & Hp & Hexec & -> & _).
    exists (wfName (weWorkflow wfExec), p). split.
    + by apply elem_of_map_to_list.
    + cbn. by rewrite Hexec.
Qed.

Lemma list_has_one_value_per_name_witness :
  let lc := (SubmitWorkflow (Some 2%Z)
               (SubmitWorkflow (Some 1%Z) Sample.empty Sample.single).1
               Sample.single').1 in
  NoDup (wfName <$> (ListWorkflows lc).2)
  ∧ wfName <$> (ListWorkflows lc).2 = ["wf"].
Proof.
  cbv zeta.
  destruct (list_has_one_value_per_name
              (SubmitWorkflow (Some 2%Z)
                 (SubmitWorkflow (Some 1%Z) Sample.empty Sample.single).1
                 Sample.single').1) as (Hnames & Hnodup & _).
  - split.
    + intros name p Hp. destruct (decide (name = "wf")) as [->|Hne].
      * vm_compute in Hp. injection Hp as <-. eexists. split; reflexivity.
      * cbn in Hp. rewrite !lookup_insert_ne in Hp by done. discriminate Hp.
    + intros p Hp. cbn in Hp.
      repeat (apply elem_of_cons in Hp as [->|Hp]); [cbn; lia..|].
      by apply elem_of_nil in Hp.
  - split; [exact Hnodup|]. rewrite Hnames. vm_compute. reflexivity.
Defined.

(** ** The HTTP server *)

Lemma sliceFrom_app (a b : string) :
  sliceFrom (String.length a) (a +:+ b) = Some b.
Proof. induction a as [|c a IH]; [by destruct b|exact IH]. Qed.

Lemma sliceFrom_short (n : nat) (s : string) :
  String.length s < n → sliceFrom n s = None.
Proof.
  revert s. induction n as [|n IH]; intros s Hs; [lia|].
  destruct s as [|c s]; [done|]. cbn in *. apply IH. lia.
Qed.

Lemma storeDocument_eq (lc : LocalController) (doc : Document) :
  ∃ added nodes,
    storeDocument lc doc
    = ({| workflows := workflows lc; executions := executions lc;
          nodeMaps := nodeMaps lc ++ added; spawned := spawned lc |},
       {| wfName := wfName (docWorkflow doc);
          wfSpec := wfSpec (docWorkflow doc);
          wfStatus := set_Nodes nodes (wfStatus (docWorkflow doc)) |}).
Proof.
  unfold storeDocument. destruct (docNodes doc) as [nodes|].
  - by eexists [_], _.
  - exists [], None. rewrite app_nil_r. by destruct lc.
Qed.

Section ServerFacts.

Variable jsonUnmarshal : string → Document → Document * option error.
Variable yamlUnmarshal : string → Document → Document * option error.
Variable meanwhile : LocalController → LocalController.

(** [submitWorkflow] in terms of the decoded document. *)
Lemma submitWorkflow_decoded (now : Time) (lc : LocalController) (r : Request) :
  submitWorkflow jsonUnmarshal yamlUnmarshal meanwhile now lc r
  = match reqBody r with
    | inr _ => (lc, httpError "Failed to read request body" 400)
    | inl body =>
        match decoded jsonUnmarshal yamlUnmarshal body with
        | (_, Some err) =>
            (lc, httpError ("Failed to parse workflow: " +:+ err) 400)
        | (doc, None) =>
            if bool_decide (wfName (docWorkflow doc) = EmptyString)
            then (lc, httpError "Workflow name is required" 400)
            else if bool_decide
                      (Entrypoint (wfSpec (docWorkflow doc)) = EmptyString)
            then (lc, httpError "Workflow entrypoint is required" 400)
            else
              let stored := storeDocument lc doc in
              let submitted := SubmitWorkflow now stored.1 stored.2 in
              let encoded := meanwhile submitted.1 in
              (encoded,
               {| respCode := 201;
                  respBody :=
                    Item (weWorkflow
                            <$> executions encoded
                                  !! length (executions stored.1)) |})
        end
    end.
Proof.
  unfold submitWorkflow, decoded. destruct (reqBody r) as [body|err]; [|done].
  destruct (jsonUnmarshal body zeroDocument) as [doc0 [err0|]];
    [destruct (yamlUnmarshal body doc0) as [doc [err|]]; [done|]|];
    repeat case_bool_decide; try done;
    by destruct (storeDocument lc _) as [lc' wf].
Qed.

Hypothesis meanwhile_walked : ∀ lc, walked lc (meanwhile lc).

(** A submission is refused with status 400 and the controller as it was,
    or accepted with status 201: then the document has a name and an entry
    point and its run is registered as the newest of the controller, its
    walk started; the answer is that run as the walks have left it when it
    is encoded. *)
Lemma submitWorkflow_cases (now : Time) (lc : LocalController) (r : Request) :
  (∃ msg, submitWorkflow jsonUnmarshal yamlUnmarshal meanwhile now lc r
          = (lc, httpError msg 400)
     ∧ match reqBody r with
       | inr _ => True
       | inl body =>
           let doc := decoded jsonUnmarshal yamlUnmarshal body in
           is_Some doc.2
           ∨ wfName (docWorkflow doc.1) = EmptyString
           ∨ Entrypoint (wfSpec (docWorkflow doc.1)) = EmptyString
       end)
  ∨ (∃ body added registered answered,
       let doc := decoded jsonUnmarshal yamlUnmarshal body in
       let submitted :=
         {| workflows := <[wfName registered := length (executions lc)]>
                           (workflows lc);
            executions := executions lc ++ [ {| weWorkflow := registered |} ];
            nodeMaps := nodeMaps lc ++ added;
            spawned := spawned lc ++ [length (executions lc)] |} in
       reqBody r = inl body ∧ doc.2 = None
       ∧ wfName registered = wfName (docWorkflow doc.1)
       ∧ wfSpec registered = wfSpec (docWorkflow doc.1)
       ∧ wfName registered ≠ EmptyString
       ∧ Entrypoint (wfSpec registered) ≠ EmptyString
       ∧ wsPhase (wfStatus registered)
         = (if bool_decide (wsPhase (wfStatus (docWorkflow doc.1))
                            = WorkflowUnknown)
            then WorkflowPending
            else wsPhase (wfStatus (docWorkflow doc.1)))
       ∧ wsStartedAt (wfStatus registered)
         = (if bool_decide (wsPhase (wfStatus (docWorkflow doc.1))
                            = WorkflowUnknown)
            then now
            else wsStartedAt (wfStatus (docWorkflow doc.1)))
       ∧ executions (meanwhile submitted) !! length (executions lc)
         = Some {| weWorkflow := answered |}
       ∧ wfName answered = wfName registered
       ∧ wfSpec answered = wfSpec registered
       ∧ wsStartedAt (wfStatus answered) = wsStartedAt (wfStatus registered)
       ∧ submitWorkflow jsonUnmarshal yamlUnmarshal meanwhile now lc r
         = (meanwhile submitted,
            {| respCode := 201; respBody := Item (Some answered) |})).
Proof.
  rewrite submitWorkflow_decoded. destruct (reqBody r) as [body|err];
    [|left; by eexists].
  destruct (decoded jsonUnmarshal yamlUnmarshal body) as [doc [err|]] eqn:Hdec;
    [left; eexists; split; [done|]; left; by eexists|].
  case_bool_decide as Hname; [left; eexists; split; [done|]; by eauto|].
  case_bool_decide as Hentry; [left; eexists; split; [done|]; by eauto|].
  right. cbv zeta. destruct (storeDocument_eq lc doc) as (added & nodes & ->).
  cbn [fst snd].
  destruct (SubmitWorkflow_eq now
              {| workflows := workflows lc; executions := executions lc;
                 nodeMaps := nodeMaps lc ++ added; spawned := spawned lc |}
              {| wfName := wfName (docWorkflow doc);
                 wfSpec := wfSpec (docWorkflow doc);
                 wfStatus := set_Nodes nodes (wfStatus (docWorkflow doc)) |})
    as (registered & -> & Hn & Hs & Hst).
  cbn in Hn, Hs, Hst.
  cbn [fst wfName workflows executions nodeMaps spawned]. rewrite <- Hn.
  set (submitted :=
         {| workflows := <[wfName registered:=length (executions lc)]>
                           (workflows lc);
            executions := executions lc ++ [{| weWorkflow := registered |}];
            nodeMaps := nodeMaps lc ++ added;
            spawned := spawned lc ++ [length (executions lc)] |}).
  destruct (meanwhile_walked submitted) as (_ & _ & _ & Hruns).
  destruct (Hruns (length (executions lc)) {| weWorkflow := registered |})
    as ([answered] & Hanswered & Hn' & Hs' & Ht');
    [by cbn; rewrite lookup_app_r, Nat.sub_diag|].
  cbn in Hn', Hs', Ht'.
  exists body, added, registered, answered.
  rewrite Hdec. cbn [fst snd]. fold submitted.
  split_and!; try done; try congruence;
    first [rewrite Hst; case_bool_decide; reflexivity | by rewrite Hanswered].
Qed.

End ServerFacts.

(** X20. The answers of the collection route, where the walks beside the
    handler change of a run only what walks change (not its name, its
    templates or its start time, nor the registry, the number of runs or
    the walks to start). A GET is answered with 200 and the listing, a POST
    with 201 or 400, any other method with 405 ["Method not allowed"]; a
    POST is never answered with 500, since a submission to the controller
    cannot fail (the JSON encoder is taken to succeed). Unless the answer
    is 201 the registry, the runs and the walks to start are as they were,
    and after a 400 the whole controller is. After a 201 the answer carries
    the new run as it is when it is encoded, which may already be walked:
    it has a name and an entry point, it is the newest run, the registry
    leads from its name to it, and its walk is started. *)
Theorem collection_route_answers
    (jsonUnmarshal yamlUnmarshal : string → Document → Document * option error)
    (meanwhile : LocalController → LocalController)
    (now : Time) (lc : LocalController) (r : Request) :
  (∀ lc, walked lc (meanwhile lc)) →
  let res := handleWorkflows jsonUnmarshal yamlUnmarshal meanwhile now lc r in
  (respCode res.2 = 200 ∧ reqMethod r = "GET"
   ∨ respCode res.2 = 201 ∧ reqMethod r = "POST"
   ∨ respCode res.2 = 400 ∧ reqMethod r = "POST"
   ∨ res = (lc, httpError "Method not allowed" 405)
     ∧ reqMethod r ≠ "GET" ∧ reqMethod r ≠ "POST")
  ∧ (respCode res.2 ≠ 201 →
       workflows res.1 = workflows lc ∧ executions res.1 = executions lc
       ∧ spawned res.1 = spawned lc)
  ∧ (respCode res.2 = 400 → res.1 = lc)
  ∧ (respCode res.2 = 200 → respBody res.2 = Items (ListWorkflows lc).2)
  ∧ (respCode res.2 = 201 →
       ∃ answered,
         respBody res.2 = Item (Some answered)
         ∧ wfName answered ≠ EmptyString
         ∧ Entrypoint (wfSpec answered) ≠ EmptyString
         ∧ workflows res.1 !! wfName answered = Some (length (executions lc))
         ∧ executions res.1 !! length (executions lc)
           = Some {| weWorkflow := answered |}
         ∧ length (executions res.1) = S (length (executions lc))
         ∧ (∀ p wfExec, executions lc !! p = Some wfExec →
              ∃ wfExec', executions res.1 !! p = Some wfExec'
                ∧ wfName (weWorkflow wfExec') = wfName (weWorkflow wfExec)
                ∧ wfSpec (weWorkflow wfExec') = wfSpec (weWorkflow wfExec))
         ∧ spawned res.1 = spawned lc ++ [length (executions lc)]).
Proof.
  intros Hwalked. cbv zeta. unfold handleWorkflows.
  case_bool_decide as Hget; [|case_bool_decide as Hpost].
  - unfold listWorkflows. destruct (ListWorkflows_state lc) as [dropped Hstate].
    destruct (ListWorkflows lc) as [lc1 wfs]. cbn in *. subst lc1.
    split_and!; try done. by left.
  - destruct (submitWorkflow_cases jsonUnmarshal yamlUnmarshal meanwhile
                Hwalked now lc r)
      as [(msg & -> & _)
         |(body & added & registered & answered & _ & _ & _ & _ & Hn & He & _
           & _ & Hanswered & Hn' & Hs' & _ & ->)];
      cbn [fst snd respCode respBody httpError workflows executions spawned].
    + split_and!; try done. by right; right; left.
    + split_and!; try done; [by right; left|].
      intros _. exists answered.
      destruct (Hwalked
                  {| workflows := <[wfName registered:=length (executions lc)]>
                                    (workflows lc);
                     executions := executions lc
                                   ++ [{| weWorkflow := registered |}];
                     nodeMaps := nodeMaps lc ++ added;
                     spawned := spawned lc ++ [length (executions lc)] |})
        as (Hws & Hsp & Hlen & Hruns).
      cbn in Hws, Hsp, Hlen.
      split_and!; [done|congruence|congruence| |done| | |done].
      * by rewrite Hws, Hn', lookup_insert_eq.
      * rewrite Hlen, length_app. cbn. lia.
      * intros p wfExec Hp.
        destruct (Hruns p wfExec) as (we' & Hp' & Hwn & Hwsp & _);
          [by apply lookup_app_l_Some|].
        by exists we'.
  - cbn. split_and!; try done. by right; right; right.
Qed.

Lemma collection_route_answers_witness :
  let res := handleWorkflows Demo.decode Demo.decode Demo.walkOver (Some 1%Z)
               Sample.empty (Demo.post "single") in
  respCode res.2 = 201
  ∧ ∃ answered,
      respBody res.2 = Item (Some answered)
      ∧ wfName answered ≠ EmptyString
      ∧ wsPhase (wfStatus answered) = WorkflowSucceeded.
Proof.
  cbv zeta.
  destruct (collection_route_answers Demo.decode Demo.decode Demo.walkOver
              (Some 1%Z) Sample.empty (Demo.post "single"))
    as (_ & _ & _ & _ & Hcreated).
  { intros lc. apply executeWorkflow_walked. }
  split; [reflexivity|].
  destruct (Hcreated eq_refl) as (answered & Hbody & Hname & _).
  exists answered. split; [exact Hbody|]. split; [exact Hname|].
  vm_compute in Hbody. injection Hbody as <-. reflexivity.
Defined.

(** A GET of the detail route for a name that leads to a run. *)
Lemma detail_route_get (lc : LocalController) (r : Request) (name : string)
    (wfExec : WorkflowExecution) :
  reqMethod r = "GET" → reqPath r = detailPrefix +:+ name →
  name ≠ EmptyString →
  workflows lc !! name ≫= (executions lc !!.) = Some wfExec →
  ∃ lc', handleWorkflowDetail lc r
         = Return (lc', {| respCode := 200;
                           respBody := Item (Some (weWorkflow wfExec)) |}).
Proof.
  intros Hget Hpath Hname Hrun. unfold handleWorkflowDetail.
  rewrite Hpath, sliceFrom_app, bool_decide_false, bool_decide_true by done.
  unfold getWorkflow. pose proof (GetWorkflow_answer lc name) as Hanswer.
  rewrite Hrun in Hanswer.
  destruct (GetWorkflow lc name) as [lc1 [wf err]]. cbn in Hanswer.
  simplify_eq. by eexists.
Qed.

(** X21. The answers of the detail route, for a path that starts with the
    prefix of the route. The handler answers 400 ["Workflow name required"]
    when nothing follows the prefix, 405 for any method but GET, 404 with
    ["workflow '<name>' not found"] when the name leads to no run, and 200
    with the stored workflow value otherwise; the registry, the runs and
    the walks to start are never changed. A path shorter than the prefix
    makes the handler panic. *)
Theorem detail_route_answers (lc : LocalController) (r : Request) :
  (∀ name, reqPath r = detailPrefix +:+ name →
     ∃ lc' resp,
       handleWorkflowDetail lc r = Return (lc', resp)
       ∧ workflows lc' = workflows lc ∧ executions lc' = executions lc
       ∧ spawned lc' = spawned lc
       ∧ resp
         = if bool_decide (name = EmptyString)
           then httpError "Workflow name required" 400
           else if bool_decide (reqMethod r = "GET")
           then match workflows lc !! name ≫= (executions lc !!.) with
                | Some wfExec =>
                    {| respCode := 200;
                       respBody := Item (Some (weWorkflow wfExec)) |}
                | None =>
                    httpError ("workflow '" +:+ name +:+ "' not found") 404
                end
           else httpError "Method not allowed" 405)
  ∧ (String.length (reqPath r) < String.length detailPrefix →
     handleWorkflowDetail lc r
     = Panic "runtime error: slice bounds out of range").
Proof.
  split.
  - intros name Hpath. unfold handleWorkflowDetail.
    rewrite Hpath, sliceFrom_app.
    case_bool_decide; [by eexists _, _|].
    case_bool_decide; [|by eexists _, _].
    unfold getWorkflow.
    destruct (GetWorkflow_state lc name) as [dropped Hstate].
    pose proof (GetWorkflow_answer lc name) as Hget.
    destruct (GetWorkflow lc name) as [lc1 [wf err]]. cbn in Hstate. subst lc1.
    destruct (workflows lc !! name ≫= (executions lc !!.)) as [wfExec|];
      cbn in Hget; simplify_eq; by eexists _, _.
  - intros Hshort. unfold handleWorkflowDetail.
    by rewrite sliceFrom_short.
Qed.

Lemma detail_route_answers_witness :
  ∃ lc', handleWorkflowDetail
           (SubmitWorkflow (Some 1%Z) Sample.empty Sample.single).1
           (Demo.get "/api/v1/workflows/other")
         = Return (lc', httpError "workflow 'other' not found" 404).
Proof.
  destruct (detail_route_answers
              (SubmitWorkflow (Some 1%Z) Sample.empty Sample.single).1
              (Demo.get "/api/v1/workflows/other")) as [Hanswer _].
  destruct (Hanswer "other" eq_refl) as (lc' & resp & Hrun & _ & _ & _ & Hresp).
  exists lc'. rewrite Hrun, Hresp. reflexivity.
Defined.

(** X22. What is posted can be fetched, where the walks beside the
    handlers change of a run only what walks change. When the body of a
    POST decodes to a document with a name and an entry point, the answer
    is 201 with a value that has the document's name and templates and the
    start time of the submission (the document's own when it carried a
    phase); its phase is Pending, or the document's own, when no walk has
    touched the store before the answer was encoded. Wherever the walks
    have got to afterwards, a GET of the detail route for that name is
    answered with 200 and a value of the same name, templates and start
    time, and a GET of the collection route lists such a value; when no
    walk has taken a step since the answer, it is the very value the POST
    answered with. *)
Theorem post_then_get
    (jsonUnmarshal yamlUnmarshal : string → Document → Document * option error)
    (meanwhile : LocalController → LocalController)
    (now : Time) (lc : LocalController) (r : Request) (body : string)
    (doc : Document) :
  (∀ lc, walked lc (meanwhile lc)) →
  reqMethod r = "POST" →
  reqBody r = inl body →
  decoded jsonUnmarshal yamlUnmarshal body = (doc, None) →
  wfName (docWorkflow doc) ≠ EmptyString →
  Entrypoint (wfSpec (docWorkflow doc)) ≠ EmptyString →
  let posted := handleWorkflows jsonUnmarshal yamlUnmarshal meanwhile now lc r in
  let same (wf wf' : Workflow) :=
    wfName wf' = wfName wf ∧ wfSpec wf' = wfSpec wf
    ∧ wsStartedAt (wfStatus wf') = wsStartedAt (wfStatus wf) in
  ∃ wf,
    posted.2 = {| respCode := 201; respBody := Item (Some wf) |}
    ∧ wfName wf = wfName (docWorkflow doc)
    ∧ wfSpec wf = wfSpec (docWorkflow doc)
    ∧ wsStartedAt (wfStatus wf)
      = (if bool_decide (wsPhase (wfStatus (docWorkflow doc)) = WorkflowUnknown)
         then now else wsStartedAt (wfStatus (docWorkflow doc)))
    ∧ ((∀ lc, meanwhile lc = lc) →
       wsPhase (wfStatus wf)
       = (if bool_decide (wsPhase (wfStatus (docWorkflow doc)) = WorkflowUnknown)
          then WorkflowPending else wsPhase (wfStatus (docWorkflow doc))))
    ∧ (∀ lc2 r', walked posted.1 lc2 → reqMethod r' = "GET" →
         reqPath r' = detailPrefix +:+ wfName (docWorkflow doc) →
         ∃ lc3 wf',
           handleWorkflowDetail lc2 r'
           = Return (lc3, {| respCode := 200; respBody := Item (Some wf') |})
           ∧ same wf wf' ∧ (lc2 = posted.1 → wf' = wf))
    ∧ (∀ lc2 r', walked posted.1 lc2 → reqMethod r' = "GET" →
         ∃ wfs wf',
           (handleWorkflows jsonUnmarshal yamlUnmarshal meanwhile now lc2 r').2
           = {| respCode := 200; respBody := Items wfs |}
           ∧ wf' ∈ wfs ∧ same wf wf' ∧ (lc2 = posted.1 → wf' = wf)).
Proof.
  intros Hwalked Hpost Hbody Hdec Hname Hentry. cbv zeta.
  assert (handleWorkflows jsonUnmarshal yamlUnmarshal meanwhile now lc r
          = submitWorkflow jsonUnmarshal yamlUnmarshal meanwhile now lc r) as ->.
  { unfold handleWorkflows.
    by rewrite Hpost, bool_decide_false, bool_decide_true. }
  destruct (submitWorkflow_cases jsonUnmarshal yamlUnmarshal meanwhile
              Hwalked now lc r)
    as [(msg & _ & Hrefused)
       |(body' & added & registered & answered & Hbody' & _ & Hn & Hs & _ & _
         & Hph & Hstart & Hanswered & Hn' & Hs' & Ht' & ->)].
  { exfalso. rewrite Hbody, Hdec in Hrefused. cbn in Hrefused.
    destruct Hrefused as [[? ?]|[?|?]]; done. }
  cbv zeta in *. assert (body' = body) as -> by congruence.
  rewrite Hdec in Hn, Hs, Hph, Hstart. cbn [fst snd] in *.
  set (submitted :=
         {| workflows := <[wfName registered:=length (executions lc)]>
                           (workflows lc);
            executions := executions lc ++ [{| weWorkflow := registered |}];
            nodeMaps := nodeMaps lc ++ added;
            spawned := spawned lc ++ [length (executions lc)] |}) in *.
  assert (workflows (meanwhile submitted) !! wfName (docWorkflow doc)
          = Some (length (executions lc))) as Hreg.
  { destruct (Hwalked submitted) as (-> & _). cbn.
    by rewrite Hn, lookup_insert_eq. }
  exists answered. split_and!; [done|congruence|congruence|congruence| | |].
  - intros Hidle. rewrite Hidle in Hanswered. cbn in Hanswered.
    rewrite lookup_app_r, Nat.sub_diag in Hanswered by done.
    cbn in Hanswered. injection Hanswered as <-. exact Hph.
  - intros lc2 r' Hlater Hget Hpath.
    destruct (GetWorkflow_walked (meanwhile submitted) lc2
                (wfName (docWorkflow doc)) _ _ Hlater Hreg Hanswered)
      as (we' & Hwe' & _ & Hwn & Hwsp & Hwt).
    destruct (detail_route_get lc2 r' (wfName (docWorkflow doc)) we')
      as [lc3 Hrun]; [done..| |].
    { destruct Hlater as (-> & _). by rewrite Hreg. }
    exists lc3, (weWorkflow we'). split; [exact Hrun|]. split; [done|].
    intros ->. rewrite Hanswered in Hwe'. by injection Hwe' as <-.
  - intros lc2 r' Hlater Hget. unfold handleWorkflows, listWorkflows.
    rewrite bool_decide_true by done.
    destruct (GetWorkflow_walked (meanwhile submitted) lc2
                (wfName (docWorkflow doc)) _ _ Hlater Hreg Hanswered)
      as (we' & Hwe' & _ & Hwn & Hwsp & Hwt).
    pose proof (ListWorkflows_values lc2) as Hlist.
    destruct (ListWorkflows lc2) as [lc3 wfs]. cbn [fst snd] in *.
    exists wfs, (weWorkflow we'). split; [done|]. split; [|split; [done|]].
    + rewrite Hlist. apply list_elem_of_omap.
      exists (wfName (docWorkflow doc), length (executions lc)). split.
      * apply elem_of_map_to_list. destruct Hlater as (-> & _). exact Hreg.
      * cbn. by rewrite Hwe'.
    + intros ->. rewrite Hanswered in Hwe'. by injection Hwe' as <-.
Qed.

Lemma post_then_get_witness :
  let posted := handleWorkflows Demo.decode Demo.decode Demo.walkOver
                  (Some 1%Z) Sample.empty (Demo.post "single") in
  ∃ wf lc3 wf',
    posted.2 = {| respCode := 201; respBody := Item (Some wf) |}
    ∧ wfName wf = "wf"
    ∧ wsPhase (wfStatus wf) = WorkflowSucceeded
    ∧ handleWorkflowDetail posted.1 (Demo.get "/api/v1/workflows/wf")
      = Return (lc3, {| respCode := 200; respBody := Item (Some wf') |})
    ∧ wf' = wf.
Proof.
  cbv zeta.
  destruct (post_then_get Demo.decode Demo.decode Demo.walkOver (Some 1%Z)
              Sample.empty (Demo.post "single") "single"
              {| docWorkflow := Sample.single; docNodes := None |})
    as (wf & Hposted & Hname & _ & _ & _ & Hget & _);
    [intros lc; apply executeWorkflow_walked|reflexivity|reflexivity
    |reflexivity|discriminate|discriminate|].
  destruct (Hget _ (Demo.get "/api/v1/workflows/wf") (walked_refl _)
              eq_refl eq_refl) as (lc3 & wf' & Hrun & _ & Hsame).
  exists wf, lc3, wf'. split; [exact Hposted|]. split; [exact Hname|].
  split; [|split; [exact Hrun|exact (Hsame eq_refl)]].
  vm_compute in Hposted. injection Hposted as <-. reflexivity.
Defined.

(** ** The calls of a walk *)

Section WalkCalls.

Variable NodeID : Workflow → string → string.
Variable de : DockerExecutor.
Variable sched : string → nat → list nat.
Variable wf : Workflow.

Lemma unitCalls_unitCall nodeName tmpl cfg host ID c :
  take 3 (Env cfg) = injectedEnv tmpl wf nodeName →
  AutoRemove host = false →
  AttachStdout cfg = true → AttachStderr cfg = true → Tty cfg = false →
  c ∈ unitCalls (containerNameOf wf nodeName) cfg host ID → unitCall wf c.
Proof.
  intros Henv Hauto Hout Herr Htty Hc. unfold unitCalls in Hc.
  repeat (apply elem_of_cons in Hc as [->|Hc]);
    [|done..|by apply elem_of_nil in Hc].
  by exists nodeName, tmpl.
Qed.

Lemma ExecuteContainer_unitCall nodeName tmpl c :
  c ∈ (ExecuteContainer NodeID de nodeName tmpl wf).1 → unitCall wf c.
Proof.
  destruct (tContainer tmpl) as [ct|] eqn:Hct;
    [|unfold ExecuteContainer; rewrite Hct; by intros ?%elem_of_nil].
  destruct (ExecuteContainer_calls NodeID de nodeName tmpl wf ct Hct)
    as (ID & Hcalls & _).
  intros Hc.
  apply (unitCalls_unitCall nodeName tmpl (containerConfigOf tmpl ct wf nodeName)
           (hostConfigOf ct wf) ID); try done.
  { cbn. by rewrite buildEnvVars_app. }
  destruct Hcalls as [Hprefix|Heq].
  - destruct Hprefix as [rest ->]. apply elem_of_app. by left.
  - rewrite Heq in Hc. unfold unitCalls.
    repeat (apply elem_of_cons in Hc as [->|Hc]);
      [| | | |by apply elem_of_nil in Hc];
      rewrite !elem_of_cons; by eauto 6.
Qed.

Lemma ExecuteScript_unitCall nodeName tmpl c :
  c ∈ (ExecuteScript NodeID de nodeName tmpl wf).1 → unitCall wf c.
Proof.
  destruct (tScript tmpl) as [s|] eqn:Hs;
    [|unfold ExecuteScript; rewrite Hs; by intros ?%elem_of_nil].
  destruct (sCommand s !! 0) as [Command0|] eqn:H0;
    [|unfold ExecuteScript; rewrite Hs, H0; by intros ?%elem_of_nil].
  destruct (ExecuteScript_calls NodeID de nodeName tmpl wf s Command0 Hs H0)
    as (ID & Hcalls & _).
  intros Hc.
  apply (unitCalls_unitCall nodeName tmpl
           (scriptConfigOf tmpl s wf nodeName Command0) scriptHostConfig ID);
    try done.
  { cbn. by rewrite buildEnvVars_app. }
  destruct Hcalls as [Hprefix|Heq].
  - destruct Hprefix as [rest ->]. apply elem_of_app. by left.
  - rewrite Heq in Hc. unfold unitCalls.
    repeat (apply elem_of_cons in Hc as [->|Hc]);
      [| | | |by apply elem_of_nil in Hc];
      rewrite !elem_of_cons; by eauto 6.
Qed.

Lemma executeContainerTemplate_unitCall nodeName tmpl e c :
  e ∈ (executeContainerTemplate NodeID de wf nodeName tmpl).1 →
  callOf e = Some c → unitCall wf c.
Proof.
  intros He Hcall. apply (ExecuteContainer_unitCall nodeName tmpl).
  revert He. unfold executeContainerTemplate, liftCalls, mbind, Exec_bind.
  destruct (ExecuteContainer NodeID de nodeName tmpl wf)
    as [calls [[[ns|] [err|]]|msg| |]]; cbn [fst snd];
    try destruct (failedOrError _); cbn; intros He;
    repeat (apply elem_of_app in He as [He|He]
            || apply elem_of_cons in He as [->|He]);
    try done; try (by apply elem_of_nil in He);
    apply list_elem_of_fmap in He as (c' & -> & Hc'); cbn in Hcall;
    by injection Hcall as <-.
Qed.

Lemma executeScriptTemplate_unitCall nodeName tmpl e c :
  e ∈ (executeScriptTemplate NodeID de wf nodeName tmpl).1 →
  callOf e = Some c → unitCall wf c.
Proof.
  intros He Hcall. apply (ExecuteScript_unitCall nodeName tmpl).
  revert He. unfold executeScriptTemplate, liftCalls, mbind, Exec_bind.
  destruct (ExecuteScript NodeID de nodeName tmpl wf)
    as [calls [[[ns|] [err|]]|msg| |]]; cbn [fst snd];
    try destruct (failedOrError _); cbn; intros He;
    repeat (apply elem_of_app in He as [He|He]
            || apply elem_of_cons in He as [->|He]);
    try done; try (by apply elem_of_nil in He);
    apply list_elem_of_fmap in He as (c' & -> & Hc'); cbn in Hcall;
    by injection Hcall as <-.
Qed.

Lemma executeTemplate_unitCall fuel nodeName tmpl e c :
  e ∈ (executeTemplate NodeID de sched fuel wf nodeName tmpl).1 →
  callOf e = Some c → unitCall wf c.
Proof.
  revert nodeName tmpl e c. induction fuel as [|fuel IH];
    intros nodeName tmpl e c; [by intros ?%elem_of_nil|].
  cbn [executeTemplate]. unfold mbind at 1, Exec_bind at 1. cbn [emit fst snd].
  intros [->|He]%elem_of_cons Hc; [done|]. revert He.
  destruct (tContainer tmpl) as [ct|];
    [intros He; by eapply executeContainerTemplate_unitCall|].
  destruct (tScript tmpl) as [s|];
    [intros He; by eapply executeScriptTemplate_unitCall|].
  destruct (composite_events sched wf callOf
              (executeTemplate NodeID de sched fuel wf) (unitCall wf))
    with (nodeName := nodeName) as [Hsteps Hdag];
    [done|by intros ? []|by eauto|].
  destruct (tSteps tmpl) as [groups|]; [intros He; by eapply Hsteps|].
  destruct (tDAG tmpl) as [dag|]; [intros He; by eapply Hdag|].
  by intros ?%elem_of_nil.
Qed.

End WalkCalls.

(** X23. Whatever the templates, the scheduler and the daemon, every call
    that the walk of a template makes on Docker is the call of a unit of
    work: every unit is created under the name of a node of the run
    (["argo-<run>-<node>"], dots replaced), with the identifiers of the run,
    of that node and of a template in front of its environment, both output
    streams attached, no terminal, and never set to be removed by the
    daemon; and every removal the walk asks for is forced. *)
Theorem walk_calls_docker_for_its_nodes
    (NodeID : Workflow → string → string) (de : DockerExecutor)
    (sched : string → nat → list nat) (fuel : nat) (wf : Workflow)
    (nodeName : string) (tmpl : Template) :
  Forall (unitCall wf)
    (omap callOf (executeTemplate NodeID de sched fuel wf nodeName tmpl).1).
Proof.
  apply Forall_forall. intros c (e & He & Hc)%list_elem_of_omap.
  by eapply executeTemplate_unitCall.
Qed.

(** X24. A run records its walk. For a run whose entry point names one of
    its templates, the walk of the run is the walk of that template: the
    run's node map afterwards is the map it had (the empty map when it had
    none) with the node statuses recorded by the walk written into it in
    order, a later write to an identifier replacing an earlier one. When
    the walk returns nil the run is Succeeded; when it returns an error the
    run is Failed and its message is that error; when the walk panics or
    never returns, so does the run's, and the run stays Running. *)
Theorem run_records_the_walk
    (NodeID : Workflow → string → string) (de : DockerExecutor)
    (sched : string → nat → list nat) (fuel : nat) (now : Time)
    (lc : LocalController) (p : nat) (wfExec : WorkflowExecution)
    (tmpl : Template) :
  executions lc !! p = Some wfExec →
  Entrypoint (wfSpec (weWorkflow wfExec)) ≠ EmptyString →
  findTemplate (weWorkflow wfExec) (Entrypoint (wfSpec (weWorkflow wfExec)))
  = Some tmpl →
  (∀ r, wsNodes (wfStatus (weWorkflow wfExec)) = Some r →
     r < length (nodeMaps lc)) →
  ∃ wf1 r st,
    wfName wf1 = wfName (weWorkflow wfExec)
    ∧ wfSpec wf1 = wfSpec (weWorkflow wfExec)
    ∧ wsPhase (wfStatus wf1) = WorkflowRunning
    ∧ let run := executeTemplate NodeID de sched fuel wf1
                   (Entrypoint (wfSpec (weWorkflow wfExec))) tmpl in
      let res := executeWorkflow NodeID de sched fuel now lc p in
      statusOf res.1 p = Some st ∧ wsNodes st = Some r
      ∧ nodeMaps res.1 !! r
        = Some (applyWrites (omap writeOf run.1)
                  (default ∅ (nodesOf lc (weWorkflow wfExec))))
      ∧ match run.2 with
        | Return None => res.2 = Return () ∧ wsPhase st = WorkflowSucceeded
        | Return (Some err) =>
            res.2 = Return () ∧ wsPhase st = WorkflowFailed ∧ wsMessage st = err
        | Panic msg => res.2 = Panic msg ∧ wsPhase st = WorkflowRunning
        | Blocked => res.2 = Blocked ∧ wsPhase st = WorkflowRunning
        | OutOfFuel => res.2 = OutOfFuel ∧ wsPhase st = WorkflowRunning
        end.
Proof.
  intros valid named found stored.
  destruct (executeWorkflow_records NodeID de sched fuel now lc p wfExec tmpl
              valid named found stored)
    as (wf1 & r & st & Hname & Hspec & Hstatus & Hrec).
  exists wf1, r, st. split_and!; [done|done|by rewrite Hstatus|].
  cbv zeta in *. destruct Hrec as (Hst & Hr & Hmap & Hend).
  split_and!; [done|done|done|].
  destruct (executeTemplate _ _ _ _ _ _ _).2 as [[err|]|msg| |];
    [done|by destruct Hend as (? & ? & _)|done..].
Qed.

Lemma run_records_the_walk_witness :
  let res := executeWorkflow Sample.NodeID (Sample.daemon Sample.scriptFails)
               Sample.alternate 2 (Some 3%Z)
               (SubmitWorkflow (Some 1%Z) Sample.empty Sample.staged).1 0 in
  res.2 = Return ()
  ∧ (wsPhase <$> statusOf res.1 0) = Some WorkflowFailed
  ∧ (wsMessage <$> statusOf res.1 0)
    = Some "script execution failed: script exited with code 2".
Proof.
  cbv zeta.
  destruct (run_records_the_walk Sample.NodeID
              (Sample.daemon Sample.scriptFails) Sample.alternate 2 (Some 3%Z)
              (SubmitWorkflow (Some 1%Z) Sample.empty Sample.staged).1 0
              _ (Sample.stepsOf "main" [[("a", "echo"); ("b", "script")];
                                        [("c", "echo")]])
              eq_refl)
    as (wf1 & r & st & Hname & Hspec & _ & Hrec).
  - discriminate.
  - reflexivity.
  - intros r Hr. discriminate Hr.
  - cbv zeta in Hrec. destruct Hrec as (Hst & _ & _ & Hend).
    rewrite Hst. cbn [fmap option_fmap option_map].
    assert ((executeTemplate Sample.NodeID (Sample.daemon Sample.scriptFails)
               Sample.alternate 2 wf1 "main"
               (Sample.stepsOf "main" [[("a", "echo"); ("b", "script")];
                                       [("c", "echo")]])).2
            = Return (Some "script execution failed: script exited with code 2"))
      as Hwalk.
    { destruct wf1 as [name spec status]. cbn in Hname, Hspec. subst name spec.
      vm_compute. reflexivity. }
    change (Entrypoint (wfSpec (weWorkflow _))) with "main" in Hend.
    rewrite Hwalk in Hend. destruct Hend as (Hres & Hph & Hmsg).
    split; [exact Hres|]. split; [by rewrite Hph|by rewrite Hmsg].
Defined.
